(** * cloudcover: the scan locator, the scan fetcher and the cloud classifier

    A shallow embedding of [workers/processing.py], [workers/ingestion.py]
    and [backend/main.py].

    - Percentages are IEEE-754 binary64 numbers, taken from the Standard
      Library's executable [SpecFloat] model (numpy's float64). A band is the
      array that [.values] hands out, of dtype float32 or float64; the
      elements of a float32 array are written as the float64 of the same
      value, and a threshold is rounded to float32 before it is compared with
      them, as numpy does.
    - Counts are numpy int64 sums, written on [Z] with their wrap-around.
    - Python exceptions are an explicit [Raise] outcome.
    - The collaborators the repository only calls (the S3 listing, the wget
      process, the dataset loader, [datetime.fromisoformat], the clock) are
      parameters of the functions that use them. *)

From Stdlib Require Import ZArith QArith Qpower Qabs String Ascii List Bool Sorted.
From Stdlib Require Import Lia Lqa.
From Stdlib Require Import Floats.SpecFloat.
From stdpp Require Import base option list gmap strings.

Local Open Scope string_scope.
Local Open Scope Z_scope.

(** ** Python outcomes *)

Module Py.

(** The exception classes that occur in the three source files; all of them
    derive from [Exception]. *)
Inductive exn : Type :=
| KeyError (key : string)
| ValueError (msg : string)
| IndexError
| FileNotFoundError (path : string).

Inductive Result (A : Type) : Type :=
| Ok (a : A)
| Raise (e : exn).
Global Arguments Ok {A} a.
Global Arguments Raise {A} e.

Definition bind {A B} (r : Result A) (k : A -> Result B) : Result B :=
  match r with
  | Ok a => k a
  | Raise e => Raise e
  end.

Definition returns {A} (r : Result A) : Prop := exists a, r = Ok a.
Definition raises {A} (r : Result A) : Prop := exists e, r = Raise e.

(** Truthiness of a [str]: only the empty string is falsy. *)
Definition truthy (s : string) : bool :=
  match s with
  | EmptyString => false
  | String _ _ => true
  end.

End Py.
Export Py.

#[global] Instance result_ret : MRet Result := @Ok.
#[global] Instance result_bind : MBind Result := fun A B k r => Py.bind r k.

(** ** binary64 *)

Module F64.

Definition prec : Z := 53.
Definition emax : Z := 1024.

Definition float := spec_float.

Definition nan : float := S754_nan.

(** Conversion of an integer to float64 (round to nearest, ties to even), as
    numpy's true division and Python's [int * float] do before operating. *)
Definition of_int (n : Z) : float := binary_normalize prec emax n 0 false.

Definition div (x y : float) : float := SFdiv prec emax x y.
Definition mul (x y : float) : float := SFmul prec emax x y.

(** [x < y], [x > y] and [x <= y]; all are false when an operand is NaN. *)
Definition ltb (x y : float) : bool := SFltb x y.
Definition gtb (x y : float) : bool := SFltb y x.
Definition leb (x y : float) : bool := SFleb x y.

Definition isnan (x : float) : bool :=
  match x with
  | S754_nan => true
  | _ => false
  end.

(** The decimal literal [n/d] for small [n] and [d]: a correctly rounded
    quotient of two exactly represented integers is the float nearest to the
    fraction, which is what the Python literal denotes. *)
Definition dec (n d : Z) : float := div (of_int n) (of_int d).

(** The power of two [2^e], as a rational. *)
Definition two_to (e : Z) : Q := Qpower 2 e.

(** The exact value of a finite float; 0 stands in for the others. *)
Definition to_Q (x : spec_float) : Q :=
  match x with
  | S754_finite s m e => (inject_Z (cond_Zopp s (Zpos m)) * two_to e)%Q
  | _ => 0%Q
  end.

Definition is_finite (x : spec_float) : bool :=
  match x with
  | S754_zero _ | S754_finite _ _ _ => true
  | _ => false
  end.

End F64.

(** ** binary32 *)

Module F32.

Definition prec : Z := 24.
Definition emax : Z := 128.

(** [np.float32(x)] for a float64 [x]: the nearest float32 (ties to even),
    written as the float64 of the same value. This is what a float32 array
    hands out for each of its elements, and what a Python float becomes when
    it is compared with a float32 array. *)
Definition of_f64 (x : F64.float) : F64.float :=
  match x with
  | S754_finite s m e =>
      match binary_normalize prec emax (cond_Zopp s (Zpos m)) e s with
      | S754_finite s' m' e' =>
          binary_normalize F64.prec F64.emax (cond_Zopp s' (Zpos m')) e' s'
      | y => y
      end
  | _ => x
  end.

End F32.

(** ** numpy arrays *)

Module np.

(** The element types of the arrays that occur: masks are [bool] arrays, a
    band is a [float32] array (what xarray decodes the packed archive
    variables to) or a [float64] array. *)
Inductive dtype : Type := bool_ | float32 | float64.

Record ndarray (A : Type) : Type := mk_ndarray
  { dtype_of : dtype;     (* [a.dtype] *)
    shape : list nat;     (* one extent per axis *)
    flat : list A }.      (* the elements in row-major order *)
Global Arguments mk_ndarray {A} dtype_of shape flat.
Global Arguments dtype_of {A} n.
Global Arguments shape {A} n.
Global Arguments flat {A} n.

Definition size_of (sh : list nat) : nat := fold_right Nat.mul 1%nat sh.

Definition wf {A} (a : ndarray A) : Prop := length (flat a) = size_of (shape a).

Definition map_array {A B} (d : dtype) (f : A -> B) (a : ndarray A) : ndarray B :=
  mk_ndarray d (shape a) (map f (flat a)).

(** A Python float that meets an array in a comparison is converted to the
    dtype of the array: the comparison is made in float32 on a float32
    array. *)
Definition as_dtype (d : dtype) (t : F64.float) : F64.float :=
  match d with
  | float32 => F32.of_f64 t
  | _ => t
  end.

(** [a < t] and [a > t] for a Python float [t], [np.isnan(a)] and [~m]. *)
Definition less (a : ndarray F64.float) (t : F64.float) : ndarray bool :=
  map_array bool_ (fun x => F64.ltb x (as_dtype (dtype_of a) t)) a.
Definition greater (a : ndarray F64.float) (t : F64.float) : ndarray bool :=
  map_array bool_ (fun x => F64.gtb x (as_dtype (dtype_of a) t)) a.
Definition isnan (a : ndarray F64.float) : ndarray bool :=
  map_array bool_ F64.isnan a.
Definition invert (m : ndarray bool) : ndarray bool :=
  map_array bool_ negb m.

(** Two's complement int64. *)
Definition wrap64 (z : Z) : Z := (z + 2 ^ 63) mod 2 ^ 64 - 2 ^ 63.

(** [np.sum] of a boolean array: an int64 accumulator. *)
Definition sum (m : ndarray bool) : Z :=
  fold_left (fun acc b => wrap64 (acc + Z.b2z b)) (flat m) 0.

Definition zeros_like {A} (a : ndarray A) : ndarray bool :=
  mk_ndarray bool_ (shape a) (repeat false (length (flat a))).

(** *** Broadcasting *)

Definition shape_eqb (s1 s2 : list nat) : bool :=
  bool_decide (s1 = s2).

(** The broadcast of two shapes, both given innermost axis first. *)
Fixpoint broadcast_rev (s1 s2 : list nat) : option (list nat) :=
  match s1, s2 with
  | [], s => Some s
  | s, [] => Some s
  | d1 :: r1, d2 :: r2 =>
      match broadcast_rev r1 r2 with
      | None => None
      | Some r =>
          if (d1 =? d2)%nat then Some (d1 :: r)
          else if (d1 =? 1)%nat then Some (d2 :: r)
          else if (d2 =? 1)%nat then Some (d1 :: r)
          else None
      end
  end.

Definition broadcast_shapes (s1 s2 : list nat) : option (list nat) :=
  option_map (@rev nat) (broadcast_rev (rev s1) (rev s2)).

(** [chunks k n l]: the first [k] consecutive blocks of [n] elements. *)
Fixpoint chunks {A} (k n : nat) (l : list A) : list (list A) :=
  match k with
  | O => []
  | S k' => firstn n l :: chunks k' n (skipn n l)
  end.

(** The elements of an array of shape [s] seen through the shape [t] of the
    same rank, where each extent of [s] is the one of [t] or 1. *)
Fixpoint stretch {A} (s t : list nat) (l : list A) : list A :=
  match s, t with
  | d :: s', e :: t' =>
      let rows := chunks d (size_of s') l in
      if (d =? e)%nat then concat (map (stretch s' t') rows)
      else concat (repeat (stretch s' t' l) e)
  | _, _ => l
  end.

Definition pad_rank (n : nat) (s : list nat) : list nat :=
  repeat 1%nat (n - length s) ++ s.

Definition broadcast_to {A} (a : ndarray A) (t : list nat) : list A :=
  stretch (pad_rank (length t) (shape a)) t (flat a).

Definition zip_or (l1 l2 : list bool) : list bool :=
  zip_with orb l1 l2.

(** [np.logical_or(a, b)]. *)
Definition logical_or (a b : ndarray bool) : Result (ndarray bool) :=
  if shape_eqb (shape a) (shape b)
  then Ok (mk_ndarray bool_ (shape a) (zip_or (flat a) (flat b)))
  else
    match broadcast_shapes (shape a) (shape b) with
    | Some t => Ok (mk_ndarray bool_ t (zip_or (broadcast_to a t) (broadcast_to b t)))
    | None => Raise (ValueError "operands could not be broadcast together")
    end.

(** [np.logical_or.reduce(ms)] for a Python list [ms] of arrays: the list is
    stacked along a new leading axis, which needs equal shapes, and is reduced
    along that axis; the reduction of no array at all is the identity
    [False]. *)
Fixpoint logical_or_reduce_from (acc : ndarray bool) (ms : list (ndarray bool))
  : Result (ndarray bool) :=
  match ms with
  | [] => Ok acc
  | m :: ms' =>
      if shape_eqb (shape acc) (shape m)
      then logical_or_reduce_from
             (mk_ndarray bool_ (shape acc) (zip_or (flat acc) (flat m))) ms'
      else Raise (ValueError "inhomogeneous shape")
  end.

Definition logical_or_reduce (ms : list (ndarray bool)) : Result (ndarray bool) :=
  match ms with
  | [] => Ok (mk_ndarray bool_ [] [false])
  | m :: ms' => logical_or_reduce_from m ms'
  end.

End np.

(** ** xarray datasets *)

Module xr.

Record Dataset : Type := mk_Dataset
  { data_vars : gmap string (np.ndarray F64.float);
    attrs : gmap string string }.

(** [ds[name].values] *)
Definition getitem (ds : Dataset) (name : string) : Result (np.ndarray F64.float) :=
  match data_vars ds !! name with
  | Some a => Ok a
  | None => Raise (KeyError name)
  end.

(** [name in ds] *)
Definition contains (ds : Dataset) (name : string) : bool :=
  bool_decide (is_Some (data_vars ds !! name)).

End xr.

(** ** Strings *)

Module Str.

(** [s.replace(c, by)] for a one-character pattern [c]. *)
Fixpoint replace_char (c : ascii) (by_ : string) (s : string) : string :=
  match s with
  | EmptyString => EmptyString
  | String a s' =>
      if Ascii.eqb a c then by_ +:+ replace_char c by_ s'
      else String a (replace_char c by_ s')
  end.

(** [s.split(c)[0]]: the part before the first [c], all of [s] without one. *)
Fixpoint before_first (c : ascii) (s : string) : string :=
  match s with
  | EmptyString => EmptyString
  | String a s' => if Ascii.eqb a c then EmptyString else String a (before_first c s')
  end.

(** The part after the first [c], if there is one. *)
Fixpoint after_first (c : ascii) (s : string) : option string :=
  match s with
  | EmptyString => None
  | String a s' => if Ascii.eqb a c then Some s' else after_first c s'
  end.

(** [s.split(c, 1)[1]] *)
Definition split1_snd (c : ascii) (s : string) : Result string :=
  match after_first c s with
  | Some r => Ok r
  | None => Raise IndexError
  end.

(** The part after the last [c], all of [s] without one. *)
Fixpoint after_last (c : ascii) (s : string) : string :=
  match s with
  | EmptyString => EmptyString
  | String a s' =>
      if Ascii.eqb a c
      then match after_first c s' with
           | Some _ => after_last c s'
           | None => s'
           end
      else match after_first c s' with
           | Some _ => after_last c s'
           | None => s
           end
  end.

(** [os.path.basename] on POSIX. *)
Definition basename (p : string) : string := after_last "/" p.

Definition digit_char (d : Z) : ascii :=
  ascii_of_nat (48 + Z.to_nat (d mod 10)).

(** The last [width] decimal digits of [n], zero padded. *)
Fixpoint zpad (width : nat) (n : Z) : string :=
  match width with
  | O => EmptyString
  | S w => zpad w (n / 10) +:+ String (digit_char n) EmptyString
  end.

Definition digit_val (a : ascii) : option Z :=
  let n := Z.of_nat (nat_of_ascii a) in
  if (48 <=? n) && (n <=? 57) then Some (n - 48) else None.

(** Reads exactly [k] decimal digits at the head of [s]. *)
Fixpoint take_digits (k : nat) (acc : Z) (s : string) : option (Z * string) :=
  match k with
  | O => Some (acc, s)
  | S k' =>
      match s with
      | String a s' =>
          match digit_val a with
          | Some d => take_digits k' (10 * acc + d) s'
          | None => None
          end
      | EmptyString => None
      end
  end.

(** Reads the character [c] at the head of [s]. *)
Definition take_char (c : ascii) (s : string) : option string :=
  match s with
  | String a s' => if Ascii.eqb a c then Some s' else None
  | EmptyString => None
  end.

(** Reads all the decimal digits at the head of [s]: how many, and the rest. *)
Fixpoint skip_digits (s : string) : nat * string :=
  match s with
  | String a s' =>
      match digit_val a with
      | Some _ => let '(n, r) := skip_digits s' in (S n, r)
      | None => (O, s)
      end
  | EmptyString => (O, s)
  end.

End Str.

(** ** datetime *)

Module datetime.

Record t : Type := mk
  { year : Z; month : Z; day : Z;
    hour : Z; minute : Z; second : Z;
    utcoffset : option Z }.   (* minutes east of UTC; [None] when naive *)

Definition is_leap (y : Z) : bool :=
  ((y mod 4 =? 0) && negb (y mod 100 =? 0)) || (y mod 400 =? 0).

Definition days_in_month (y m : Z) : Z :=
  if m =? 2 then (if is_leap y then 29 else 28)
  else if (m =? 4) || (m =? 6) || (m =? 9) || (m =? 11) then 30
  else 31.

Fixpoint days_before (y : Z) (m : nat) : Z :=
  match m with
  | O => 0
  | S m' => days_before y m' + days_in_month y (Z.of_nat m)
  end.

(** [%j]: the day of the year, from 1. *)
Definition yday (d : t) : Z :=
  days_before (year d) (Z.to_nat (month d - 1)) + day d.

(** [strftime] for the three directives that [ingestion.py] uses; [%Y] is
    written for the four-digit years of the archive. *)
Definition strftime_Y (d : t) : string := Str.zpad 4 (year d).
Definition strftime_j (d : t) : string := Str.zpad 3 (yday d).
Definition strftime_H (d : t) : string := Str.zpad 2 (hour d).

(** The hour of the instant on the UTC clock: the wall-clock reading moved
    back by the offset. A naive reading is taken as UTC. *)
Definition utc_hour (d : t) : Z :=
  let off := match utcoffset d with Some o => o | None => 0 end in
  ((hour d * 60 + minute d - off) / 60) mod 24.

(** A reference parser for timestamps written
    [YYYY-MM-DD*HH:MM:SS[.f+][+HH:MM|-HH:MM]], where [*] is any one character:
    the part of the domain of [datetime.fromisoformat] in which archive
    timestamps fall once their [Z] suffix is rewritten. Everything else is
    rejected here. *)
Definition parse_offset (s : string) : option (option Z) :=
  match s with
  | EmptyString => Some None
  | String sg r =>
      if Ascii.eqb sg "+" || Ascii.eqb sg "-" then
        '(hh, r) ← Str.take_digits 2 0 r;
        r ← Str.take_char ":" r;
        '(mm, r) ← Str.take_digits 2 0 r;
        match r with
        | EmptyString =>
            if (hh <=? 23) && (mm <=? 59)
            then Some (Some (if Ascii.eqb sg "-" then - (hh * 60 + mm) else hh * 60 + mm))
            else None
        | _ => None
        end
      else None
  end.

Definition parse_fraction (s : string) : option string :=
  match s with
  | String "." r =>
      let '(n, r') := Str.skip_digits r in
      if (n =? 0)%nat then None else Some r'
  | _ => Some s
  end.

Definition parse_iso (s : string) : option t :=
  '(y, r) ← Str.take_digits 4 0 s;
  r ← Str.take_char "-" r;
  '(mo, r) ← Str.take_digits 2 0 r;
  r ← Str.take_char "-" r;
  '(d, r) ← Str.take_digits 2 0 r;
  match r with
  | EmptyString => None
  | String _ r =>
      '(hh, r) ← Str.take_digits 2 0 r;
      r ← Str.take_char ":" r;
      '(mi, r) ← Str.take_digits 2 0 r;
      r ← Str.take_char ":" r;
      '(ss, r) ← Str.take_digits 2 0 r;
      r ← parse_fraction r;
      off ← parse_offset r;
      if (1 <=? y) && (1 <=? mo) && (mo <=? 12) && (1 <=? d)
         && (d <=? days_in_month y mo)
         && (hh <=? 23) && (mi <=? 59) && (ss <=? 59)
      then Some (mk y mo d hh mi ss off)
      else None
  end.

Definition fromisoformat_extended (s : string) : Result t :=
  match parse_iso s with
  | Some d => Ok d
  | None => Raise (ValueError "Invalid isoformat string")
  end.

End datetime.

(** ** workers/processing.py *)

Module processing.

Import np.

Definition default_ir_band : string := "CMI_C13".
Definition default_vis_bands : list string := ["CMI_C02"; "CMI_C03"].
Definition default_ir_threshold : F64.float := F64.of_int 280.
Definition default_vis_threshold : F64.float := F64.dec 3 10.

(** [(cloud_pixels / total_pixels) * 100 if total_pixels > 0 else np.nan] *)
Definition percent (cloud_pixels total_pixels : Z) : F64.float :=
  if total_pixels >? 0
  then F64.mul (F64.div (F64.of_int cloud_pixels) (F64.of_int total_pixels))
         (F64.of_int 100)
  else F64.nan.

Definition calc_cloud_fraction_ir
  (ds : xr.Dataset) (band : string) (threshold : F64.float) : Result F64.float :=
  data ← xr.getitem ds band;
  let mask := less data threshold in
  let cloud_pixels := sum mask in
  let total_pixels := sum (invert (isnan data)) in
  Ok (percent cloud_pixels total_pixels).

(** The loop that collects one mask per visible band found in the scan. *)
Fixpoint collect_vis_masks (ds : xr.Dataset) (vis_threshold : F64.float)
  (vis_bands : list string) (vis_masks : list (ndarray bool))
  : Result (list (ndarray bool)) :=
  match vis_bands with
  | [] => Ok vis_masks
  | vb :: rest =>
      if xr.contains ds vb
      then vis_data ← xr.getitem ds vb;
           collect_vis_masks ds vis_threshold rest
             (vis_masks ++ [greater vis_data vis_threshold])
      else collect_vis_masks ds vis_threshold rest vis_masks
  end.

(** The array [combined] of [calc_cloud_fraction_multiband]. *)
Definition combined_mask (ds : xr.Dataset) (ir_data : ndarray F64.float)
  (vis_bands : list string) (ir_threshold vis_threshold : F64.float)
  : Result (ndarray bool) :=
  let ir_mask := less ir_data ir_threshold in
  vis_masks ← collect_vis_masks ds vis_threshold vis_bands [];
  vis_mask ← match vis_masks with
              | _ :: _ => logical_or_reduce vis_masks
              | [] => Ok (zeros_like ir_mask)
              end;
  logical_or ir_mask vis_mask.

Definition calc_cloud_fraction_multiband
  (ds : xr.Dataset) (ir_band : string) (vis_bands : list string)
  (ir_threshold vis_threshold : F64.float) : Result F64.float :=
  ir_data ← xr.getitem ds ir_band;
  combined ← combined_mask ds ir_data vis_bands ir_threshold vis_threshold;
  let total_pixels := sum (invert (isnan ir_data)) in
  let cloud_pixels := sum combined in
  Ok (percent cloud_pixels total_pixels).

Section Classifier.

(** [datetime.datetime.fromisoformat] *)
Variable fromisoformat : string -> Result datetime.t.

Definition is_daytime (ds : xr.Dataset) : Result bool :=
  match xr.attrs ds !! "time_coverage_start" with
  | Some stamp =>
      scan_start ← fromisoformat (Str.replace_char "Z" "+00:00" stamp);
      let hour := datetime.hour scan_start in
      Ok ((6 <=? hour) && (hour <=? 18))
  | None => Ok true
  end.

Definition calc_cloud_fraction (ds : xr.Dataset) : Result F64.float :=
  day ← is_daytime ds;
  if day : bool
  then calc_cloud_fraction_multiband ds default_ir_band default_vis_bands
         default_ir_threshold default_vis_threshold
  else calc_cloud_fraction_ir ds default_ir_band default_ir_threshold.

End Classifier.

End processing.

(** ** The local filesystem and the processes run on it *)

Module os.

Record World : Type := mk_World
  { files : gset string;              (* the paths that exist *)
    spawned : list (list string) }.   (* the command lines run so far *)

(** A computation that may raise and that changes the world. *)
Definition IO (A : Type) : Type := World -> Result A * World.

Definition ret {A} (a : A) : IO A := fun w => (Ok a, w).
Definition throw {A} (e : exn) : IO A := fun w => (Raise e, w).
Definition lift {A} (r : Result A) : IO A := fun w => (r, w).

Definition bind {A B} (m : IO A) (k : A -> IO B) : IO B :=
  fun w =>
    match m w with
    | (Ok a, w') => k a w'
    | (Raise e, w') => (Raise e, w')
    end.

(** [try: body finally: cleanup]: the cleanup runs on every way out of the
    body; an exception of the cleanup replaces the outcome of the body. *)
Definition try_finally {A} (body : IO A) (cleanup : IO unit) : IO A :=
  fun w =>
    let '(r, w1) := body w in
    match cleanup w1 with
    | (Ok _, w2) => (r, w2)
    | (Raise e, w2) => (Raise e, w2)
    end.

(** [os.remove(path)] *)
Definition remove (path : string) : IO unit :=
  fun w =>
    if bool_decide (path ∈ files w)
    then (Ok tt, mk_World (files w ∖ {[path]}) (spawned w))
    else (Raise (FileNotFoundError path), w).

End os.

(** ** workers/ingestion.py *)

Module ingestion.

Import os.

Definition default_product : string := "ABI-L2-MCMIPC".
Definition default_satellite : string := "noaa-goes19".

Definition hour_prefix (product satellite : string) (now : datetime.t) : string :=
  let year := datetime.strftime_Y now in
  let day_of_year := datetime.strftime_j now in
  let hour := datetime.strftime_H now in
  satellite +:+ "/" +:+ product +:+ "/" +:+ year +:+ "/" +:+ day_of_year
    +:+ "/" +:+ hour +:+ "/".

Section Archive.

(** [fs.ls] of the anonymous S3 filesystem: the listing under a prefix, or
    the exception of a failed access. Building the filesystem object, which
    the source does before the [try] block, reaches no archive. *)
Variable ls : string -> Result (list string).
(** [datetime.datetime.now(datetime.timezone.utc)] *)
Variable now : datetime.t.

(** The body of the [try] block: its outcome before the handler. *)
Definition latest_in_listing (prefix : string) : Result string :=
  files ← ls prefix;
  match files with
  | [] => Raise (ValueError "No files found for this hour")
  | f :: fs' => Ok (List.last fs' f)
  end.

(** [None] is Python's [None]; every exception of the block is caught. *)
Definition get_latest_goes_file (product satellite : string) : option string :=
  let prefix := hour_prefix product satellite now in
  match latest_in_listing prefix with
  | Ok f => Some f
  | Raise _ => None
  end.

End Archive.

Section Transfer.

(** What running a command line does, for a command that is found and runs
    to its end: its exit status and the files it leaves behind. *)
Variable run_process : list string -> gset string -> Z * gset string.

(** [subprocess.run(command)], reduced to the return code. *)
Definition subprocess_run (command : list string) (w : World) : Z * World :=
  let '(returncode, fs) := run_process command (files w) in
  (returncode, mk_World fs (command :: spawned w)).

Definition run_wget (url : string) (output_path : option string)
  : World -> option string * World :=
  fun w =>
    let output_path :=
      match output_path with
      | None => Str.basename url
      | Some p => p
      end in
    let command := ["wget"; "-q"; url; "-O"; output_path] in
    let '(returncode, w') := subprocess_run command w in
    if returncode =? 0 then (Some output_path, w') else (None, w').

End Transfer.

End ingestion.

(** ** backend/main.py *)

Module backend.

Import os.

Inductive Response : Type :=
| Error (msg : string)
| CloudCover (cloud_cover_percent : F64.float) (source_file : string).

(** [f"https://{satellite}.s3.amazonaws.com/{path}"] *)
Definition object_url (satellite path : string) : string :=
  "https://" +:+ satellite +:+ ".s3.amazonaws.com/" +:+ path.

Section Handler.

Variable ls : string -> Result (list string).
Variable now : datetime.t.
Variable run_process : list string -> gset string -> Z * gset string.
(** [xr.open_dataset] on the files that exist. *)
Variable open_dataset : string -> gset string -> Result xr.Dataset.
Variable fromisoformat : string -> Result datetime.t.
(** [round(x, 2)] on floats. *)
Variable round2 : F64.float -> F64.float.

Definition health_check : string * string := ("status", "ok").

(** The body of the [try] block. *)
Definition process_file (local_file path : string) : IO Response :=
  bind (fun w => (open_dataset local_file (files w), w)) (fun ds =>
  bind (lift (processing.calc_cloud_fraction fromisoformat ds)) (fun cloud_percent =>
  ret (CloudCover (round2 cloud_percent) path))).

Definition get_cloud_cover : IO Response :=
  match ingestion.get_latest_goes_file ls now
          ingestion.default_product ingestion.default_satellite with
  | None => ret (Error "No recent GOES files found")
  | Some latest =>
      if negb (truthy latest) then ret (Error "No recent GOES files found")
      else
        let satellite := Str.before_first "/" latest in
        bind (lift (Str.split1_snd "/" latest)) (fun path =>
        let url := object_url satellite path in
        fun w =>
          match ingestion.run_wget run_process url None w with
          | (None, w') => (Ok (Error "Failed to download GOES file"), w')
          | (Some local_file, w') =>
              if negb (truthy local_file)
              then (Ok (Error "Failed to download GOES file"), w')
              else try_finally (process_file local_file path)
                     (remove local_file) w'
          end)
  end.

End Handler.

End backend.

(** ** workers/processing.py: the visualisation helpers *)

Module visualization.

Import np os.

(** [a |= b] on boolean arrays: the right operand is broadcast to the shape of
    the left one, which is the output and keeps its shape. *)
Definition ior (a b : ndarray bool) : Result (ndarray bool) :=
  if shape_eqb (shape a) (shape b)
  then Ok (mk_ndarray (dtype_of a) (shape a) (zip_or (flat a) (flat b)))
  else
    match broadcast_shapes (shape a) (shape b) with
    | Some t =>
        if shape_eqb t (shape a)
        then Ok (mk_ndarray (dtype_of a) (shape a) (zip_or (flat a) (broadcast_to b t)))
        else Raise (ValueError "non-broadcastable output operand")
    | None => Raise (ValueError "operands could not be broadcast together")
    end.

(** The loop of [plot_cloud_mask] over the visible bands. *)
Fixpoint or_visible (ds : xr.Dataset) (vis_bands : list string)
  (mask_value : ndarray bool) : Result (ndarray bool) :=
  match vis_bands with
  | [] => Ok mask_value
  | vb :: rest =>
      if xr.contains ds vb
      then vis_data ← xr.getitem ds vb;
           mask_value ← ior mask_value (greater vis_data (F64.dec 3 10));
           or_visible ds rest mask_value
      else or_visible ds rest mask_value
  end.

Section Plots.

Variable fromisoformat : string -> Result datetime.t.

(** The matplotlib calls of a helper, from [plt.figure] to [plt.close]: the
    image of a band or of a mask is drawn and saved under a path. *)
Variable show_band : ndarray F64.float -> string -> IO unit.
Variable show_mask : ndarray bool -> string -> IO unit.

Definition plot_band (ds : xr.Dataset) (band save_path : string) : IO unit :=
  bind (lift (xr.getitem ds band)) (fun data => show_band data save_path).

(** The array [mask_value] that [plot_cloud_mask] draws. *)
Definition mask_value (ds : xr.Dataset) : Result (ndarray bool) :=
  day ← processing.is_daytime fromisoformat ds;
  if day : bool
  then ir_data ← xr.getitem ds "CMI_C13";
       or_visible ds ["CMI_C02"; "CMI_C03"] (less ir_data (F64.of_int 280))
  else ir_data ← xr.getitem ds "CMI_C13";
       Ok (less ir_data (F64.of_int 280)).

Definition plot_cloud_mask (ds : xr.Dataset) (save_path : string) : IO unit :=
  bind (lift (mask_value ds)) (fun m => show_mask m save_path).

End Plots.

End visualization.

(** ** The two scripts *)

Module script.

Import os.

Section Scripts.

Variable ls : string -> Result (list string).
Variable now : datetime.t.
Variable run_process : list string -> gset string -> Z * gset string.
Variable open_dataset : string -> gset string -> Result xr.Dataset.
Variable fromisoformat : string -> Result datetime.t.
Variable show_band : np.ndarray F64.float -> string -> IO unit.
Variable show_mask : np.ndarray bool -> string -> IO unit.

(** [python ingestion.py]: the latest object is located, fetched and opened.
    What the scripts print is not part of the world. *)
Definition ingestion_main : IO unit :=
  match ingestion.get_latest_goes_file ls now
          ingestion.default_product ingestion.default_satellite with
  | None => ret tt
  | Some latest =>
      if negb (truthy latest) then ret tt
      else
        let satellite := Str.before_first "/" latest in
        bind (lift (Str.split1_snd "/" latest)) (fun path =>
        let url := backend.object_url satellite path in
        fun w =>
          match ingestion.run_wget run_process url None w with
          | (None, w') => (Ok tt, w')
          | (Some local_file, w') =>
              if negb (truthy local_file) then (Ok tt, w')
              else try_finally
                     (bind (fun w => (open_dataset local_file (files w), w))
                        (fun ds => ret tt))
                     (remove local_file) w'
          end)
  end.

(** [python processing.py]: the latest object is located, fetched, opened,
    classified and plotted. *)
Definition processing_main : IO unit :=
  match ingestion.get_latest_goes_file ls now
          ingestion.default_product ingestion.default_satellite with
  | None => ret tt
  | Some latest =>
      if negb (truthy latest) then ret tt
      else
        let satellite := Str.before_first "/" latest in
        bind (lift (Str.split1_snd "/" latest)) (fun path =>
        let url := backend.object_url satellite path in
        fun w =>
          match ingestion.run_wget run_process url None w with
          | (None, w') => (Ok tt, w')
          | (Some local_file, w') =>
              if negb (truthy local_file) then (Ok tt, w')
              else try_finally
                     (bind (fun w => (open_dataset local_file (files w), w)) (fun ds =>
                      bind (lift (processing.calc_cloud_fraction fromisoformat ds))
                        (fun cloud_percent =>
                      bind (visualization.plot_band show_band ds "CMI_C13"
                              "band_plot.png") (fun _ =>
                      visualization.plot_cloud_mask fromisoformat show_mask ds
                        "cloud_mask.png"))))
                     (remove local_file) w'
          end)
  end.

End Scripts.

End script.

(** ** The quantities of the specification *)

Module spec.

Import np.

(** The pixels strictly below the threshold, and the pixels that are numbers. *)
Definition cloudy_count (data : ndarray F64.float) (threshold : F64.float) : Z :=
  Z.of_nat (length (List.filter (fun x => F64.ltb x threshold) (flat data))).

Definition valid_count (data : ndarray F64.float) : Z :=
  Z.of_nat (length (List.filter (fun x => negb (F64.isnan x)) (flat data))).

Definition true_count (m : list bool) : Z :=
  Z.of_nat (length (List.filter (fun b : bool => b) m)).

(** An array fits numpy's index type. *)
Definition fits_index {A} (a : ndarray A) : Prop :=
  Z.of_nat (length (flat a)) < 2 ^ 63.

(** A visible band of the configuration that the scan holds. *)
Definition present_vis (ds : xr.Dataset) (vis_bands : list string)
  (vb : string) (a : ndarray F64.float) : Prop :=
  vb ∈ vis_bands ∧ xr.data_vars ds !! vb = Some a.

(** Every configured visible band of the scan lies on the grid of [ir]. *)
Definition common_grid (ds : xr.Dataset) (vis_bands : list string)
  (ir : ndarray F64.float) : Prop :=
  ∀ vb a, present_vis ds vis_bands vb a →
    shape a = shape ir ∧ length (flat a) = length (flat ir).

(** The rule of the day path at pixel [i]: each band is compared with the
    threshold as the dtype of that band holds it. *)
Definition cloudy_at (ds : xr.Dataset) (vis_bands : list string)
  (ir : ndarray F64.float) (ir_threshold vis_threshold : F64.float) (i : nat) : Prop :=
  (∃ x, flat ir !! i = Some x
        ∧ F64.ltb x (as_dtype (dtype_of ir) ir_threshold) = true)
  ∨ (∃ vb a y, present_vis ds vis_bands vb a ∧ flat a !! i = Some y
               ∧ F64.gtb y (as_dtype (dtype_of a) vis_threshold) = true).

(** The rule as the specification words it: the values are compared with the
    thresholds themselves. *)
Definition cloudy_at_worded (ds : xr.Dataset) (vis_bands : list string)
  (ir : ndarray F64.float) (ir_threshold vis_threshold : F64.float) (i : nat) : Prop :=
  (∃ x, flat ir !! i = Some x ∧ F64.ltb x ir_threshold = true)
  ∨ (∃ vb a y, present_vis ds vis_bands vb a ∧ flat a !! i = Some y
               ∧ F64.gtb y vis_threshold = true).

(** The elements of a float32 array are float32 values. *)
Definition in_dtype (a : ndarray F64.float) : Prop :=
  dtype_of a = float32 → Forall (fun x => F32.of_f64 x = x) (flat a).

(** The masks of the configured visible bands that the scan holds. *)
Fixpoint present_masks (ds : xr.Dataset) (t : F64.float) (vis_bands : list string)
  : list (ndarray bool) :=
  match vis_bands with
  | [] => []
  | vb :: rest =>
      match xr.data_vars ds !! vb with
      | Some a => greater a t :: present_masks ds t rest
      | None => present_masks ds t rest
      end
  end.

(** A percentage in the closed interval from 0 to 100. *)
Definition in_0_100 (p : F64.float) : Prop :=
  F64.leb (F64.of_int 0) p = true ∧ F64.leb p (F64.of_int 100) = true.

(** The listing is ordered by name. *)
Definition ordered_by_name (files : list string) : Prop :=
  Sorted String.le files.

End spec.

(** ** Sample scans *)

Module sample.

Import np.

Definition f (n : Z) : F64.float := F64.of_int n.

(** [np.array([l])], a float64 array, and [np.array([l], dtype=np.float32)]. *)
Definition row (l : list F64.float) : ndarray F64.float :=
  mk_ndarray float64 [1%nat; length l] l.

Definition row32 (l : list F64.float) : ndarray F64.float :=
  mk_ndarray float32 [1%nat; length l] (map F32.of_f64 l).

(** The IR band [270, 290, NaN, 275]. *)
Definition ir_gap : xr.Dataset :=
  xr.mk_Dataset {[ "CMI_C13" := row [f 270; f 290; F64.nan; f 275] ]} ∅.

(** An IR band without a single number. *)
Definition ir_blank : xr.Dataset :=
  xr.mk_Dataset {[ "CMI_C13" := row [F64.nan; F64.nan] ]} ∅.

(** IR [290, 270] with the visible band [0.1, 0.5]. *)
Definition day_pair : xr.Dataset :=
  xr.mk_Dataset
    {[ "CMI_C13" := row [f 290; f 270];
       "CMI_C02" := row [F64.dec 1 10; F64.dec 1 2] ]} ∅.

(** A noon scan whose IR band has a gap under a bright visible pixel. *)
Definition bright_gap : xr.Dataset :=
  xr.mk_Dataset
    {[ "CMI_C13" := row [F64.nan; f 290];
       "CMI_C02" := row [F64.dec 1 2; F64.dec 1 2] ]}
    {[ "time_coverage_start" := "2025-03-21T12:00:00Z" ]}.

(** The same bands scanned at midnight. *)
Definition bright_gap_night : xr.Dataset :=
  xr.mk_Dataset (xr.data_vars bright_gap)
    {[ "time_coverage_start" := "2025-03-21T00:00:00Z" ]}.

(** A scan stamped 20:00 at five hours east of Greenwich: 15:00 UTC. *)
Definition stamped_east : xr.Dataset :=
  xr.mk_Dataset {[ "CMI_C13" := row [f 270] ]}
    {[ "time_coverage_start" := "2025-03-21T20:00:00+05:00" ]}.

(** A scan with visible bands only. *)
Definition no_ir : xr.Dataset :=
  xr.mk_Dataset {[ "CMI_C02" := row [F64.dec 1 2] ]} ∅.

(** Float32 bands: a warm IR band under a visible band whose first pixel is
    the float32 nearest to 0.3. *)
Definition edge32 : xr.Dataset :=
  xr.mk_Dataset
    {[ "CMI_C13" := row32 [f 290; f 290];
       "CMI_C02" := row32 [F64.dec 3 10; F64.dec 1 10] ]} ∅.

(** Float32 bands: a gap of the IR band under a dim visible pixel. *)
Definition dim_gap : xr.Dataset :=
  xr.mk_Dataset
    {[ "CMI_C13" := row32 [F64.nan; f 270];
       "CMI_C02" := row32 [F64.dec 1 10; F64.dec 1 2] ]} ∅.

Definition noon : datetime.t := datetime.mk 2025 3 21 12 0 0 (Some 0).

Definition listing_two : list string :=
  [ "noaa-goes19/ABI-L2-MCMIPC/2025/080/12/OR_s1200.nc";
    "noaa-goes19/ABI-L2-MCMIPC/2025/080/12/OR_s1205.nc" ].

(** An archive that holds two objects for every hour. *)
Definition ls_two (prefix : string) : Result (list string) := Ok listing_two.

(** A transfer that writes its output file and succeeds. *)
Definition wget_ok (command : list string) (fs : gset string) : Z * gset string :=
  match command with
  | [_; _; _; _; out] => (0, fs ∪ {[out]})
  | _ => (2, fs)
  end.

(** A transfer that leaves a truncated file behind and fails. *)
Definition wget_fail (command : list string) (fs : gset string) : Z * gset string :=
  match command with
  | [_; _; _; _; out] => (4, fs ∪ {[out]})
  | _ => (2, fs)
  end.

(** A loader that opens every existing file as the scan [bright_gap]. *)
Definition open_bright (path : string) (fs : gset string) : Result xr.Dataset :=
  if bool_decide (path ∈ fs) then Ok bright_gap
  else Raise (FileNotFoundError path).

Definition empty_world : os.World := os.mk_World ∅ [].

End sample.

(** ** Rounding, on integers *)

Module Rounding.

(** Rounding keeps, next to the truncated mantissa, a round bit and a sticky
    bit. The three are read as one integer: four times the mantissa, plus two
    for the round bit, plus one for the sticky bit. An even code is an exact
    position on the half-unit grid, an odd code lies strictly between two. *)
Definition code (mrs : shr_record) : Z :=
  4 * shr_m mrs + 2 * Z.b2z (shr_r mrs) + Z.b2z (shr_s mrs).

Definition loc_code (l : location) : Z :=
  match l with
  | loc_Exact => 0
  | loc_Inexact Lt => 1
  | loc_Inexact Eq => 2
  | loc_Inexact Gt => 3
  end.

(** One right shift, on codes. *)
Definition sh1 (k : Z) : Z := k / 2 + (if k mod 4 =? 1 then 1 else 0).

Definition shn (n : nat) (k : Z) : Z := Nat.iter n sh1 k.

(** Round to nearest, ties to even, on codes. *)
Definition rne (k : Z) : Z :=
  let m := k / 4 in
  let l := k mod 4 in
  if l <=? 1 then m
  else if l =? 2 then (if Z.even m then m else m + 1)
  else m + 1.

(** A positive finite float. *)
Definition nf (m e : Z) : spec_float := S754_finite false (Z.to_pos m) e.

(** A mantissa of 53 or, after a carry, 54 bits put back on 53 bits. *)
Definition renorm (m1 e1 : Z) : spec_float :=
  if m1 =? 2 ^ 53 then nf (2 ^ 52) (e1 + 1) else nf m1 e1.

(** The carry, on mantissa and exponent. *)
Definition carry (m1 e1 : Z) : Z * Z :=
  if m1 =? 2 ^ 53 then (2 ^ 52, e1 + 1) else (m1, e1).

(** The order of positive floats with 53-bit mantissas. *)
Definition nf_le (x y : Z * Z) : Prop :=
  snd x < snd y \/ (snd x = snd y /\ fst x <= fst y).

(** The mantissa on 53 or 54 bits and the exponent that the conversion of a
    positive int64 computes before the carry is absorbed. *)
Definition int_mantissa (n : Z) : Z :=
  let d := Zdigits2 n in
  if d <=? 53 then n * 2 ^ (53 - d)
  else rne (shn (Z.to_nat (d - 53)) (4 * n)).

(** The exact position [y], in units of the grid, that a code stands for. *)
Definition at_code (k : Z) (y : Q) : Prop :=
  if Z.even k then (4 * y == inject_Z k)%Q
  else (inject_Z k - 1 < 4 * y /\ 4 * y < inject_Z k + 1)%Q.

(** The unit roundoff of binary64, and the bound on the relative error of a
    percentage. *)
Definition u : Q := 1 # 9007199254740992.
Definition eps : Q := 1 # 1125899906842624.

End Rounding.

(** * Proofs *)

(** ** Counting with an int64 accumulator *)

Section Counting.

Import np spec.

Lemma wrap64_small z : - 2 ^ 63 <= z < 2 ^ 63 -> wrap64 z = z.
Proof.
  intros H. unfold wrap64.
  rewrite Z.mod_small by lia. lia.
Qed.

Lemma true_count_cons b l : true_count (b :: l) = Z.b2z b + true_count l.
Proof. unfold true_count. destruct b; simpl; lia. Qed.

Lemma true_count_bounds l : 0 <= true_count l <= Z.of_nat (length l).
Proof.
  induction l as [|b l IH]; [unfold true_count; simpl; lia|].
  rewrite true_count_cons. destruct b; simpl length; simpl Z.b2z; lia.
Qed.

Lemma sum_from l : forall acc,
  0 <= acc -> acc + Z.of_nat (length l) < 2 ^ 63 ->
  fold_left (fun a b => wrap64 (a + Z.b2z b)) l acc = acc + true_count l.
Proof.
  induction l as [|b l IH]; intros acc Hacc Hlen.
  - unfold true_count. simpl. lia.
  - cbn [fold_left]. rewrite true_count_cons.
    simpl length in Hlen.
    assert (Hb : 0 <= Z.b2z b <= 1) by (destruct b; simpl; lia).
    rewrite wrap64_small by lia.
    rewrite IH by lia. lia.
Qed.

Lemma sum_true_count (m : ndarray bool) :
  fits_index m -> sum m = true_count (flat m).
Proof.
  intros H. unfold sum. rewrite sum_from; unfold fits_index in H; lia.
Qed.

Lemma true_count_map {A} (p : A -> bool) (l : list A) :
  true_count (map p l) = Z.of_nat (length (List.filter p l)).
Proof.
  unfold true_count. f_equal.
  induction l as [|x l IH]; [reflexivity|].
  simpl. destruct (p x); simpl; congruence.
Qed.

(** The threshold 280.0 is the same number in every dtype. *)
Lemma as_dtype_280 d : as_dtype d (F64.of_int 280) = F64.of_int 280.
Proof. destruct d; reflexivity. Qed.

Lemma sum_less data t :
  fits_index data ->
  sum (less data t) = cloudy_count data (as_dtype (dtype_of data) t).
Proof.
  intros H. rewrite sum_true_count.
  - apply true_count_map.
  - unfold fits_index, less, map_array. simpl.
    rewrite length_map. exact H.
Qed.

Lemma sum_valid data :
  fits_index data -> sum (invert (isnan data)) = valid_count data.
Proof.
  intros H. rewrite sum_true_count.
  - unfold invert, isnan, map_array. simpl. rewrite map_map.
    apply true_count_map.
  - unfold fits_index, invert, isnan, map_array. simpl.
    rewrite !length_map. exact H.
Qed.

(** A NaN pixel is below no threshold. *)
Lemma nan_not_below t : F64.ltb F64.nan t = false.
Proof. reflexivity. Qed.

Lemma below_is_number x t : F64.ltb x t = true -> F64.isnan x = false.
Proof. destruct x; simpl; intros H; try reflexivity. discriminate H. Qed.

Lemma cloudy_le_valid data t : cloudy_count data t <= valid_count data.
Proof.
  unfold cloudy_count, valid_count.
  apply inj_le.
  induction (flat data) as [|x l IH]; [simpl; lia|].
  simpl. destruct (F64.ltb x t) eqn:E.
  - rewrite (below_is_number _ _ E). simpl. lia.
  - destruct (negb (F64.isnan x)); simpl; lia.
Qed.

Lemma cloudy_count_nonneg data t : 0 <= cloudy_count data t.
Proof. unfold cloudy_count. lia. Qed.

Lemma valid_count_bound data : 0 <= valid_count data <= Z.of_nat (length (flat data)).
Proof.
  unfold valid_count. split; [lia|].
  apply inj_le. induction (flat data) as [|x l IH]; [simpl; lia|].
  simpl. destruct (negb (F64.isnan x)); simpl; lia.
Qed.

End Counting.

(** ** The classifier: bands that are missing *)

Section MissingBands.

Import np spec processing.

Lemma result_bind_ok {A B} (a : A) (k : A -> Result B) : mbind k (Ok a) = k a.
Proof. reflexivity. Qed.

Lemma result_bind_raise {A B} (e : exn) (k : A -> Result B) :
  mbind k (Raise e) = Raise e.
Proof. reflexivity. Qed.

Lemma getitem_present ds name a :
  xr.data_vars ds !! name = Some a -> xr.getitem ds name = Ok a.
Proof. intros H. unfold xr.getitem. rewrite H. reflexivity. Qed.

Lemma getitem_absent ds name :
  xr.data_vars ds !! name = None -> xr.getitem ds name = Raise (KeyError name).
Proof. intros H. unfold xr.getitem. rewrite H. reflexivity. Qed.

Lemma contains_present ds name a :
  xr.data_vars ds !! name = Some a -> xr.contains ds name = true.
Proof.
  intros H. unfold xr.contains. apply bool_decide_eq_true. rewrite H. eauto.
Qed.

Lemma contains_absent ds name :
  xr.data_vars ds !! name = None -> xr.contains ds name = false.
Proof.
  intros H. unfold xr.contains. apply bool_decide_eq_false. rewrite H.
  intros [x Hx]. discriminate Hx.
Qed.

Lemma collect_none ds t vis_bands : forall acc,
  (forall vb, vb ∈ vis_bands -> xr.data_vars ds !! vb = None) ->
  collect_vis_masks ds t vis_bands acc = Ok acc.
Proof.
  induction vis_bands as [|vb rest IH]; intros acc Habs; [reflexivity|].
  cbn [collect_vis_masks].
  rewrite contains_absent by (apply Habs; left).
  apply IH. intros vb' Hin. apply Habs. right. exact Hin.
Qed.

Lemma zip_or_false_r l : zip_or l (repeat false (length l)) = l.
Proof.
  unfold zip_or. induction l as [|b l IH]; [reflexivity|].
  simpl. rewrite IH. destruct b; reflexivity.
Qed.

Lemma logical_or_zeros (m : ndarray bool) :
  dtype_of m = bool_ -> logical_or m (zeros_like m) = Ok m.
Proof.
  intros Hd. unfold logical_or, zeros_like, shape_eqb. cbn [shape flat].
  rewrite bool_decide_eq_true_2 by reflexivity.
  rewrite zip_or_false_r. destruct m. cbn in Hd. subst. reflexivity.
Qed.

Lemma combined_mask_ir_only ds ir_data vis_bands t1 t2 :
  (forall vb, vb ∈ vis_bands -> xr.data_vars ds !! vb = None) ->
  combined_mask ds ir_data vis_bands t1 t2 = Ok (less ir_data t1).
Proof.
  intros Habs. unfold combined_mask.
  rewrite collect_none by exact Habs.
  cbn. apply logical_or_zeros. reflexivity.
Qed.

Lemma multiband_ir_only ds ir_band vis_bands ir_threshold vis_threshold :
  (forall vb, vb ∈ vis_bands -> xr.data_vars ds !! vb = None) ->
  calc_cloud_fraction_multiband ds ir_band vis_bands ir_threshold vis_threshold
  = calc_cloud_fraction_ir ds ir_band ir_threshold.
Proof.
  intros Habs.
  unfold calc_cloud_fraction_multiband, calc_cloud_fraction_ir.
  destruct (xr.getitem ds ir_band) as [ir_data|e]; [|reflexivity].
  cbn. rewrite combined_mask_ir_only by exact Habs.
  reflexivity.
Qed.

(** C7. When the scan holds none of the configured visible bands, the day
    path returns what the night path returns on the same IR band and
    threshold: the same number, or the same exception. *)
Theorem multiband_without_visible_is_ir ds ir_band vis_bands ir_threshold vis_threshold :
  (forall vb, vb ∈ vis_bands -> xr.data_vars ds !! vb = None) ->
  calc_cloud_fraction_multiband ds ir_band vis_bands ir_threshold vis_threshold
  = calc_cloud_fraction_ir ds ir_band ir_threshold.
Proof. apply multiband_ir_only. Qed.

Lemma multiband_without_visible_is_ir_witness :
  calc_cloud_fraction_multiband sample.ir_gap default_ir_band default_vis_bands
    default_ir_threshold default_vis_threshold
  = calc_cloud_fraction_ir sample.ir_gap default_ir_band default_ir_threshold.
Proof.
  apply (multiband_without_visible_is_ir sample.ir_gap).
  intros vb Hin.
  apply list_elem_of_In in Hin. simpl in Hin.
  destruct Hin as [<-|[<-|[]]]; reflexivity.
Defined.

(** C9. A scan without the band ["CMI_C13"] makes both paths raise
    [KeyError], whatever the thresholds and the visible bands, and so does the
    dispatcher once the illumination is decided; a scan that has the IR band
    and lacks the visible ones makes the day path return. *)
Theorem ir_band_is_mandatory ds :
  xr.data_vars ds !! default_ir_band = None ->
  (forall threshold,
     calc_cloud_fraction_ir ds default_ir_band threshold
     = Raise (KeyError default_ir_band))
  /\ (forall vis_bands ir_threshold vis_threshold,
     calc_cloud_fraction_multiband ds default_ir_band vis_bands
       ir_threshold vis_threshold
     = Raise (KeyError default_ir_band))
  /\ (forall fromisoformat day,
     is_daytime fromisoformat ds = Ok day ->
     calc_cloud_fraction fromisoformat ds = Raise (KeyError default_ir_band))
  /\ (forall ds' ir_data,
     xr.data_vars ds' !! default_ir_band = Some ir_data ->
     (forall vb, vb ∈ default_vis_bands -> xr.data_vars ds' !! vb = None) ->
     returns (calc_cloud_fraction_multiband ds' default_ir_band default_vis_bands
                default_ir_threshold default_vis_threshold)).
Proof.
  intros Habs. repeat split.
  - intros t. unfold calc_cloud_fraction_ir.
    rewrite getitem_absent by exact Habs. reflexivity.
  - intros vbs t1 t2. unfold calc_cloud_fraction_multiband.
    rewrite getitem_absent by exact Habs. reflexivity.
  - intros fromiso day Hday. unfold calc_cloud_fraction. rewrite Hday.
    cbn. destruct day.
    + unfold calc_cloud_fraction_multiband.
      rewrite getitem_absent by exact Habs. reflexivity.
    + unfold calc_cloud_fraction_ir.
      rewrite getitem_absent by exact Habs. reflexivity.
  - intros ds' ir_data Hir Hvis.
    rewrite multiband_ir_only by exact Hvis.
    unfold calc_cloud_fraction_ir.
    rewrite (getitem_present _ _ _ Hir). cbn. eexists. reflexivity.
Qed.

Lemma ir_band_is_mandatory_witness :
  calc_cloud_fraction_ir sample.no_ir default_ir_band default_ir_threshold
  = Raise (KeyError default_ir_band).
Proof.
  apply (proj1 (ir_band_is_mandatory sample.no_ir eq_refl)).
Defined.

End MissingBands.

(** ** The scan locator *)

Section Locator.

Import spec ingestion.

Variable ls : string -> Result (list string).
Variable now : datetime.t.
Variables product satellite : string.

Let prefix := hour_prefix product satellite now.

Lemma last_shift {A} (x : A) (l : list A) (d : A) :
  List.last (x :: l) d = List.last l x.
Proof.
  revert x d. induction l as [|y l IH]; intros x d; [reflexivity|].
  change (List.last (x :: y :: l) d) with (List.last (y :: l) d).
  rewrite (IH y d), (IH y x). reflexivity.
Qed.

Lemma last_in {A} (l : list A) (d : A) : List.last l d ∈ d :: l.
Proof.
  revert d. induction l as [|x l IH]; intros d; [left|].
  rewrite last_shift. right. apply IH.
Qed.

(** In a listing ordered by name every entry is at most the last one. *)
Lemma sorted_last_max (l : list string) (d : string) :
  Sorted String.le (d :: l) ->
  forall g, g ∈ d :: l -> String.le g (List.last l d).
Proof.
  intros Hs. apply Sorted_StronglySorted in Hs; [|intros x y z; apply transitivity].
  revert d Hs. induction l as [|x l IH]; intros d Hs g Hg.
  - apply list_elem_of_singleton in Hg as ->. simpl. reflexivity.
  - apply StronglySorted_inv in Hs as [Hs Hall].
    rewrite last_shift.
    apply elem_of_cons in Hg as [->|Hg].
    + rewrite List.Forall_forall in Hall. apply Hall.
      apply list_elem_of_In. apply last_in.
    + apply IH; assumption.
Qed.

Lemma latest_listing_empty :
  ls prefix = Ok [] -> get_latest_goes_file ls now product satellite = None.
Proof.
  intros H. unfold get_latest_goes_file, latest_in_listing.
  fold prefix. rewrite H. reflexivity.
Qed.

Lemma latest_listing_raises e :
  ls prefix = Raise e -> get_latest_goes_file ls now product satellite = None.
Proof.
  intros H. unfold get_latest_goes_file, latest_in_listing.
  fold prefix. rewrite H. reflexivity.
Qed.

Lemma latest_listing_last f fs :
  ls prefix = Ok (f :: fs) ->
  get_latest_goes_file ls now product satellite = Some (List.last fs f).
Proof.
  intros H. unfold get_latest_goes_file, latest_in_listing.
  fold prefix. rewrite H. reflexivity.
Qed.

(** The answer is read off the listing of the current hour alone. *)
Lemma latest_same_listing (ls' : string -> Result (list string)) :
  ls' prefix = ls prefix ->
  get_latest_goes_file ls' now product satellite
  = get_latest_goes_file ls now product satellite.
Proof.
  intros H. unfold get_latest_goes_file, latest_in_listing.
  fold prefix. rewrite H. reflexivity.
Qed.

End Locator.

(** C5. The locator answers [None] when the listing of the current hour is
    empty and when listing raises, whatever the exception; on a non-empty
    listing ordered by name, as the archive interface returns it, the answer
    is a listed entry that no listed entry exceeds; and the answer depends on
    the listing of the current hour only, so no other hour is consulted. *)
Theorem find_latest_none_or_greatest ls now product satellite :
  let prefix := ingestion.hour_prefix product satellite now in
  let answer := ingestion.get_latest_goes_file ls now product satellite in
  (ls prefix = Ok [] -> answer = None)
  /\ (forall e, ls prefix = Raise e -> answer = None)
  /\ (forall files, ls prefix = Ok files -> files <> [] ->
        spec.ordered_by_name files ->
        exists f, answer = Some f /\ f ∈ files
                  /\ forall g, g ∈ files -> String.le g f)
  /\ (forall ls', ls' prefix = ls prefix ->
        ingestion.get_latest_goes_file ls' now product satellite = answer).
Proof.
  intros prefix answer. subst prefix answer. repeat split.
  - apply latest_listing_empty.
  - intros e. apply latest_listing_raises.
  - intros files Hls Hne Hsorted.
    destruct files as [|f fs]; [congruence|].
    exists (List.last fs f). split; [|split].
    + apply latest_listing_last. exact Hls.
    + apply last_in.
    + apply sorted_last_max. exact Hsorted.
  - intros ls'. apply latest_same_listing.
Qed.

Lemma find_latest_none_or_greatest_witness :
  exists f,
    ingestion.get_latest_goes_file sample.ls_two sample.noon
      ingestion.default_product ingestion.default_satellite = Some f
    /\ f ∈ sample.listing_two
    /\ forall g, g ∈ sample.listing_two -> String.le g f.
Proof.
  apply (proj1 (proj2 (proj2
    (find_latest_none_or_greatest sample.ls_two sample.noon
       ingestion.default_product ingestion.default_satellite)))
    sample.listing_two).
  - reflexivity.
  - discriminate.
  - repeat constructor.
Defined.

(** The entry is chosen by position: the order is the one of the listing. *)
Remark latest_is_last_listed now product satellite :
  ingestion.get_latest_goes_file (fun _ => Ok ["b"; "a"]) now product satellite
  = Some "a".
Proof. reflexivity. Qed.

(** ** The scan fetcher *)

(** C6. The fetcher runs the transfer once and answers by its exit status
    alone: the output path, which is the explicit one or else the base name of
    the URL, exactly when the status is zero, and [None] otherwise. *)
Theorem fetch_path_iff_status_zero run_process url output_path w :
  let out := match output_path with
             | Some p => p
             | None => Str.basename url
             end in
  let command := ["wget"; "-q"; url; "-O"; out] in
  let status := fst (run_process command (os.files w)) in
  let result := ingestion.run_wget run_process url output_path w in
  (fst result = Some out <-> status = 0)
  /\ (status <> 0 -> fst result = None)
  /\ os.spawned (snd result) = command :: os.spawned w
  /\ os.files (snd result) = snd (run_process command (os.files w)).
Proof.
  intros out command status result. subst result status.
  unfold ingestion.run_wget, ingestion.subprocess_run.
  fold out. fold command.
  destruct (run_process command (os.files w)) as [rc fs] eqn:E.
  cbn [fst snd].
  destruct (Z.eqb_spec rc 0) as [->|Hne]; cbn [fst snd os.spawned os.files].
  - repeat split; intros; congruence.
  - repeat split; intros; congruence.
Qed.

(** ** The request handler *)

Section Cleanup.

Import os backend.

(** Whatever the body does, the path handed to the cleanup is gone when the
    [try] statement is left. *)
Lemma try_finally_removes {A} (body : IO A) (path : string) (w : World) :
  path ∉ files (snd (try_finally body (remove path) w)).
Proof.
  unfold try_finally, remove.
  destruct (body w) as [r w1].
  destruct (bool_decide (path ∈ files w1)) eqn:E; cbn [snd files].
  - rewrite elem_of_difference, elem_of_singleton. tauto.
  - apply bool_decide_eq_false in E. exact E.
Qed.

(** The outcome of the [try] statement is the one of its body unless the
    cleanup raises. *)
Lemma try_finally_outcome {A} (body : IO A) (path : string) (w : World) :
  path ∈ files (snd (body w)) ->
  fst (try_finally body (remove path) w) = fst (body w).
Proof.
  unfold try_finally, remove.
  destruct (body w) as [r w1]. cbn [snd fst]. intros Hin.
  rewrite bool_decide_eq_true_2 by exact Hin. reflexivity.
Qed.

End Cleanup.

(** C8, as amended. Once the fetch has handed a local file to the handler,
    the file does not exist when the handler is left, whether the body of the
    [try] block returned the percentage, or the classifier or the loader
    raised. *)
Theorem artifact_removed_after_fetch
  ls now run_process open_dataset fromisoformat round2
  (w w1 : os.World) (latest path local_file : string) :
  ingestion.get_latest_goes_file ls now
    ingestion.default_product ingestion.default_satellite = Some latest ->
  truthy latest = true ->
  Str.split1_snd "/" latest = Ok path ->
  ingestion.run_wget run_process
    (backend.object_url (Str.before_first "/" latest) path) None w
  = (Some local_file, w1) ->
  truthy local_file = true ->
  let exit := backend.get_cloud_cover ls now run_process open_dataset
                fromisoformat round2 w in
  (local_file ∉ os.files (snd exit))
  /\ exit = os.try_finally
              (backend.process_file open_dataset fromisoformat round2
                 local_file path)
              (os.remove local_file) w1.
Proof.
  intros Hlatest Htl Hpath Hfetch Htf exit.
  assert (Hexit : exit = os.try_finally
            (backend.process_file open_dataset fromisoformat round2
               local_file path) (os.remove local_file) w1).
  { subst exit. unfold backend.get_cloud_cover.
    rewrite Hlatest, Htl. cbn [negb].
    unfold os.bind, os.lift. rewrite Hpath.
    rewrite Hfetch, Htf. reflexivity. }
  split; [|exact Hexit].
  rewrite Hexit. apply try_finally_removes.
Qed.

Lemma artifact_removed_after_fetch_witness :
  "OR_s1205.nc" ∉
    os.files (snd (backend.get_cloud_cover sample.ls_two sample.noon
                     sample.wget_ok sample.open_bright
                     datetime.fromisoformat_extended (fun x => x)
                     sample.empty_world)).
Proof.
  refine (proj1 (artifact_removed_after_fetch sample.ls_two sample.noon
    sample.wget_ok sample.open_bright datetime.fromisoformat_extended
    (fun x => x) sample.empty_world
    (os.mk_World {[ "OR_s1205.nc" ]}
       [["wget"; "-q";
         "https://noaa-goes19.s3.amazonaws.com/ABI-L2-MCMIPC/2025/080/12/OR_s1205.nc";
         "-O"; "OR_s1205.nc"]])
    "noaa-goes19/ABI-L2-MCMIPC/2025/080/12/OR_s1205.nc"
    "ABI-L2-MCMIPC/2025/080/12/OR_s1205.nc" "OR_s1205.nc" _ _ _ _ _)).
  - reflexivity.
  - reflexivity.
  - reflexivity.
  - vm_compute. reflexivity.
  - reflexivity.
Defined.

(** Without a listed object nothing is fetched and nothing changes. *)
Remark no_fetch_without_object
  ls now run_process open_dataset fromisoformat round2 (w : os.World) :
  ingestion.get_latest_goes_file ls now
    ingestion.default_product ingestion.default_satellite = None ->
  backend.get_cloud_cover ls now run_process open_dataset fromisoformat round2 w
  = (Ok (backend.Error "No recent GOES files found"), w).
Proof. intros H. unfold backend.get_cloud_cover. rewrite H. reflexivity. Qed.

(** C8, as the claim words it, fails on the exit after a fetch that was
    attempted and failed. Starting without any file, the handler runs the
    transfer, which leaves a truncated file behind and exits with status 4;
    the fetcher hands no file to the handler, which returns the download error
    before its [try] statement and removes nothing: the file that the
    transfer wrote exists when the call completes. *)
Lemma artifact_left_after_failed_fetch :
  let exit := backend.get_cloud_cover sample.ls_two sample.noon
                sample.wget_fail sample.open_bright
                datetime.fromisoformat_extended (fun x => x)
                sample.empty_world in
  os.files sample.empty_world = ∅
  /\ os.spawned (snd exit)
     = [["wget"; "-q";
         "https://noaa-goes19.s3.amazonaws.com/ABI-L2-MCMIPC/2025/080/12/OR_s1205.nc";
         "-O"; "OR_s1205.nc"]]
  /\ fst exit = Ok (backend.Error "Failed to download GOES file")
  /\ "OR_s1205.nc" ∈ os.files (snd exit).
Proof.
  cbv zeta. split; [reflexivity|]. split; [reflexivity|].
  split; [reflexivity|]. vm_compute. set_solver.
Qed.

(** ** The illumination decision *)

Section Illumination.

Import processing.

Variable fromisoformat : string -> Result datetime.t.

Lemma is_daytime_absent ds :
  xr.attrs ds !! "time_coverage_start" = None ->
  is_daytime fromisoformat ds = Ok true.
Proof. intros H. unfold is_daytime. rewrite H. reflexivity. Qed.

Lemma is_daytime_present ds stamp scan_start :
  xr.attrs ds !! "time_coverage_start" = Some stamp ->
  fromisoformat (Str.replace_char "Z" "+00:00" stamp) = Ok scan_start ->
  is_daytime fromisoformat ds
  = Ok ((6 <=? datetime.hour scan_start) && (datetime.hour scan_start <=? 18)).
Proof. intros H1 H2. unfold is_daytime. rewrite H1, H2. reflexivity. Qed.

Lemma is_daytime_malformed ds stamp e :
  xr.attrs ds !! "time_coverage_start" = Some stamp ->
  fromisoformat (Str.replace_char "Z" "+00:00" stamp) = Raise e ->
  is_daytime fromisoformat ds = Raise e.
Proof. intros H1 H2. unfold is_daytime. rewrite H1, H2. reflexivity. Qed.

(** On a reading of the UTC clock the hour field is the UTC hour. *)
Lemma utc_hour_of_utc_reading d :
  (datetime.utcoffset d = None \/ datetime.utcoffset d = Some 0) ->
  0 <= datetime.hour d < 24 -> 0 <= datetime.minute d < 60 ->
  datetime.utc_hour d = datetime.hour d.
Proof.
  intros Hoff Hh Hm. unfold datetime.utc_hour.
  assert (E : match datetime.utcoffset d with Some o => o | None => 0 end = 0)
    by (destruct Hoff as [-> | ->]; reflexivity).
  rewrite E, Z.sub_0_r.
  assert (Hq : (datetime.hour d * 60 + datetime.minute d) / 60 = datetime.hour d).
  { symmetry. apply (Z.div_unique _ 60 _ (datetime.minute d)); lia. }
  rewrite Hq. apply Z.mod_small. lia.
Qed.

(** For a scan stamped in UTC the decision is the rule on the UTC hour. *)
Lemma is_daytime_utc_stamp ds stamp scan_start :
  xr.attrs ds !! "time_coverage_start" = Some stamp ->
  fromisoformat (Str.replace_char "Z" "+00:00" stamp) = Ok scan_start ->
  (datetime.utcoffset scan_start = None \/ datetime.utcoffset scan_start = Some 0) ->
  0 <= datetime.hour scan_start < 24 -> 0 <= datetime.minute scan_start < 60 ->
  is_daytime fromisoformat ds
  = Ok ((6 <=? datetime.utc_hour scan_start) && (datetime.utc_hour scan_start <=? 18)).
Proof.
  intros H1 H2 Hoff Hh Hm.
  rewrite utc_hour_of_utc_reading by assumption.
  apply is_daytime_present with stamp; assumption.
Qed.

End Illumination.

(** C4. A scan stamped 20:00 at +05:00 was taken at 15:00 UTC, inside the
    daytime window, and [is_daytime] answers [False] for it: the test reads the
    hour field of the parsed timestamp, which is the wall-clock hour at the
    offset of the stamp. *)
Theorem is_daytime_reads_wall_clock_hour :
  exists scan_start,
    datetime.fromisoformat_extended
      (Str.replace_char "Z" "+00:00" "2025-03-21T20:00:00+05:00") = Ok scan_start
    /\ datetime.utc_hour scan_start = 15
    /\ datetime.hour scan_start = 20
    /\ processing.is_daytime datetime.fromisoformat_extended sample.stamped_east
       = Ok false.
Proof.
  eexists. split; [vm_compute; reflexivity|].
  repeat split; vm_compute; reflexivity.
Qed.

(** ** Percentages on sample scans *)

(** C3. On the day path a pixel whose IR value is NaN and whose visible
    reflectance is bright is counted as cloudy and not as valid: for the noon
    scan [bright_gap] the classifier returns 200, which is a number above
    100; the same bands at night give 0. *)
Theorem day_path_percent_above_100 :
  processing.calc_cloud_fraction datetime.fromisoformat_extended sample.bright_gap
  = Ok (F64.of_int 200)
  /\ F64.isnan (F64.of_int 200) = false
  /\ F64.leb (F64.of_int 200) (F64.of_int 100) = false
  /\ processing.is_daytime datetime.fromisoformat_extended sample.bright_gap
     = Ok true
  /\ processing.calc_cloud_fraction datetime.fromisoformat_extended
       sample.bright_gap_night
     = Ok (F64.of_int 0).
Proof. repeat split; vm_compute; reflexivity. Qed.

(** ** The day path, pixel by pixel *)

Section DayPath.

Import np spec processing.

Lemma collect_present ds t vis_bands : forall acc,
  collect_vis_masks ds t vis_bands acc = Ok (acc ++ present_masks ds t vis_bands)%list.
Proof.
  induction vis_bands as [|vb rest IH]; intros acc; cbn [collect_vis_masks present_masks].
  - rewrite app_nil_r. reflexivity.
  - destruct (xr.data_vars ds !! vb) as [a|] eqn:E.
    + rewrite (contains_present _ _ _ E), (getitem_present _ _ _ E). cbn.
      rewrite IH, <- app_assoc. reflexivity.
    + rewrite (contains_absent _ _ E). apply IH.
Qed.

Lemma present_masks_elem ds t vis_bands m :
  m ∈ present_masks ds t vis_bands <->
  exists vb a, present_vis ds vis_bands vb a /\ m = greater a t.
Proof.
  unfold present_vis. induction vis_bands as [|vb rest IH]; cbn [present_masks].
  - split; [intros H; inversion H|].
    intros (vb & a & [H _] & _). inversion H.
  - destruct (xr.data_vars ds !! vb) as [a|] eqn:E.
    + rewrite elem_of_cons, IH. split.
      * intros [->|(vb' & a' & [Hin Hl] & ->)].
        -- exists vb, a. repeat split; [left|exact E].
        -- exists vb', a'. repeat split; [right; exact Hin|exact Hl].
      * intros (vb' & a' & [Hin Hl] & ->).
        apply elem_of_cons in Hin as [->|Hin].
        -- left. congruence.
        -- right. exists vb', a'. repeat split; assumption.
    + rewrite IH. split.
      * intros (vb' & a' & [Hin Hl] & ->).
        exists vb', a'. repeat split; [right; exact Hin|exact Hl].
      * intros (vb' & a' & [Hin Hl] & ->).
        apply elem_of_cons in Hin as [->|Hin]; [congruence|].
        exists vb', a'. repeat split; assumption.
Qed.

Lemma zip_or_length l1 l2 :
  length l1 = length l2 -> length (zip_or l1 l2) = length l1.
Proof. intros H. unfold zip_or. rewrite length_zip_with. lia. Qed.

Lemma zip_or_lookup l1 l2 (i : nat) b1 b2 :
  l1 !! i = Some b1 -> l2 !! i = Some b2 ->
  zip_or l1 l2 !! i = Some (b1 || b2).
Proof.
  intros H1 H2. unfold zip_or. rewrite lookup_zip_with, H1. cbn. rewrite H2.
  reflexivity.
Qed.

(** The reduction of masks on one grid: the shape is kept and a pixel is set
    exactly when one of the masks sets it. *)
Lemma reduce_from_spec (ms : list (ndarray bool)) : forall acc,
  (forall m, m ∈ ms -> shape m = shape acc /\ length (flat m) = length (flat acc)) ->
  exists r,
    logical_or_reduce_from acc ms = Ok r
    /\ shape r = shape acc /\ length (flat r) = length (flat acc)
    /\ forall (i : nat) b, flat r !! i = Some b ->
         (b = true <-> flat acc !! i = Some true
                       \/ exists m, m ∈ ms /\ flat m !! i = Some true).
Proof.
  induction ms as [|m ms IH]; intros acc Hgrid.
  - exists acc. cbn. repeat split; try reflexivity.
    + intros ->. left. assumption.
    + intros [H'|(m & Hm & _)]; [congruence|inversion Hm].
  - destruct (Hgrid m) as [Hsh Hlen]; [left|].
    cbn [logical_or_reduce_from]. unfold shape_eqb.
    rewrite bool_decide_eq_true_2 by (symmetry; exact Hsh).
    destruct (IH (mk_ndarray bool_ (shape acc) (zip_or (flat acc) (flat m))))
      as (r & Hr & Hrs & Hrl & Hpix).
    { intros m' Hm'. cbn [shape flat].
      destruct (Hgrid m') as [H1 H2]; [right; exact Hm'|].
      rewrite zip_or_length by congruence. split; assumption. }
    cbn [shape flat] in Hrs, Hrl, Hpix.
    rewrite zip_or_length in Hrl by congruence.
    exists r. repeat split; try assumption.
    + intros ->. destruct (Hpix i true H) as [Hp _].
      destruct (Hp eq_refl) as [Hz|(m' & Hm' & Hl)].
      * unfold zip_or in Hz. rewrite lookup_zip_with in Hz.
        destruct (flat acc !! i) as [b1|] eqn:E1; [|discriminate].
        cbn in Hz. destruct (flat m !! i) as [b2|] eqn:E2; [|discriminate].
        cbn in Hz. injection Hz as Hz.
        destruct b1; [left; reflexivity|].
        simpl in Hz. subst b2. right. exists m. split; [left|exact E2].
      * right. exists m'. split; [right; exact Hm'|exact Hl].
    + intros Hor. destruct b; [reflexivity|exfalso].
      destruct (Hpix i false H) as [_ Hp].
      assert (Hi : (i < length (flat acc))%nat).
      { rewrite <- Hrl. apply lookup_lt_Some with false. exact H. }
      destruct (lookup_lt_is_Some_2 (flat acc) i Hi) as [b1 E1].
      assert (Hi2 : (i < length (flat m))%nat) by lia.
      destruct (lookup_lt_is_Some_2 (flat m) i Hi2) as [b2 E2].
      enough (false = true) by discriminate. apply Hp.
      destruct Hor as [Ha|(m' & Hm' & Hl)].
      * left. rewrite (zip_or_lookup _ _ _ _ _ E1 E2).
        rewrite Ha in E1. injection E1 as <-. reflexivity.
      * apply elem_of_cons in Hm' as [->|Hm'].
        -- left. rewrite (zip_or_lookup _ _ _ _ _ E1 E2).
           rewrite Hl in E2. injection E2 as <-.
           destruct b1; reflexivity.
        -- right. exists m'. split; assumption.
Qed.

End DayPath.

Section DayPathRule.

Import np spec processing.

Lemma less_lookup ir t (i : nat) b :
  flat (less ir t) !! i = Some b ->
  exists x, flat ir !! i = Some x /\ b = F64.ltb x (as_dtype (dtype_of ir) t).
Proof.
  unfold less, map_array. cbn [flat]. change map with (@fmap list _) at 1.
  rewrite list_lookup_fmap.
  destruct (flat ir !! i) as [x|]; [|discriminate].
  cbn. intros [= <-]. exists x. split; reflexivity.
Qed.

Lemma greater_lookup a t (i : nat) :
  flat (greater a t) !! i = Some true <->
  exists y, flat a !! i = Some y /\ F64.gtb y (as_dtype (dtype_of a) t) = true.
Proof.
  unfold greater, map_array. cbn [flat]. change map with (@fmap list _) at 1.
  rewrite list_lookup_fmap.
  destruct (flat a !! i) as [y|]; cbn.
  - split; [intros [= H]; exists y; split; [reflexivity|exact H]|].
    intros (y' & [= <-] & H). rewrite H. reflexivity.
  - split; [discriminate|]. intros (y' & H & _). discriminate H.
Qed.

Lemma combined_mask_rule ds ir vis_bands t1 t2 :
  common_grid ds vis_bands ir ->
  exists m,
    combined_mask ds ir vis_bands t1 t2 = Ok m
    /\ shape m = shape ir /\ length (flat m) = length (flat ir)
    /\ forall (i : nat) b, flat m !! i = Some b ->
         (b = true <-> cloudy_at ds vis_bands ir t1 t2 i).
Proof.
  intros Hgrid. unfold combined_mask.
  rewrite collect_present, result_bind_ok. cbn [app].
  assert (Hmasks : forall m, m ∈ present_masks ds t2 vis_bands ->
            shape m = shape ir /\ length (flat m) = length (flat ir)).
  { intros m Hm. apply present_masks_elem in Hm as (vb & a & Hp & ->).
    destruct (Hgrid vb a Hp) as [H1 H2].
    unfold greater, map_array. cbn [shape flat]. rewrite length_map. tauto. }
  assert (Hvis : forall i : nat,
            (exists m, m ∈ present_masks ds t2 vis_bands /\ flat m !! i = Some true)
            <-> exists vb a y, present_vis ds vis_bands vb a
                  /\ flat a !! i = Some y
                  /\ F64.gtb y (as_dtype (dtype_of a) t2) = true).
  { intros i. split.
    - intros (m & Hm & Hl). apply present_masks_elem in Hm as (vb & a & Hp & ->).
      apply greater_lookup in Hl as (y & Hy & Hg). exists vb, a, y. tauto.
    - intros (vb & a & y & Hp & Hy & Hg). exists (greater a t2). split.
      + apply present_masks_elem. exists vb, a. tauto.
      + apply greater_lookup. exists y. tauto. }
  destruct (present_masks ds t2 vis_bands) as [|m0 ms] eqn:E.
  - rewrite result_bind_ok, logical_or_zeros by reflexivity. exists (less ir t1).
    split; [reflexivity|]. split; [reflexivity|].
    split; [unfold less, map_array; cbn [flat]; apply length_map|].
    intros i b H. split.
    + intros ->. apply less_lookup in H as (x & Hx & Hb). left. exists x.
      split; [exact Hx|symmetry; exact Hb].
    + intros [(x & Hx & Hlt)|Hright].
      * apply less_lookup in H as (x' & Hx' & ->). congruence.
      * apply Hvis in Hright as (m & Hm & _). inversion Hm.
  - cbn [logical_or_reduce].
    destruct (reduce_from_spec ms m0) as (r & Hr & Hrs & Hrl & Hpix).
    { intros m Hm. destruct (Hmasks m0) as [A1 A2]; [left|].
      destruct (Hmasks m) as [B1 B2]; [right; exact Hm|]. split; congruence. }
    rewrite Hr, result_bind_ok.
    destruct (Hmasks m0) as [A1 A2]; [left|].
    unfold logical_or, shape_eqb.
    assert (Hshape : shape (less ir t1) = shape r)
      by (unfold less, map_array; cbn [shape]; congruence).
    rewrite bool_decide_eq_true_2 by exact Hshape.
    assert (Hlen : length (flat (less ir t1)) = length (flat r)).
    { unfold less, map_array. cbn [flat]. rewrite length_map. congruence. }
    eexists. split; [reflexivity|]. cbn [shape flat].
    rewrite zip_or_length by exact Hlen.
    split; [reflexivity|]. split.
    { unfold less, map_array. cbn [flat]. apply length_map. }
    intros i b Hb.
    assert (Hi : (i < length (flat (less ir t1)))%nat).
    { rewrite <- (zip_or_length _ (flat r)) by exact Hlen.
      apply lookup_lt_Some with b. exact Hb. }
    destruct (lookup_lt_is_Some_2 _ i Hi) as [b1 E1].
    assert (Hi2 : (i < length (flat r))%nat) by lia.
    destruct (lookup_lt_is_Some_2 _ i Hi2) as [b2 E2].
    rewrite (zip_or_lookup _ _ _ _ _ E1 E2) in Hb. injection Hb as <-.
    pose proof (Hpix i b2 E2) as Hb2.
    apply less_lookup in E1 as (x & Hx & ->).
    unfold cloudy_at. rewrite <- Hvis. rewrite orb_true_iff. split.
    + intros [Hlt| ->].
      * left. exists x. tauto.
      * right. destruct Hb2 as [Hb2 _]. destruct (Hb2 eq_refl) as [H0|(m & Hm & Hl)].
        -- exists m0. split; [left|exact H0].
        -- exists m. split; [right; exact Hm|exact Hl].
    + intros [(x' & Hx' & Hlt)|(m & Hm & Hl)].
      * left. congruence.
      * right. apply Hb2. apply elem_of_cons in Hm as [->|Hm].
        -- left. exact Hl.
        -- right. exists m. tauto.
Qed.

Lemma calc_multiband_counts ds ir_band vis_bands t1 t2 ir mask :
  xr.data_vars ds !! ir_band = Some ir ->
  combined_mask ds ir vis_bands t1 t2 = Ok mask ->
  length (flat mask) = length (flat ir) ->
  fits_index ir ->
  calc_cloud_fraction_multiband ds ir_band vis_bands t1 t2
  = Ok (percent (true_count (flat mask)) (valid_count ir)).
Proof.
  intros Hir Hmask Hlen Hfits. unfold calc_cloud_fraction_multiband.
  rewrite (getitem_present _ _ _ Hir), result_bind_ok, Hmask, result_bind_ok.
  rewrite sum_valid by exact Hfits.
  rewrite sum_true_count; [reflexivity|].
  unfold fits_index in *. rewrite Hlen. exact Hfits.
Qed.

End DayPathRule.

(** On float64 bands the thresholds are compared as they are. *)
Lemma cloudy_at_float64 ds vis_bands ir t1 t2 (i : nat) :
  np.dtype_of ir = np.float64 ->
  (forall vb a, spec.present_vis ds vis_bands vb a -> np.dtype_of a = np.float64) ->
  (spec.cloudy_at ds vis_bands ir t1 t2 i
   <-> spec.cloudy_at_worded ds vis_bands ir t1 t2 i).
Proof.
  intros Hir Hvis. unfold spec.cloudy_at, spec.cloudy_at_worded. rewrite Hir.
  cbn [np.as_dtype]. split.
  - intros [H|(vb & a & y & Hp & Hy & Hg)]; [left; exact H|right].
    exists vb, a, y. rewrite (Hvis vb a Hp) in Hg. tauto.
  - intros [H|(vb & a & y & Hp & Hy & Hg)]; [left; exact H|right].
    exists vb, a, y. rewrite (Hvis vb a Hp). tauto.
Qed.

(** C2, as amended. On a scan whose configured visible bands lie on the grid
    of the IR band, the day path marks a pixel cloudy exactly when its IR
    value is strictly below the IR threshold or a configured visible band of
    the scan exceeds the visible threshold there, each threshold being first
    converted to the dtype of the band it is compared with; on float64 bands
    that is the threshold itself. The percentage is taken from the marked
    pixels over the valid IR pixels; for IR [290, 270] with the visible band
    [0.1, 0.5] the mask is [False, True] and the result is 50. *)
Theorem multiband_pixel_rule :
  (forall ds ir_band vis_bands ir_threshold vis_threshold ir,
     xr.data_vars ds !! ir_band = Some ir ->
     spec.common_grid ds vis_bands ir ->
     spec.fits_index ir ->
     exists mask,
       processing.combined_mask ds ir vis_bands ir_threshold vis_threshold = Ok mask
       /\ np.shape mask = np.shape ir
       /\ length (np.flat mask) = length (np.flat ir)
       /\ (forall (i : nat) b, np.flat mask !! i = Some b ->
             (b = true <->
              spec.cloudy_at ds vis_bands ir ir_threshold vis_threshold i))
       /\ (np.dtype_of ir = np.float64 ->
           (forall vb a, spec.present_vis ds vis_bands vb a ->
              np.dtype_of a = np.float64) ->
           forall (i : nat) b, np.flat mask !! i = Some b ->
             (b = true <->
              spec.cloudy_at_worded ds vis_bands ir ir_threshold vis_threshold i))
       /\ processing.calc_cloud_fraction_multiband ds ir_band vis_bands
            ir_threshold vis_threshold
          = Ok (processing.percent (spec.true_count (np.flat mask))
                  (spec.valid_count ir)))
  /\ processing.combined_mask sample.day_pair
       (sample.row [sample.f 290; sample.f 270]) processing.default_vis_bands
       processing.default_ir_threshold processing.default_vis_threshold
     = Ok (np.mk_ndarray np.bool_ [1%nat; 2%nat] [false; true])
  /\ processing.calc_cloud_fraction_multiband sample.day_pair
       processing.default_ir_band processing.default_vis_bands
       processing.default_ir_threshold processing.default_vis_threshold
     = Ok (F64.of_int 50).
Proof.
  split; [|split; vm_compute; reflexivity].
  intros ds ir_band vis_bands t1 t2 ir Hir Hgrid Hfits.
  destruct (combined_mask_rule ds ir vis_bands t1 t2 Hgrid)
    as (mask & Hmask & Hshape & Hlen & Hrule).
  exists mask. split; [exact Hmask|]. split; [exact Hshape|].
  split; [exact Hlen|]. split; [exact Hrule|]. split.
  - intros H64 Hvis i b Hb.
    rewrite <- (cloudy_at_float64 ds vis_bands ir t1 t2 i H64 Hvis).
    apply Hrule. exact Hb.
  - apply calc_multiband_counts; assumption.
Qed.

Lemma multiband_pixel_rule_witness :
  exists mask,
    processing.combined_mask sample.edge32
      (sample.row32 [sample.f 290; sample.f 290]) processing.default_vis_bands
      processing.default_ir_threshold processing.default_vis_threshold = Ok mask
    /\ np.shape mask = [1%nat; 2%nat]
    /\ length (np.flat mask) = 2%nat
    /\ (forall (i : nat) b, np.flat mask !! i = Some b ->
          (b = true <->
           spec.cloudy_at sample.edge32 processing.default_vis_bands
             (sample.row32 [sample.f 290; sample.f 290])
             processing.default_ir_threshold processing.default_vis_threshold i))
    /\ (np.float32 = np.float64 ->
        (forall vb a, spec.present_vis sample.edge32 processing.default_vis_bands
                        vb a -> np.dtype_of a = np.float64) ->
        forall (i : nat) b, np.flat mask !! i = Some b ->
          (b = true <->
           spec.cloudy_at_worded sample.edge32 processing.default_vis_bands
             (sample.row32 [sample.f 290; sample.f 290])
             processing.default_ir_threshold processing.default_vis_threshold i))
    /\ processing.calc_cloud_fraction_multiband sample.edge32
         processing.default_ir_band processing.default_vis_bands
         processing.default_ir_threshold processing.default_vis_threshold
       = Ok (processing.percent (spec.true_count (np.flat mask))
               (spec.valid_count (sample.row32 [sample.f 290; sample.f 290]))).
Proof.
  apply (proj1 multiband_pixel_rule sample.edge32 processing.default_ir_band
           processing.default_vis_bands processing.default_ir_threshold
           processing.default_vis_threshold
           (sample.row32 [sample.f 290; sample.f 290])).
  - reflexivity.
  - intros vb a [Hin Hl].
    apply list_elem_of_In in Hin. simpl in Hin.
    destruct Hin as [<-|[<-|[]]]; vm_compute in Hl.
    + injection Hl as <-. split; reflexivity.
    + discriminate Hl.
  - vm_compute. reflexivity.
Defined.

(** C2, as the claim words it, fails on float32 bands. The first pixel of the
    visible band of [edge32] holds the float32 nearest to 0.3, which is
    0.300000011920929 and exceeds the threshold 0.3, so the worded rule marks
    the pixel; numpy compares it in float32 with the float32 nearest to 0.3,
    that is with itself, and the code leaves the pixel unmarked and returns
    0. *)
Lemma multiband_pixel_rule_float32_edge :
  let ir := sample.row32 [sample.f 290; sample.f 290] in
  let vis := sample.row32 [F64.dec 3 10; F64.dec 1 10] in
  xr.data_vars sample.edge32 !! "CMI_C13" = Some ir
  /\ xr.data_vars sample.edge32 !! "CMI_C02" = Some vis
  /\ spec.in_dtype ir /\ spec.in_dtype vis
  /\ np.flat vis !! 0%nat = Some (F32.of_f64 (F64.dec 3 10))
  /\ F64.gtb (F32.of_f64 (F64.dec 3 10)) processing.default_vis_threshold = true
  /\ spec.cloudy_at_worded sample.edge32 processing.default_vis_bands ir
       processing.default_ir_threshold processing.default_vis_threshold 0
  /\ processing.combined_mask sample.edge32 ir processing.default_vis_bands
       processing.default_ir_threshold processing.default_vis_threshold
     = Ok (np.mk_ndarray np.bool_ [1%nat; 2%nat] [false; false])
  /\ processing.calc_cloud_fraction_multiband sample.edge32
       processing.default_ir_band processing.default_vis_bands
       processing.default_ir_threshold processing.default_vis_threshold
     = Ok (F64.of_int 0).
Proof.
  cbv zeta.
  split; [reflexivity|]. split; [reflexivity|].
  split; [intros _; repeat constructor|].
  split; [intros _; repeat constructor|].
  split; [reflexivity|]. split; [vm_compute; reflexivity|].
  split; [|split; vm_compute; reflexivity].
  right. exists "CMI_C02", (sample.row32 [F64.dec 3 10; F64.dec 1 10]),
    (F32.of_f64 (F64.dec 3 10)).
  split; [split; [unfold processing.default_vis_bands; left|reflexivity]|].
  split; [reflexivity|]. vm_compute. reflexivity.
Qed.

(** ** Rounding in binary64 *)

Section Binary64.

Import Rounding.

Lemma code_shr_1 mrs : 0 <= shr_m mrs ->
  code (shr_1 mrs) = sh1 (code mrs) /\ 0 <= shr_m (shr_1 mrs).
Proof.
  destruct mrs as [m r s]. cbn [shr_m]. intros Hm.
  unfold sh1, code.
  destruct m as [|p|p]; [| |lia].
  - destruct r, s; cbn; split; try reflexivity; lia.
  - destruct p as [p|p|]; destruct r, s; cbn [shr_1 shr_m shr_r shr_s orb Z.b2z];
      (split; [|lia]).
    all: try (rewrite Pos2Z.inj_xI).
    all: try (rewrite Pos2Z.inj_xO).
    all: cbn [Z.b2z];
      match goal with |- context [?a =? 1] =>
        destruct (Z.eqb_spec a 1) as [E|E]; revert E end;
      Z.div_mod_to_equations; lia.
Qed.

Lemma iter_pos_nat {A} (f : A -> A) (p : positive) (x : A) :
  SpecFloat.iter_pos f p x = Nat.iter (Pos.to_nat p) f x.
Proof.
  revert x. induction p as [p IH|p IH|]; intros x; cbn [SpecFloat.iter_pos].
  - rewrite !IH, Pos2Nat.inj_xI.
    replace (S (2 * Pos.to_nat p)) with (Pos.to_nat p + S (Pos.to_nat p))%nat by lia.
    rewrite Nat.iter_add, Nat.iter_succ_r. reflexivity.
  - rewrite !IH, Pos2Nat.inj_xO.
    replace (2 * Pos.to_nat p)%nat with (Pos.to_nat p + Pos.to_nat p)%nat by lia.
    rewrite Nat.iter_add. reflexivity.
  - reflexivity.
Qed.

Lemma code_iter_shr_1 (n : nat) : forall mrs, 0 <= shr_m mrs ->
  code (Nat.iter n shr_1 mrs) = shn n (code mrs)
  /\ 0 <= shr_m (Nat.iter n shr_1 mrs).
Proof.
  induction n as [|n IH]; intros mrs Hm.
  - split; [reflexivity|exact Hm].
  - destruct (IH mrs Hm) as [IH1 IH2].
    destruct (code_shr_1 _ IH2) as [H1 H2].
    change (Nat.iter (S n) shr_1 mrs) with (shr_1 (Nat.iter n shr_1 mrs)).
    change (shn (S n) (code mrs)) with (sh1 (shn n (code mrs))).
    rewrite H1, IH1. split; [reflexivity|exact H2].
Qed.

Lemma code_of_loc m l : code (shr_record_of_loc m l) = 4 * m + loc_code l.
Proof.
  unfold code.
  destruct l as [|[]]; cbn [shr_record_of_loc shr_m shr_r shr_s Z.b2z loc_code]; lia.
Qed.

Lemma shr_m_of_loc m l : shr_m (shr_record_of_loc m l) = m.
Proof. destruct l as [|[]]; reflexivity. Qed.

Lemma shr_m_code mrs : shr_m mrs = code mrs / 4.
Proof.
  unfold code. destruct mrs as [m [] []]; cbn [shr_m shr_r shr_s Z.b2z];
    Z.div_mod_to_equations; lia.
Qed.

Lemma rne_of_record mrs :
  round_nearest_even (shr_m mrs) (loc_of_shr_record mrs) = rne (code mrs).
Proof.
  unfold rne, code.
  destruct mrs as [m [] []]; cbn [shr_m shr_r shr_s Z.b2z loc_of_shr_record round_nearest_even].
  all: match goal with |- context [?a mod 4] =>
         assert (Hq : a / 4 = m) by (Z.div_mod_to_equations; lia);
         assert (Hr : a mod 4 = a - 4 * m) by (Z.div_mod_to_equations; lia);
         rewrite Hq, Hr end.
  all: repeat match goal with |- context [?a <=? ?b] =>
         destruct (Z.leb_spec a b); try lia end.
  all: repeat match goal with |- context [?a =? ?b] =>
         destruct (Z.eqb_spec a b); try lia end.
  all: reflexivity.
Qed.

(** Arithmetic of [sh1], [shn] and [rne]. *)

Lemma sh1_nonneg k : 0 <= k -> 0 <= sh1 k.
Proof.
  intros H. unfold sh1. destruct (Z.eqb_spec (k mod 4) 1);
    Z.div_mod_to_equations; lia.
Qed.

Lemma sh1_mono k1 k2 : k1 <= k2 -> sh1 k1 <= sh1 k2.
Proof.
  intros H. unfold sh1.
  destruct (Z.eqb_spec (k1 mod 4) 1) as [E1|E1];
    destruct (Z.eqb_spec (k2 mod 4) 1) as [E2|E2]; revert E1 E2;
    Z.div_mod_to_equations; lia.
Qed.

Lemma sh1_div4 k : sh1 k / 4 = k / 4 / 2.
Proof.
  unfold sh1. destruct (Z.eqb_spec (k mod 4) 1) as [E|E]; revert E;
    Z.div_mod_to_equations; lia.
Qed.

Lemma sh1_exact j : sh1 (4 * (2 * j)) = 4 * j.
Proof.
  unfold sh1. destruct (Z.eqb_spec ((4 * (2 * j)) mod 4) 1) as [E|E]; revert E;
    Z.div_mod_to_equations; lia.
Qed.

Lemma shn_S n k : shn (S n) k = sh1 (shn n k).
Proof. reflexivity. Qed.

Lemma shn_nonneg n k : 0 <= k -> 0 <= shn n k.
Proof.
  intros H. induction n as [|n IH]; [exact H|].
  rewrite shn_S. apply sh1_nonneg. exact IH.
Qed.

Lemma shn_mono n k1 k2 : k1 <= k2 -> shn n k1 <= shn n k2.
Proof.
  intros H. induction n as [|n IH]; [exact H|].
  rewrite !shn_S. apply sh1_mono. exact IH.
Qed.

Lemma shn_div4 n k : shn n k / 4 = k / 4 / 2 ^ Z.of_nat n.
Proof.
  induction n as [|n IH].
  - cbn. rewrite Z.div_1_r. reflexivity.
  - rewrite shn_S, sh1_div4, IH.
    assert (Hp : 0 < 2 ^ Z.of_nat n) by (apply Z.pow_pos_nonneg; lia).
    rewrite (Z.div_div (k / 4) (2 ^ Z.of_nat n) 2) by lia.
    rewrite Nat2Z.inj_succ, Z.pow_succ_r by lia.
    f_equal. lia.
Qed.

Lemma shn_exact n j : shn n (4 * (j * 2 ^ Z.of_nat n)) = 4 * j.
Proof.
  revert j. induction n as [|n IH]; intros j.
  - change (shn 0 (4 * (j * 2 ^ Z.of_nat 0))) with (4 * (j * 1)). lia.
  - rewrite shn_S.
    rewrite Nat2Z.inj_succ, Z.pow_succ_r by lia.
    replace (4 * (j * (2 * 2 ^ Z.of_nat n))) with (4 * ((2 * j) * 2 ^ Z.of_nat n)) by lia.
    rewrite IH. apply sh1_exact.
Qed.

Lemma rne_bounds k : k / 4 <= rne k <= k / 4 + 1.
Proof.
  unfold rne.
  destruct (Z.leb_spec (k mod 4) 1); [lia|].
  destruct (Z.eqb_spec (k mod 4) 2); [|lia].
  destruct (Z.even (k / 4)); lia.
Qed.

Lemma rne_exact j : rne (4 * j) = j.
Proof.
  unfold rne.
  assert (H1 : (4 * j) mod 4 = 0) by (Z.div_mod_to_equations; lia).
  assert (H2 : 4 * j / 4 = j) by (Z.div_mod_to_equations; lia).
  rewrite H1, H2. reflexivity.
Qed.

Lemma rne_mono k1 k2 : k1 <= k2 -> rne k1 <= rne k2.
Proof.
  intros H.
  destruct (Z.eq_dec (k1 / 4) (k2 / 4)) as [E|E].
  - unfold rne. rewrite <- E.
    assert (Hm : k1 mod 4 <= k2 mod 4) by (revert E; Z.div_mod_to_equations; lia).
    assert (B1 : 0 <= k1 mod 4 < 4) by (apply Z.mod_pos_bound; lia).
    assert (B2 : 0 <= k2 mod 4 < 4) by (apply Z.mod_pos_bound; lia).
    destruct (Z.leb_spec (k1 mod 4) 1); destruct (Z.leb_spec (k2 mod 4) 1); try lia;
      destruct (Z.eqb_spec (k1 mod 4) 2); destruct (Z.eqb_spec (k2 mod 4) 2); try lia;
      destruct (Z.even (k1 / 4)); lia.
  - pose proof (rne_bounds k1). pose proof (rne_bounds k2).
    assert (k1 / 4 < k2 / 4) by (revert E; Z.div_mod_to_equations; lia).
    lia.
Qed.

(** Binary digits. *)

Lemma digits2_pos_spec p :
  2 ^ (Zpos (digits2_pos p) - 1) <= Zpos p < 2 ^ Zpos (digits2_pos p).
Proof.
  induction p as [p IH|p IH|]; cbn [digits2_pos].
  - rewrite Pos2Z.inj_succ. change (Zpos p~1) with (2 * Zpos p + 1).
    replace (Z.succ (Zpos (digits2_pos p)) - 1) with (Z.succ (Zpos (digits2_pos p) - 1)) by lia.
    rewrite !Z.pow_succ_r by lia. lia.
  - rewrite Pos2Z.inj_succ. change (Zpos p~0) with (2 * Zpos p).
    replace (Z.succ (Zpos (digits2_pos p)) - 1) with (Z.succ (Zpos (digits2_pos p) - 1)) by lia.
    rewrite !Z.pow_succ_r by lia. lia.
  - cbn. lia.
Qed.

Lemma Zdigits2_spec m : 0 < m ->
  1 <= Zdigits2 m /\ 2 ^ (Zdigits2 m - 1) <= m < 2 ^ Zdigits2 m.
Proof.
  destruct m as [|p|p]; try lia. intros _. cbn [Zdigits2].
  split; [lia|apply digits2_pos_spec].
Qed.

Lemma Zdigits2_unique m k :
  0 < k -> 2 ^ (k - 1) <= m < 2 ^ k -> Zdigits2 m = k.
Proof.
  intros Hk [Hlo Hhi].
  assert (Hm : 0 < m).
  { assert (0 < 2 ^ (k - 1)) by (apply Z.pow_pos_nonneg; lia). lia. }
  destruct (Zdigits2_spec m Hm) as [Hd [Dlo Dhi]].
  destruct (Z.lt_trichotomy (Zdigits2 m) k) as [H|[H|H]]; [|exact H|].
  - assert (2 ^ Zdigits2 m <= 2 ^ (k - 1)) by (apply Z.pow_le_mono_r; lia). lia.
  - assert (2 ^ k <= 2 ^ (Zdigits2 m - 1)) by (apply Z.pow_le_mono_r; lia). lia.
Qed.

Lemma Zdigits2_0 : Zdigits2 0 = 0.
Proof. reflexivity. Qed.

(** The shifts of [shr] on codes. *)

Lemma shr_code mrs e n :
  0 <= shr_m mrs -> 0 <= n ->
  code (fst (shr mrs e n)) = shn (Z.to_nat n) (code mrs)
  /\ snd (shr mrs e n) = e + n
  /\ 0 <= shr_m (fst (shr mrs e n)).
Proof.
  intros Hm Hn. destruct n as [|p|p]; [| |lia]; cbn [shr fst snd].
  - repeat split; [lia|exact Hm].
  - rewrite iter_pos_nat. rewrite Z2Nat.inj_pos.
    destruct (code_iter_shr_1 (Pos.to_nat p) mrs Hm) as [H1 H2].
    repeat split; assumption.
Qed.

Lemma shr_noop mrs e n : n <= 0 -> shr mrs e n = (mrs, e).
Proof. intros Hn. destruct n as [|p|p]; [reflexivity|lia|reflexivity]. Qed.

Lemma fexp64 e : fexp 53 1024 e = Z.max (e - 53) (-1074).
Proof. reflexivity. Qed.

(** The result of [binary_round_aux] in binary64, read off the code of the
    exact value. *)
Lemma bra_char sx mx ex lx :
  0 <= mx ->
  let e1 := fexp 53 1024 (Zdigits2 mx + ex) in
  ex <= e1 ->
  let m1 := rne (shn (Z.to_nat (e1 - ex)) (4 * mx + loc_code lx)) in
  0 <= m1 <= 2 ^ 53 /\
  binary_round_aux 53 1024 sx mx ex lx =
    if m1 =? 0 then S754_zero sx
    else if m1 =? 2 ^ 53
      then (if e1 + 1 <=? 971 then S754_finite sx (Z.to_pos (2 ^ 52)) (e1 + 1)
            else S754_infinity sx)
      else (if e1 <=? 971 then S754_finite sx (Z.to_pos m1) e1
            else S754_infinity sx).
Proof.
  intros Hmx e1 He1 m1.
  assert (Hemin : -1074 <= e1) by (subst e1; rewrite fexp64; lia).
  assert (Hlc : 0 <= loc_code lx <= 3) by (destruct lx as [|[]]; cbn; lia).
  assert (Hk0 : 0 <= 4 * mx + loc_code lx) by lia.
  pose proof (shn_nonneg (Z.to_nat (e1 - ex)) _ Hk0) as Hk1.
  pose proof (rne_bounds (shn (Z.to_nat (e1 - ex)) (4 * mx + loc_code lx))) as Hb.
  fold m1 in Hb.
  rewrite shn_div4 in Hb. rewrite Z2Nat.id in Hb by lia.
  assert (Hq : (4 * mx + loc_code lx) / 4 = mx) by (Z.div_mod_to_equations; lia).
  rewrite Hq in Hb.
  assert (Hp : 0 < 2 ^ (e1 - ex)) by (apply Z.pow_pos_nonneg; lia).
  assert (Hdiv : 0 <= mx / 2 ^ (e1 - ex) < 2 ^ 53).
  { split; [apply Z.div_pos; lia|].
    apply Z.div_lt_upper_bound; [lia|].
    destruct (Z.eq_dec mx 0) as [->|Hne].
    { assert (0 < 2 ^ 53) by (apply Z.pow_pos_nonneg; lia). lia. }
    destruct (Zdigits2_spec mx ltac:(lia)) as [Hd [_ Hhi]].
    rewrite <- Z.pow_add_r by lia.
    assert (2 ^ Zdigits2 mx <= 2 ^ (e1 - ex + 53)).
    { apply Z.pow_le_mono_r; [lia|]. subst e1. rewrite fexp64. lia. }
    lia. }
  assert (Hm1 : 0 <= m1 <= 2 ^ 53) by lia.
  split; [exact Hm1|].
  unfold binary_round_aux, shr_fexp.
  fold e1.
  pose proof (shr_code (shr_record_of_loc mx lx) ex (e1 - ex)) as Hs.
  rewrite shr_m_of_loc, code_of_loc in Hs.
  specialize (Hs Hmx ltac:(lia)).
  destruct (shr (shr_record_of_loc mx lx) ex (e1 - ex)) as [mrs' e'].
  cbn [fst snd] in Hs. destruct Hs as (Hc & He' & Hm').
  rewrite rne_of_record, Hc. fold m1.
  replace e' with e1 by lia.
  destruct (Z.eqb_spec m1 0) as [E0|E0].
  - rewrite E0, Zdigits2_0. rewrite shr_noop by (rewrite fexp64; lia).
    reflexivity.
  - destruct (Z.eqb_spec m1 (2 ^ 53)) as [E1|E1].
    + rewrite E1.
      assert (Hd : Zdigits2 (2 ^ 53) = 54) by reflexivity.
      rewrite Hd.
      assert (Hsh : fexp 53 1024 (54 + e1) - e1 = 1) by (rewrite fexp64; lia).
      rewrite Hsh. cbn [shr shr_record_of_loc SpecFloat.iter_pos].
      reflexivity.
    + assert (Hd : Zdigits2 m1 <= 53).
      { destruct (Zdigits2_spec m1 ltac:(lia)) as [Hd [Hlo _]].
        destruct (Z.le_gt_cases (Zdigits2 m1) 53) as [H|H]; [exact H|].
        assert (2 ^ 53 <= 2 ^ (Zdigits2 m1 - 1)) by (apply Z.pow_le_mono_r; lia).
        lia. }
      rewrite shr_noop by (rewrite fexp64; lia).
      cbn [shr_record_of_loc shr_m].
      destruct m1 as [|p|p]; [lia| |lia].
      reflexivity.
Qed.

(** Positive finite floats and their order. *)

Lemma SFleb_nf m1 e1 m2 e2 :
  0 < m1 -> 0 < m2 ->
  (e1 < e2 \/ (e1 = e2 /\ m1 <= m2)) ->
  SFleb (nf m1 e1) (nf m2 e2) = true.
Proof.
  intros H1 H2 H. unfold nf, SFleb, SFcompare.
  destruct (Z.compare_spec e1 e2) as [E|E|E]; [|reflexivity|lia].
  change (Pos.compare_cont Eq (Z.to_pos m1) (Z.to_pos m2))
    with (Pos.compare (Z.to_pos m1) (Z.to_pos m2)).
  destruct (Pos.compare_spec (Z.to_pos m1) (Z.to_pos m2)) as [C|C|C];
    try reflexivity.
  apply Pos2Z.pos_lt_pos in C. rewrite !Z2Pos.id in C by lia. lia.
Qed.

Lemma bra_normal sx mx ex lx :
  0 < mx ->
  let d := Zdigits2 mx in
  53 <= d -> -1074 <= d + ex - 53 -> d + ex - 53 < 971 ->
  let e1 := d + ex - 53 in
  let m1 := rne (shn (Z.to_nat (d - 53)) (4 * mx + loc_code lx)) in
  mx / 2 ^ (d - 53) <= m1 <= mx / 2 ^ (d - 53) + 1
  /\ 2 ^ 52 <= mx / 2 ^ (d - 53) < 2 ^ 53
  /\ binary_round_aux 53 1024 sx mx ex lx =
     if m1 =? 2 ^ 53 then S754_finite sx (Z.to_pos (2 ^ 52)) (e1 + 1)
     else S754_finite sx (Z.to_pos m1) e1.
Proof.
  intros Hmx d Hd Hlo Hhi e1 m1.
  assert (Hf : fexp 53 1024 (Zdigits2 mx + ex) = e1).
  { rewrite fexp64. fold d. subst e1. lia. }
  destruct (bra_char sx mx ex lx ltac:(lia)) as [Hm1 Hres].
  { rewrite Hf. subst e1. lia. }
  rewrite Hf in Hres, Hm1.
  replace (e1 - ex) with (d - 53) in Hres, Hm1 by (subst e1; lia).
  fold m1 in Hres, Hm1.
  pose proof (rne_bounds (shn (Z.to_nat (d - 53)) (4 * mx + loc_code lx))) as Hb.
  fold m1 in Hb. rewrite shn_div4, Z2Nat.id in Hb by lia.
  assert (Hlc : 0 <= loc_code lx <= 3) by (destruct lx as [|[]]; cbn; lia).
  assert (Hq : (4 * mx + loc_code lx) / 4 = mx) by (Z.div_mod_to_equations; lia).
  rewrite Hq in Hb.
  destruct (Zdigits2_spec mx Hmx) as [_ [Dlo Dhi]]. fold d in Dlo, Dhi.
  assert (Hp : 0 < 2 ^ (d - 53)) by (apply Z.pow_pos_nonneg; lia).
  assert (Hm' : 2 ^ 52 <= mx / 2 ^ (d - 53) < 2 ^ 53).
  { split.
    - apply Z.div_le_lower_bound; [lia|].
      rewrite <- Z.pow_add_r by lia.
      replace (d - 53 + 52) with (d - 1) by lia. exact Dlo.
    - apply Z.div_lt_upper_bound; [lia|].
      rewrite <- Z.pow_add_r by lia.
      replace (d - 53 + 53) with d by lia. exact Dhi. }
  split; [exact Hb|]. split; [exact Hm'|].
  rewrite Hres.
  assert (H52 : 0 < 2 ^ 52) by (apply Z.pow_pos_nonneg; lia).
  destruct (Z.eqb_spec m1 0) as [E0|E0]; [lia|].
  destruct (Z.eqb_spec m1 (2 ^ 53)) as [E1|E1].
  - destruct (Z.leb_spec (e1 + 1) 971); [reflexivity|lia].
  - destruct (Z.leb_spec e1 971); [reflexivity|lia].
Qed.

Lemma pos_iter_xO (m k : positive) :
  Zpos (Pos.iter xO m k) = Zpos m * 2 ^ Zpos k.
Proof.
  induction k as [|k IH] using Pos.peano_ind.
  - cbn [Pos.iter]. change (Zpos m~0) with (2 * Zpos m). lia.
  - rewrite Pos.iter_succ, Pos2Z.inj_succ, Z.pow_succ_r by lia.
    change (Zpos (Pos.iter xO m k)~0) with (2 * Zpos (Pos.iter xO m k)).
    rewrite IH. lia.
Qed.

Lemma Zdigits2_mono a b : 0 < a -> a <= b -> Zdigits2 a <= Zdigits2 b.
Proof.
  intros Ha Hab.
  destruct (Zdigits2_spec a Ha) as [Ha1 [Alo _]].
  destruct (Zdigits2_spec b ltac:(lia)) as [Hb1 [_ Bhi]].
  destruct (Z.le_gt_cases (Zdigits2 a) (Zdigits2 b)) as [H|H]; [exact H|].
  assert (2 ^ Zdigits2 b <= 2 ^ (Zdigits2 a - 1)) by (apply Z.pow_le_mono_r; lia).
  lia.
Qed.

Lemma of_int_char n :
  0 < n < 2 ^ 63 ->
  2 ^ 52 <= int_mantissa n <= 2 ^ 53
  /\ F64.of_int n = renorm (int_mantissa n) (Zdigits2 n - 53).
Proof.
  intros [Hn Hhi].
  destruct (Zdigits2_spec n Hn) as [Hd1 [Dlo Dhi]].
  assert (Hd63 : Zdigits2 n <= 63).
  { destruct (Z.le_gt_cases (Zdigits2 n) 63) as [H|H]; [exact H|].
    assert (2 ^ 63 <= 2 ^ (Zdigits2 n - 1)) by (apply Z.pow_le_mono_r; lia). lia. }
  unfold F64.of_int, F64.prec, F64.emax, binary_normalize, int_mantissa, renorm.
  destruct n as [|p|p]; try lia.
  unfold binary_round.
  change (Zpos (digits2_pos p)) with (Zdigits2 (Zpos p)).
  set (d := Zdigits2 (Zpos p)) in *.
  rewrite Z.add_0_r, fexp64.
  replace (Z.max (d - 53) (-1074)) with (d - 53) by lia.
  unfold shl_align. rewrite Z.sub_0_r.
  destruct (Z.leb_spec d 53) as [Hle|Hgt].
  - (* at most 53 bits: the mantissa is shifted left, nothing is rounded *)
    assert (Hmz : exists mz, (match d - 53 with
                      | Z.neg dd => (Pos.iter xO p dd, d - 53)
                      | _ => (p, 0)
                      end) = (mz, d - 53) /\ Zpos mz = Zpos p * 2 ^ (53 - d)).
    { destruct (d - 53) as [|q|q] eqn:E; try lia.
      - exists p. split; [reflexivity|].
        replace (53 - d) with 0 by lia. lia.
      - exists (Pos.iter xO p q). split; [reflexivity|].
        rewrite pos_iter_xO. f_equal. f_equal. lia. }
    destruct Hmz as (mz & -> & Hmz).
    assert (Hp2 : 0 < 2 ^ (53 - d)) by (apply Z.pow_pos_nonneg; lia).
    assert (Hdz : Zdigits2 (Zpos mz) = 53).
    { apply Zdigits2_unique; [lia|]. rewrite Hmz. split.
      - replace (53 - 1) with ((d - 1) + (53 - d)) by lia.
        rewrite Z.pow_add_r by lia. nia.
      - replace (2 ^ 53) with (2 ^ (d + (53 - d))) by (f_equal; lia).
        rewrite Z.pow_add_r by lia. nia. }
    destruct (bra_normal false (Zpos mz) (d - 53) loc_Exact ltac:(lia)) as (Hb & Hm' & Hres);
      rewrite ?Hdz; try lia.
    rewrite Hdz in Hres, Hb, Hm'. cbn [loc_code] in Hres.
    replace (53 - 53) with 0 in * by lia.
    change (shn (Z.to_nat 0) (4 * Zpos mz + 0)) with (4 * Zpos mz + 0) in Hres.
    rewrite Z.add_0_r, rne_exact in Hres.
    change (2 ^ 0) with 1 in Hm'. rewrite Z.div_1_r in Hm'.
    rewrite Hres, <- Hmz.
    split; [lia|].
    destruct (Z.eqb_spec (Zpos mz) (2 ^ 53)); [lia|].
    unfold nf. f_equal. lia.
  - (* more than 53 bits: the low bits are rounded away *)
    assert (Hsh : (match d - 53 with
                   | Z.neg dd => (Pos.iter xO p dd, d - 53)
                   | _ => (p, 0)
                   end) = (p, 0)).
    { destruct (d - 53) as [|q|q] eqn:E; try lia; reflexivity. }
    rewrite Hsh.
    destruct (bra_normal false (Zpos p) 0 loc_Exact ltac:(lia)) as (Hb & Hm' & Hres);
      fold d; try lia.
    fold d in Hres, Hb, Hm'. cbn [loc_code] in Hres, Hb.
    rewrite Z.add_0_r in Hres, Hb.
    rewrite Hres. split; [lia|].
    replace (d + 0 - 53) with (d - 53) by lia.
    unfold nf. reflexivity.
Qed.

Lemma renorm_carry m1 e1 :
  renorm m1 e1 = nf (fst (carry m1 e1)) (snd (carry m1 e1)).
Proof. unfold renorm, carry. destruct (m1 =? 2 ^ 53); reflexivity. Qed.

Lemma carry_range m1 e1 :
  2 ^ 52 <= m1 <= 2 ^ 53 ->
  2 ^ 52 <= fst (carry m1 e1) < 2 ^ 53
  /\ e1 <= snd (carry m1 e1) <= e1 + 1
  /\ (snd (carry m1 e1) = e1 + 1 -> fst (carry m1 e1) = 2 ^ 52).
Proof.
  intros H. unfold carry.
  destruct (Z.eqb_spec m1 (2 ^ 53)); cbn [fst snd]; lia.
Qed.

Lemma carry_mono m1 e1 m2 e2 :
  2 ^ 52 <= m1 <= 2 ^ 53 -> 2 ^ 52 <= m2 <= 2 ^ 53 ->
  nf_le (m1, e1) (m2, e2) -> nf_le (carry m1 e1) (carry m2 e2).
Proof.
  intros H1 H2. unfold nf_le, carry. cbn [fst snd].
  destruct (Z.eqb_spec m1 (2 ^ 53)); destruct (Z.eqb_spec m2 (2 ^ 53));
    cbn [fst snd]; lia.
Qed.

Lemma int_mantissa_mono c t :
  0 < c -> c <= t -> Zdigits2 c = Zdigits2 t ->
  int_mantissa c <= int_mantissa t.
Proof.
  intros Hc Hct Hd. unfold int_mantissa. rewrite <- Hd.
  destruct (Z.leb_spec (Zdigits2 c) 53) as [Hle|Hgt].
  - assert (0 < 2 ^ (53 - Zdigits2 c)) by (apply Z.pow_pos_nonneg; lia). nia.
  - apply rne_mono, shn_mono. lia.
Qed.

Lemma of_int_mono c t :
  0 < c -> c <= t -> t < 2 ^ 63 ->
  nf_le (carry (int_mantissa c) (Zdigits2 c - 53))
        (carry (int_mantissa t) (Zdigits2 t - 53)).
Proof.
  intros Hc Hct Ht.
  destruct (of_int_char c ltac:(lia)) as [Mc _].
  destruct (of_int_char t ltac:(lia)) as [Mt _].
  pose proof (Zdigits2_mono c t Hc Hct) as Hd.
  destruct (Z.eq_dec (Zdigits2 c) (Zdigits2 t)) as [E|E].
  - apply carry_mono; [lia|lia|]. right. cbn [fst snd]. split; [lia|].
    apply int_mantissa_mono; assumption.
  - destruct (carry_range (int_mantissa c) (Zdigits2 c - 53) Mc) as (A1 & A2 & A3).
    destruct (carry_range (int_mantissa t) (Zdigits2 t - 53) Mt) as (B1 & B2 & B3).
    unfold nf_le. lia.
Qed.

(** Division of a positive float by a larger one. *)

Lemma new_location_exact nb : new_location nb 0 = loc_Exact.
Proof.
  unfold new_location, new_location_even, new_location_odd.
  destruct (Z.even nb); reflexivity.
Qed.


(** The quotient and the remainder that the division rounds. *)
Lemma div_char ma ea mb eb :
  2 ^ 52 <= ma < 2 ^ 53 -> 2 ^ 52 <= mb < 2 ^ 53 ->
  -60 <= ea <= 60 -> -60 <= eb <= 60 ->
  let q := ma * 2 ^ 53 / mb in
  let r := (ma * 2 ^ 53) mod mb in
  SFdiv 53 1024 (nf ma ea) (nf mb eb)
  = binary_round_aux 53 1024 false q (ea - eb - 53) (new_location mb r)
  /\ 2 ^ 52 <= q < 2 ^ 54.
Proof.
  intros Hma Hmb Hea Heb q r.
  assert (H52 : 2 ^ 52 = 4503599627370496) by reflexivity.
  assert (H53 : 2 ^ 53 = 9007199254740992) by reflexivity.
  assert (H54 : 2 ^ 54 = 18014398509481984) by reflexivity.
  split.
  - unfold nf, SFdiv, SFdiv_core_binary.
    rewrite !Z2Pos.id by lia.
    rewrite (Zdigits2_unique ma 53) by lia.
    rewrite (Zdigits2_unique mb 53) by lia.
    rewrite fexp64.
    replace (Z.min (Z.max (53 + ea - (53 + eb) - 53) (-1074)) (ea - eb))
      with (ea - eb - 53) by lia.
    replace (ea - eb - (ea - eb - 53)) with 53 by lia.
    cbv iota beta. rewrite Z.shiftl_mul_pow2 by lia.
    subst q r. unfold Z.div, Z.modulo.
    destruct (Z.div_eucl (ma * 2 ^ 53) mb) as [q r]. reflexivity.
  - subst q.
    pose proof (Z.div_mod (ma * 2 ^ 53) mb ltac:(lia)) as Hdm.
    pose proof (Z.mod_pos_bound (ma * 2 ^ 53) mb ltac:(lia)) as Hr.
    nia.
Qed.

Lemma div_le_one ma ea mb eb :
  2 ^ 52 <= ma < 2 ^ 53 -> 2 ^ 52 <= mb < 2 ^ 53 ->
  -60 <= ea <= 60 -> -60 <= eb <= 60 ->
  nf_le (ma, ea) (mb, eb) ->
  exists m e,
    SFdiv 53 1024 (nf ma ea) (nf mb eb) = nf m e
    /\ 2 ^ 52 <= m < 2 ^ 53 /\ -200 <= e <= -52
    /\ (e = -52 -> m = 2 ^ 52).
Proof.
  intros Hma Hmb Hea Heb Hle. unfold nf_le in Hle. cbn [fst snd] in Hle.
  assert (H52 : 2 ^ 52 = 4503599627370496) by reflexivity.
  assert (H53 : 2 ^ 53 = 9007199254740992) by reflexivity.
  assert (H54 : 2 ^ 54 = 18014398509481984) by reflexivity.
  destruct (div_char ma ea mb eb Hma Hmb Hea Heb) as [Hdiv Hq].
  pose proof (Z.div_mod (ma * 2 ^ 53) mb ltac:(lia)) as Hdm.
  pose proof (Z.mod_pos_bound (ma * 2 ^ 53) mb ltac:(lia)) as Hr.
  set (q := ma * 2 ^ 53 / mb) in *.
  set (r := (ma * 2 ^ 53) mod mb) in *.
  rewrite Hdiv.
  assert (Hdq : Zdigits2 q = 53 \/ Zdigits2 q = 54).
  { destruct (Z.lt_ge_cases q (2 ^ 53)) as [H|H].
    - left. apply Zdigits2_unique; lia.
    - right. apply Zdigits2_unique; lia. }
  destruct (bra_normal false q (ea - eb - 53) (new_location mb r) ltac:(lia))
    as (Hb & Hm' & Hres); try lia.
  set (m1 := rne (shn (Z.to_nat (Zdigits2 q - 53)) (4 * q + loc_code (new_location mb r)))) in *.
  set (e1 := Zdigits2 q + (ea - eb - 53) - 53) in *.
  assert (Hm1 : 2 ^ 52 <= m1 <= 2 ^ 53) by lia.
  change (if m1 =? 2 ^ 53
          then S754_finite false (Z.to_pos (2 ^ 52)) (e1 + 1)
          else S754_finite false (Z.to_pos m1) e1)
    with (renorm m1 e1) in Hres.
  rewrite renorm_carry in Hres.
  destruct (carry_range m1 e1 Hm1) as (C1 & C2 & C3).
  exists (fst (carry m1 e1)), (snd (carry m1 e1)).
  split; [exact Hres|]. split; [exact C1|].
  destruct Hle as [Hlt|[Heq Hmm]].
  - subst e1. lia.
  - destruct Hdq as [D|D].
    + subst e1. rewrite D in *. lia.
    + (* the quotient is exactly one *)
      assert (Hq1 : q = 2 ^ 53).
      { assert (2 ^ 53 <= q).
        { destruct (Zdigits2_spec q ltac:(lia)) as [_ [Hlo _]].
          rewrite D in Hlo. exact Hlo. }
        nia. }
      assert (Hr0 : r = 0) by nia.
      assert (Hm1' : m1 = 2 ^ 52).
      { subst m1. rewrite D, Hr0, new_location_exact, Hq1. cbn [loc_code].
        rewrite Z.add_0_r.
        change (Z.to_nat (54 - 53)) with 1%nat.
        change (4 * 2 ^ 53) with (4 * (2 ^ 52 * 2 ^ Z.of_nat 1)).
        rewrite shn_exact, rne_exact. reflexivity. }
      unfold carry in *. rewrite Hm1' in *.
      change (2 ^ 52 =? 2 ^ 53) with false in *. cbn [fst snd] in *.
      subst e1. rewrite D. lia.
Qed.

(** Multiplication of a fraction by 100. *)

Lemma hundred_nf : (F64.of_int 100) = nf (25 * 2 ^ 48) (-46).
Proof. reflexivity. Qed.


Lemma mul_hundred_char mx ex :
  2 ^ 52 <= mx < 2 ^ 53 ->
  let M := mx * (25 * 2 ^ 48) in
  SFmul 53 1024 (nf mx ex) (F64.of_int 100)
  = binary_round_aux 53 1024 false M (ex + -46) loc_Exact
  /\ 0 < M /\ (Zdigits2 M = 105 \/ Zdigits2 M = 106).
Proof.
  intros Hmx M.
  assert (H52 : 2 ^ 52 = 4503599627370496) by reflexivity.
  assert (H53 : 2 ^ 53 = 9007199254740992) by reflexivity.
  assert (H100 : 25 * 2 ^ 48 = 7036874417766400) by reflexivity.
  assert (HM : 2 ^ 104 <= M < 2 ^ 106).
  { assert (2 ^ 104 = 4503599627370496 * 4503599627370496) by reflexivity.
    assert (2 ^ 106 = 9007199254740992 * 9007199254740992) by reflexivity.
    subst M. nia. }
  assert (HM0 : 0 < M).
  { assert (0 < 2 ^ 104) by (apply Z.pow_pos_nonneg; lia). lia. }
  split; [|split; [exact HM0|]].
  - rewrite hundred_nf. unfold nf, SFmul. cbn [xorb].
    rewrite Pos2Z.inj_mul, !Z2Pos.id by lia. reflexivity.
  - destruct (Zdigits2_spec M HM0) as [_ [Dlo Dhi]].
    destruct (Z.le_gt_cases (Zdigits2 M) 104) as [H|H].
    { assert (2 ^ Zdigits2 M <= 2 ^ 104) by (apply Z.pow_le_mono_r; lia). lia. }
    destruct (Z.le_gt_cases 107 (Zdigits2 M)) as [H'|H'].
    { assert (2 ^ 106 <= 2 ^ (Zdigits2 M - 1)) by (apply Z.pow_le_mono_r; lia). lia. }
    lia.
Qed.

Lemma mul_hundred_le mx ex :
  2 ^ 52 <= mx < 2 ^ 53 -> -200 <= ex <= -52 ->
  (ex = -52 -> mx = 2 ^ 52) ->
  exists m e,
    SFmul 53 1024 (nf mx ex) (F64.of_int 100) = nf m e
    /\ 2 ^ 52 <= m < 2 ^ 53
    /\ nf_le (m, e) (25 * 2 ^ 48, -46).
Proof.
  intros Hmx Hex Hone.
  assert (H52 : 2 ^ 52 = 4503599627370496) by reflexivity.
  assert (H53 : 2 ^ 53 = 9007199254740992) by reflexivity.
  assert (H100 : 25 * 2 ^ 48 = 7036874417766400) by reflexivity.
  destruct (mul_hundred_char mx ex Hmx) as (Hmul & HM0 & Hd).
  rewrite Hmul.
  set (M := mx * (25 * 2 ^ 48)) in *.
  destruct (bra_normal false M (ex + -46) loc_Exact HM0) as (Hb & Hm' & Hres);
    try lia.
  cbn [loc_code] in Hres, Hb. rewrite Z.add_0_r in Hres, Hb.
  set (m1 := rne (shn (Z.to_nat (Zdigits2 M - 53)) (4 * M))) in *.
  set (e1 := Zdigits2 M + (ex + -46) - 53) in *.
  assert (Hm1 : 2 ^ 52 <= m1 <= 2 ^ 53) by lia.
  change (if m1 =? 2 ^ 53
          then S754_finite false (Z.to_pos (2 ^ 52)) (e1 + 1)
          else S754_finite false (Z.to_pos m1) e1)
    with (renorm m1 e1) in Hres.
  rewrite renorm_carry in Hres.
  destruct (carry_range m1 e1 Hm1) as (C1 & C2 & C3).
  exists (fst (carry m1 e1)), (snd (carry m1 e1)).
  split; [exact Hres|]. split; [exact C1|].
  unfold nf_le. cbn [fst snd].
  destruct (Z.eq_dec ex (-52)) as [E|E].
  - (* the fraction is one: the product is exact *)
    specialize (Hone E).
    assert (HMv : M = 25 * 2 ^ 48 * 2 ^ 52) by (subst M; lia).
    assert (HdM : Zdigits2 M = 105).
    { apply Zdigits2_unique; [lia|]. rewrite HMv. split; vm_compute; congruence. }
    assert (Hm1' : m1 = 25 * 2 ^ 48).
    { subst m1. rewrite HdM, HMv.
      change (Z.to_nat (105 - 53)) with 52%nat.
      change (2 ^ 52) with (2 ^ Z.of_nat 52).
      rewrite shn_exact, rne_exact. reflexivity. }
    unfold carry. rewrite Hm1'.
    change (25 * 2 ^ 48 =? 2 ^ 53) with false. cbn [fst snd].
    subst e1. rewrite HdM. lia.
  - destruct Hd as [D|D].
    + subst e1. rewrite D in *. lia.
    + destruct (Z.eq_dec ex (-53)) as [E'|E'].
      * (* the exponent of 100 is reached: the mantissa stays below *)
        assert (Hlt : M / 2 ^ (Zdigits2 M - 53) < 25 * 2 ^ 48).
        { rewrite D. apply Z.div_lt_upper_bound; [reflexivity|].
          change (2 ^ (106 - 53)) with 9007199254740992. subst M. lia. }
        assert (Hm1lt : m1 < 2 ^ 53) by lia.
        unfold carry in *.
        destruct (Z.eqb_spec m1 (2 ^ 53)); [lia|]. cbn [fst snd] in *.
        subst e1. rewrite D. lia.
      * subst e1. rewrite D in *. lia.
Qed.

(** The percentage of two counts. *)
Lemma percent_in_range c t :
  0 <= c <= t -> 0 < t < 2 ^ 63 ->
  let r := SFmul 53 1024 (SFdiv 53 1024 (F64.of_int c) (F64.of_int t)) (F64.of_int 100) in
  SFleb (F64.of_int 0) r = true /\ SFleb r (F64.of_int 100) = true.
Proof.
  intros Hc Ht r.
  assert (H52 : 2 ^ 52 = 4503599627370496) by reflexivity.
  destruct (of_int_char t Ht) as [Mt Et].
  rewrite renorm_carry in Et.
  destruct (carry_range _ (Zdigits2 t - 53) Mt) as (T1 & T2 & T3).
  assert (Hdt : 1 <= Zdigits2 t <= 63).
  { destruct (Zdigits2_spec t ltac:(lia)) as [Hd1 [Dlo _]]. split; [exact Hd1|].
    destruct (Z.le_gt_cases (Zdigits2 t) 63) as [H|H]; [exact H|].
    assert (2 ^ 63 <= 2 ^ (Zdigits2 t - 1)) by (apply Z.pow_le_mono_r; lia). lia. }
  destruct (Z.eq_dec c 0) as [->|Hc0].
  - subst r. rewrite Et. split; reflexivity.
  - destruct (of_int_char c ltac:(lia)) as [Mc Ec].
    rewrite renorm_carry in Ec.
    destruct (carry_range _ (Zdigits2 c - 53) Mc) as (A1 & A2 & A3).
    assert (Hdc : 1 <= Zdigits2 c <= 63).
    { destruct (Zdigits2_spec c ltac:(lia)) as [Hd1 _]. split; [exact Hd1|].
      pose proof (Zdigits2_mono c t ltac:(lia) ltac:(lia)). lia. }
    pose proof (of_int_mono c t ltac:(lia) ltac:(lia) ltac:(lia)) as Hle.
    destruct (carry (int_mantissa c) (Zdigits2 c - 53)) as [ma ea].
    destruct (carry (int_mantissa t) (Zdigits2 t - 53)) as [mb eb].
    cbn [fst snd] in *.
    destruct (div_le_one ma ea mb eb A1 T1 ltac:(lia) ltac:(lia) Hle)
      as (m & e & Hdiv & Hm & He & Hone).
    destruct (mul_hundred_le m e Hm He Hone) as (m' & e' & Hmul & Hm' & Hle').
    subst r. rewrite Ec, Et, Hdiv, Hmul. split.
    + reflexivity.
    + rewrite hundred_nf. apply SFleb_nf; [lia|reflexivity|].
      exact Hle'.
Qed.

End Binary64.

(** ** The night path *)

Section NightPath.

Import np spec processing.

Lemma calc_ir_counts ds band threshold data :
  xr.data_vars ds !! band = Some data -> fits_index data ->
  calc_cloud_fraction_ir ds band threshold
  = Ok (percent (cloudy_count data (as_dtype (dtype_of data) threshold))
          (valid_count data)).
Proof.
  intros Hband Hfits. unfold calc_cloud_fraction_ir.
  rewrite (getitem_present _ _ _ Hband), result_bind_ok.
  rewrite sum_less, sum_valid by exact Hfits. reflexivity.
Qed.

Lemma percent_no_valid c : percent c 0 = F64.nan.
Proof. reflexivity. Qed.

Lemma percent_some_valid c v :
  0 < v ->
  percent c v = F64.mul (F64.div (F64.of_int c) (F64.of_int v)) (F64.of_int 100).
Proof.
  intros Hv. unfold percent.
  destruct (Z.gtb_spec v 0) as [_|H]; [reflexivity|lia].
Qed.

Lemma percent_bounded c v :
  0 <= c <= v -> 0 < v < 2 ^ 63 -> in_0_100 (percent c v).
Proof.
  intros Hc Hv. rewrite percent_some_valid by lia.
  apply (percent_in_range c v Hc Hv).
Qed.

End NightPath.

(** ** The day path when no gap of the IR band is bright *)

Section DayPathRange.

Import np spec processing.

Lemma true_count_pointwise (l1 : list bool) : forall l2 : list bool,
  length l1 = length l2 ->
  (forall i : nat, l1 !! i = Some true -> l2 !! i = Some true) ->
  true_count l1 <= true_count l2.
Proof.
  induction l1 as [|b1 l1 IH]; intros [|b2 l2] Hlen Himp;
    try discriminate Hlen; [reflexivity|].
  rewrite !true_count_cons.
  assert (Hrest : true_count l1 <= true_count l2).
  { apply IH; [simpl in Hlen; lia|]. intros i Hi. apply (Himp (S i)). exact Hi. }
  destruct b1; [|destruct b2; simpl; lia].
  specialize (Himp O eq_refl). injection Himp as ->. lia.
Qed.

(** The day path stays between 0 and 100 on scans in which no pixel without
    an IR value is bright in a visible band. *)
Lemma day_percent_bounded ds ir_band vis_bands t1 t2 ir :
  xr.data_vars ds !! ir_band = Some ir ->
  common_grid ds vis_bands ir ->
  fits_index ir ->
  (forall (i : nat) vb a y,
     flat ir !! i = Some F64.nan -> present_vis ds vis_bands vb a ->
     flat a !! i = Some y -> F64.gtb y (as_dtype (dtype_of a) t2) = false) ->
  0 < valid_count ir ->
  exists p, calc_cloud_fraction_multiband ds ir_band vis_bands t1 t2 = Ok p
            /\ in_0_100 p.
Proof.
  intros Hir Hgrid Hfits Hgap Hv.
  destruct (combined_mask_rule ds ir vis_bands t1 t2 Hgrid)
    as (mask & Hmask & _ & Hlen & Hrule).
  eexists. split; [apply calc_multiband_counts; eassumption|].
  apply percent_bounded.
  - split; [unfold true_count; lia|].
    unfold valid_count. rewrite <- true_count_map.
    apply true_count_pointwise; [rewrite length_map; exact Hlen|].
    intros i Hi. pose proof (proj1 (Hrule i true Hi) eq_refl) as Hc.
    assert (Hlt : (i < length (flat ir))%nat).
    { rewrite <- Hlen. apply lookup_lt_Some with true. exact Hi. }
    destruct (lookup_lt_is_Some_2 _ i Hlt) as [x Hx].
    change map with (@fmap list _). rewrite list_lookup_fmap, Hx. cbn.
    f_equal.
    destruct Hc as [(x' & Hx' & Hcold)|(vb & a & y & Hp & Hy & Hbright)].
    + rewrite Hx in Hx'. injection Hx' as <-.
      rewrite (below_is_number _ _ Hcold). reflexivity.
    + destruct x; try reflexivity.
      rewrite (Hgap i vb a y Hx Hp Hy) in Hbright. discriminate.
  - split; [exact Hv|].
    pose proof (valid_count_bound ir). unfold fits_index in Hfits. lia.
Qed.

End DayPathRange.

(** C10. In the night path a NaN pixel is never marked, so the marked pixels
    are at most as many as the valid ones, and on a band with a valid pixel
    the returned percentage is a float between 0 and 100, both included. *)
Theorem ir_percent_between_0_and_100 ds band threshold data :
  xr.data_vars ds !! band = Some data ->
  spec.fits_index data ->
  (forall i : nat, np.flat data !! i = Some F64.nan ->
     np.flat (np.less data threshold) !! i = Some false)
  /\ spec.cloudy_count data threshold <= spec.valid_count data
  /\ (0 < spec.valid_count data ->
      exists p, processing.calc_cloud_fraction_ir ds band threshold = Ok p
                /\ spec.in_0_100 p).
Proof.
  intros Hband Hfits. split; [|split].
  - intros i Hi. unfold np.less, np.map_array. cbn [np.flat].
    change map with (@fmap list _). rewrite list_lookup_fmap, Hi. reflexivity.
  - apply cloudy_le_valid.
  - intros Hv. eexists. split; [apply calc_ir_counts; eassumption|].
    apply percent_bounded.
    + split; [apply cloudy_count_nonneg|apply cloudy_le_valid].
    + split; [exact Hv|].
      pose proof (valid_count_bound data). unfold spec.fits_index in Hfits. lia.
Qed.

Lemma ir_percent_between_0_and_100_witness :
  exists p,
    processing.calc_cloud_fraction_ir sample.ir_gap processing.default_ir_band
      processing.default_ir_threshold = Ok p
    /\ spec.in_0_100 p.
Proof.
  refine (proj2 (proj2 (ir_percent_between_0_and_100 sample.ir_gap
    processing.default_ir_band processing.default_ir_threshold
    (sample.row [sample.f 270; sample.f 290; F64.nan; sample.f 275]) _ _)) _).
  - reflexivity.
  - vm_compute. reflexivity.
  - vm_compute. reflexivity.
Defined.

(** ** Percentages as rationals *)

Section Binary64Values.

Import Rounding.

Lemma mod4_cases k : exists m l, k = 4 * m + l /\ (l = 0 \/ l = 1 \/ l = 2 \/ l = 3).
Proof.
  exists (k / 4), (k mod 4).
  pose proof (Z.div_mod k 4 ltac:(lia)).
  pose proof (Z.mod_pos_bound k 4 ltac:(lia)). lia.
Qed.

Lemma even4 m l : Z.even (4 * m + l) = Z.even l.
Proof.
  rewrite Z.even_add, Z.even_mul. cbn. destruct (Z.even l); reflexivity.
Qed.

Lemma sh1_4 m l : 0 <= l <= 3 -> sh1 (4 * m + l) = 2 * m + (if l =? 0 then 0 else 1).
Proof.
  intros Hl. unfold sh1.
  destruct (Z.eqb_spec ((4 * m + l) mod 4) 1) as [E|E];
    destruct (Z.eqb_spec l 0); revert E; Z.div_mod_to_equations; lia.
Qed.

Ltac push_inject :=
  repeat (rewrite ?inject_Z_plus, ?inject_Z_mult, ?inject_Z_opp in * );
  change (inject_Z 0) with 0%Q in *;
  change (inject_Z 1) with 1%Q in *;
  change (inject_Z 2) with 2%Q in *;
  change (inject_Z 3) with 3%Q in *;
  change (inject_Z 4) with 4%Q in *.

Lemma at_code_sh1 k y : at_code k y -> at_code (sh1 k) (y * (1 # 2)).
Proof.
  destruct (mod4_cases k) as (m & l & -> & Hl).
  unfold at_code. rewrite sh1_4 by lia. rewrite even4.
  assert (E2 : forall b, Z.even (2 * m + b) = Z.even b).
  { intros b. rewrite Z.even_add, Z.even_mul. cbn. destruct (Z.even b); reflexivity. }
  rewrite E2.
  destruct Hl as [-> | [-> | [-> | ->]]]; cbn [Z.eqb Z.even Pos.eqb];
    intros H; push_inject; try split; try lra.
Qed.

Lemma two_to_pos e : (0 < F64.two_to e)%Q.
Proof. apply Qpower_0_lt. reflexivity. Qed.

Lemma two_to_add a b : (F64.two_to (a + b) == F64.two_to a * F64.two_to b)%Q.
Proof. apply Qpower_plus. discriminate. Qed.

Lemma at_code_shn n k y :
  at_code k y -> at_code (shn n k) (y * F64.two_to (- Z.of_nat n)).
Proof.
  intros H. induction n as [|n IH].
  - change (shn 0 k) with k. change (F64.two_to (- Z.of_nat 0)) with 1%Q.
    unfold at_code in *. destruct (Z.even k); [|destruct H; split]; lra.
  - rewrite shn_S. apply at_code_sh1 in IH.
    replace (- Z.of_nat (S n)) with (- Z.of_nat n + -1) by lia.
    assert (E : (y * F64.two_to (- Z.of_nat n + -1)
                 == y * F64.two_to (- Z.of_nat n) * (1 # 2))%Q).
    { rewrite two_to_add. change (F64.two_to (-1)) with (1 # 2)%Q. ring. }
    unfold at_code in *. destruct (Z.even (sh1 (shn n k))).
    + rewrite E. exact IH.
    + rewrite E. exact IH.
Qed.

Lemma rne_4 m l : 0 <= l <= 3 ->
  rne (4 * m + l) =
    if l <=? 1 then m else if l =? 2 then (if Z.even m then m else m + 1) else m + 1.
Proof.
  intros Hl. unfold rne.
  assert (Hq : (4 * m + l) / 4 = m) by (Z.div_mod_to_equations; lia).
  assert (Hr : (4 * m + l) mod 4 = l) by (Z.div_mod_to_equations; lia).
  rewrite Hq, Hr. reflexivity.
Qed.

(** The rounded mantissa is within half a unit of the exact position. *)
Lemma at_code_rne k y :
  at_code k y ->
  (inject_Z (rne k) - (1 # 2) <= y /\ y <= inject_Z (rne k) + (1 # 2))%Q.
Proof.
  destruct (mod4_cases k) as (m & l & -> & Hl).
  unfold at_code. rewrite rne_4 by lia. rewrite even4.
  destruct Hl as [-> | [-> | [-> | ->]]]; cbn [Z.eqb Z.leb Z.compare Z.even Pos.eqb Pos.compare Pos.compare_cont];
    intros H; try destruct (Z.even m); push_inject; split; lra.
Qed.

Lemma to_Q_nf m e : 0 < m -> (F64.to_Q (nf m e) == inject_Z m * F64.two_to e)%Q.
Proof.
  intros Hm. unfold nf, F64.to_Q. cbn [cond_Zopp]. rewrite Z2Pos.id by lia.
  reflexivity.
Qed.

Lemma to_Q_renorm m1 e1 :
  2 ^ 52 <= m1 <= 2 ^ 53 ->
  (F64.to_Q (renorm m1 e1) == inject_Z m1 * F64.two_to e1)%Q.
Proof.
  intros H. unfold renorm.
  assert (H52 : 2 ^ 52 = 4503599627370496) by reflexivity.
  destruct (Z.eqb_spec m1 (2 ^ 53)) as [->|E].
  - rewrite to_Q_nf by lia. rewrite two_to_add.
    change (F64.two_to 1) with 2%Q.
    change (inject_Z (2 ^ 53)) with (inject_Z (2 ^ 52) * 2)%Q. ring.
  - apply to_Q_nf. lia.
Qed.

Lemma half_le_ulp m1 : 2 ^ 52 <= m1 -> ((1 # 2) <= inject_Z m1 * u)%Q.
Proof.
  intros H. unfold u, Qle. cbn [Qnum Qden inject_Z Qmult].
  change (2 ^ 52) with 4503599627370496 in H. lia.
Qed.



Lemma two_to_inject k : 0 <= k -> (inject_Z (2 ^ k) == F64.two_to k)%Q.
Proof. intros H. unfold F64.two_to. rewrite Zpower_Qpower by exact H. reflexivity. Qed.

(** A mantissa within half a unit of the exact position, as a relative error
    of the value. *)
Lemma rounded_value m1 e1 n (y : Q) :
  2 ^ 52 <= m1 ->
  (inject_Z m1 - (1 # 2) <= y * F64.two_to (- n) /\ y * F64.two_to (- n) <= inject_Z m1 + (1 # 2))%Q ->
  (inject_Z m1 * F64.two_to e1 * (1 - u) <= y * F64.two_to (e1 - n)
   /\ y * F64.two_to (e1 - n) <= inject_Z m1 * F64.two_to e1 * (1 + u))%Q.
Proof.
  intros Hm1 Hn.
  pose proof (half_le_ulp m1 Hm1) as Hu.
  pose proof (two_to_pos e1) as Hp.
  assert (Hex : (y * F64.two_to (e1 - n) == y * F64.two_to (- n) * F64.two_to e1)%Q).
  { rewrite <- Qmult_assoc, <- two_to_add.
    replace (- n + e1) with (e1 - n) by lia. reflexivity. }
  rewrite Hex. split.
  - assert (E : (inject_Z m1 * F64.two_to e1 * (1 - u)
                 == inject_Z m1 * (1 - u) * F64.two_to e1)%Q) by ring.
    rewrite E. apply Qmult_le_compat_r; lra.
  - assert (E : (inject_Z m1 * F64.two_to e1 * (1 + u)
                 == inject_Z m1 * (1 + u) * F64.two_to e1)%Q) by ring.
    rewrite E. apply Qmult_le_compat_r; lra.
Qed.

(** The value that [binary_round_aux] returns in the normal range, against
    the exact value [y * 2^ex]. *)
Lemma bra_normal_value mx ex lx (y : Q) :
  0 < mx ->
  let d := Zdigits2 mx in
  53 <= d -> -1074 <= d + ex - 53 -> d + ex - 53 < 971 ->
  at_code (4 * mx + loc_code lx) y ->
  let r := binary_round_aux 53 1024 false mx ex lx in
  (F64.to_Q r * (1 - u) <= y * F64.two_to ex /\ y * F64.two_to ex <= F64.to_Q r * (1 + u))%Q.
Proof.
  intros Hmx d Hd Hlo Hhi Hy r.
  destruct (bra_normal false mx ex lx Hmx Hd Hlo Hhi) as (Hb & Hm' & Hres).
  fold d in Hb, Hm', Hres.
  set (m1 := rne (shn (Z.to_nat (d - 53)) (4 * mx + loc_code lx))) in *.
  set (e1 := d + ex - 53) in *.
  assert (Hm1 : 2 ^ 52 <= m1 <= 2 ^ 53) by lia.
  assert (Hr : (F64.to_Q r == inject_Z m1 * F64.two_to e1)%Q).
  { subst r. rewrite Hres. apply (to_Q_renorm m1 e1 Hm1). }
  pose proof (at_code_rne _ _ (at_code_shn (Z.to_nat (d - 53)) _ _ Hy)) as Hn.
  fold m1 in Hn. rewrite Z2Nat.id in Hn by lia.
  pose proof (rounded_value m1 e1 (d - 53) y ltac:(lia) Hn) as Hv.
  replace (e1 - (d - 53)) with ex in Hv by (subst e1; lia).
  rewrite Hr. exact Hv.
Qed.

Lemma new_location_code d r :
  0 <= r < d ->
  loc_code (new_location d r) =
    if r =? 0 then 0 else if 2 * r <? d then 1 else if 2 * r =? d then 2 else 3.
Proof.
  intros Hr. unfold new_location, new_location_even, new_location_odd.
  change (IntDef.Z.even d) with (Z.even d).
  destruct (Z.even d) eqn:Ev; cbv beta.
  - destruct (Z.eqb_spec r 0); [reflexivity|].
    destruct (Z.compare_spec (2 * r) d) as [C|C|C]; cbn [loc_code].
    + destruct (Z.ltb_spec (2 * r) d); [lia|].
      destruct (Z.eqb_spec (2 * r) d); [reflexivity|lia].
    + destruct (Z.ltb_spec (2 * r) d); [reflexivity|lia].
    + destruct (Z.ltb_spec (2 * r) d); [lia|].
      destruct (Z.eqb_spec (2 * r) d); [lia|reflexivity].
  - assert (Hodd : 2 * r <> d).
    { intros C. rewrite <- C in Ev. rewrite Z.even_mul in Ev. discriminate. }
    destruct (Z.eqb_spec r 0); [reflexivity|].
    destruct (Z.compare_spec (2 * r + 1) d) as [C|C|C]; cbn [loc_code].
    + destruct (Z.ltb_spec (2 * r) d); [reflexivity|lia].
    + destruct (Z.ltb_spec (2 * r) d); [reflexivity|lia].
    + destruct (Z.ltb_spec (2 * r) d); [lia|].
      destruct (Z.eqb_spec (2 * r) d); [lia|reflexivity].
Qed.

Lemma at_code_div n d :
  0 <= n -> 0 < d ->
  at_code (4 * (n / d) + loc_code (new_location d (n mod d)))
    (inject_Z n / inject_Z d).
Proof.
  intros Hn Hd.
  pose proof (Z.div_mod n d ltac:(lia)) as Hdm.
  pose proof (Z.mod_pos_bound n d Hd) as Hr.
  set (q := n / d) in *. set (r := n mod d) in *.
  assert (HdQ : (0 < inject_Z d)%Q) by (unfold Qlt; cbn; lia).
  assert (Hy : (inject_Z n / inject_Z d == inject_Z q + inject_Z r / inject_Z d)%Q).
  { rewrite Hdm. rewrite inject_Z_plus, inject_Z_mult. field. lra. }
  set (t := (inject_Z r / inject_Z d)%Q) in *.
  assert (Ht : (t * inject_Z d == inject_Z r)%Q) by (subst t; field; lra).
  assert (cmp_lt : 2 * r < d -> (t < 1 # 2)%Q).
  { intros H. subst t. apply Qlt_shift_div_r; [exact HdQ|].
    assert ((2 * inject_Z r < inject_Z d)%Q) by (unfold Qlt; cbn; lia).
    lra. }
  assert (cmp_gt : d < 2 * r -> ((1 # 2) < t)%Q).
  { intros H. subst t. apply Qlt_shift_div_l; [exact HdQ|].
    assert ((inject_Z d < 2 * inject_Z r)%Q) by (unfold Qlt; cbn; lia).
    lra. }
  assert (cmp_eq : 2 * r = d -> (t == 1 # 2)%Q).
  { intros H. subst t. rewrite <- H. rewrite inject_Z_mult. field.
    assert ((0 < inject_Z r)%Q) by (unfold Qlt; cbn; lia). lra. }
  assert (t_pos : 0 < r -> (0 < t)%Q).
  { intros H. subst t. apply Qlt_shift_div_l; [exact HdQ|].
    assert ((0 < inject_Z r)%Q) by (unfold Qlt; cbn; lia). lra. }
  assert (t_lt1 : (t < 1)%Q).
  { subst t. apply Qlt_shift_div_r; [exact HdQ|].
    assert ((inject_Z r < inject_Z d)%Q) by (rewrite <- Zlt_Qlt; lia). lra. }
  unfold at_code. rewrite even4.
  rewrite new_location_code by lia.
  destruct (Z.eqb_spec r 0) as [E0|E0].
  - assert (Et : (t == 0)%Q) by (subst t; rewrite E0; reflexivity).
    cbn [Z.even]. push_inject. lra.
  - specialize (t_pos ltac:(lia)).
    destruct (Z.ltb_spec (2 * r) d) as [C|C].
    + specialize (cmp_lt C). cbn [Z.even]. push_inject. split; lra.
    + destruct (Z.eqb_spec (2 * r) d) as [C'|C'].
      * specialize (cmp_eq C'). cbn [Z.even]. push_inject. lra.
      * specialize (cmp_gt ltac:(lia)). cbn [Z.even]. push_inject. split; lra.
Qed.



Lemma of_int_value n :
  0 < n < 2 ^ 63 ->
  (F64.to_Q (F64.of_int n) * (1 - u) <= inject_Z n
   /\ inject_Z n <= F64.to_Q (F64.of_int n) * (1 + u))%Q.
Proof.
  intros Hn.
  destruct (of_int_char n Hn) as [HM Hof].
  rewrite Hof, (to_Q_renorm _ _ HM).
  destruct (Zdigits2_spec n ltac:(lia)) as [Hd1 _].
  unfold int_mantissa in *.
  destruct (Z.leb_spec (Zdigits2 n) 53) as [Hle|Hgt].
  - assert (E : (inject_Z (n * 2 ^ (53 - Zdigits2 n)) * F64.two_to (Zdigits2 n - 53)
                 == inject_Z n)%Q).
    { rewrite inject_Z_mult, two_to_inject by lia.
      rewrite <- Qmult_assoc, <- two_to_add.
      replace (53 - Zdigits2 n + (Zdigits2 n - 53)) with 0 by lia.
      change (F64.two_to 0) with 1%Q. ring. }
    rewrite E.
    assert ((0 < inject_Z n)%Q) by (unfold Qlt; cbn; lia).
    unfold u. split; lra.
  - pose proof (rounded_value (rne (shn (Z.to_nat (Zdigits2 n - 53)) (4 * n)))
                  (Zdigits2 n - 53) (Zdigits2 n - 53)
                  (inject_Z n) ltac:(lia)) as H.
    replace (Zdigits2 n - 53 - (Zdigits2 n - 53)) with 0 in H by lia.
    change (F64.two_to 0) with 1%Q in H.
    rewrite Qmult_1_r in H. apply H.
    assert (Hc : at_code (4 * n) (inject_Z n)).
    { unfold at_code. rewrite Z.even_mul. cbn [Z.even orb].
      rewrite inject_Z_mult. reflexivity. }
    pose proof (at_code_rne _ _ (at_code_shn (Z.to_nat (Zdigits2 n - 53)) _ _ Hc)) as Hr.
    rewrite Z2Nat.id in Hr by lia. exact Hr.
Qed.

Lemma div_value ma ea mb eb :
  2 ^ 52 <= ma < 2 ^ 53 -> 2 ^ 52 <= mb < 2 ^ 53 ->
  -60 <= ea <= 60 -> -60 <= eb <= 60 ->
  exists rho : Q,
    (rho * F64.to_Q (nf mb eb) == F64.to_Q (nf ma ea))%Q
    /\ (F64.to_Q (SFdiv 53 1024 (nf ma ea) (nf mb eb)) * (1 - u) <= rho)%Q
    /\ (rho <= F64.to_Q (SFdiv 53 1024 (nf ma ea) (nf mb eb)) * (1 + u))%Q.
Proof.
  intros Hma Hmb Hea Heb.
  assert (H52 : 2 ^ 52 = 4503599627370496) by reflexivity.
  assert (H53 : 2 ^ 53 = 9007199254740992) by reflexivity.
  assert (H54 : 2 ^ 54 = 18014398509481984) by reflexivity.
  destruct (div_char ma ea mb eb Hma Hmb Hea Heb) as [Hdiv Hq].
  set (q := ma * 2 ^ 53 / mb) in *.
  set (r := (ma * 2 ^ 53) mod mb) in *.
  set (y := (inject_Z (ma * 2 ^ 53) / inject_Z mb)%Q).
  assert (Hdq : Zdigits2 q = 53 \/ Zdigits2 q = 54).
  { destruct (Z.lt_ge_cases q (2 ^ 53)) as [H|H].
    - left. apply Zdigits2_unique; lia.
    - right. apply Zdigits2_unique; lia. }
  pose proof (bra_normal_value q (ea - eb - 53) (new_location mb r) y
                ltac:(lia) ltac:(lia) ltac:(lia) ltac:(lia)
                (at_code_div (ma * 2 ^ 53) mb ltac:(lia) ltac:(lia))) as Hv.
  cbv zeta in Hv. rewrite <- Hdiv in Hv.
  exists (y * F64.two_to (ea - eb - 53))%Q. split; [|exact Hv].
  rewrite !to_Q_nf by lia. subst y.
  rewrite inject_Z_mult. change (inject_Z (2 ^ 53)) with (F64.two_to 53).
  assert (HmbQ : (0 < inject_Z mb)%Q) by (unfold Qlt; cbn; lia).
  assert (E : (F64.two_to 53 * F64.two_to (ea - eb - 53) * F64.two_to eb == F64.two_to ea)%Q).
  { rewrite <- !two_to_add. replace (53 + (ea - eb - 53) + eb) with ea by lia.
    reflexivity. }
  rewrite <- E. field. lra.
Qed.


Lemma mul_hundred_value mx ex :
  2 ^ 52 <= mx < 2 ^ 53 -> -200 <= ex <= -52 ->
  (F64.to_Q (SFmul 53 1024 (nf mx ex) (F64.of_int 100)) * (1 - u)
     <= F64.to_Q (nf mx ex) * 100
   /\ F64.to_Q (nf mx ex) * 100
     <= F64.to_Q (SFmul 53 1024 (nf mx ex) (F64.of_int 100)) * (1 + u))%Q.
Proof.
  intros Hmx Hex.
  assert (H52 : 2 ^ 52 = 4503599627370496) by reflexivity.
  assert (H53 : 2 ^ 53 = 9007199254740992) by reflexivity.
  assert (H100 : 25 * 2 ^ 48 = 7036874417766400) by reflexivity.
  destruct (mul_hundred_char mx ex Hmx) as (Hmul & HM0 & Hd).
  rewrite Hmul.
  set (M := mx * (25 * 2 ^ 48)) in *.
  assert (Hc : at_code (4 * M + loc_code loc_Exact) (inject_Z M)).
  { cbn [loc_code]. rewrite Z.add_0_r. unfold at_code.
    rewrite Z.even_mul. cbn [Z.even orb]. rewrite inject_Z_mult. reflexivity. }
  pose proof (bra_normal_value M (ex + -46) loc_Exact (inject_Z M)
                HM0 ltac:(lia) ltac:(lia) ltac:(lia) Hc) as Hv.
  cbv zeta in Hv.
  assert (E : (inject_Z M * F64.two_to (ex + -46) == F64.to_Q (nf mx ex) * 100)%Q).
  { rewrite to_Q_nf by lia. subst M. rewrite inject_Z_mult, two_to_add.
    assert (E100 : (inject_Z (25 * 2 ^ 48) * F64.two_to (-46) == 100)%Q) by reflexivity.
    rewrite <- E100. ring. }
  rewrite E in Hv. exact Hv.
Qed.

(** The relative error of the quotient of the two conversions. *)
Lemma ratio_bounds (rho A B cq vq tau : Q) :
  (0 < A)%Q -> (0 < B)%Q -> (0 < vq)%Q -> (0 < cq)%Q ->
  (rho * B == A)%Q -> (tau * vq == cq)%Q ->
  (A * (1 - u) <= cq /\ cq <= A * (1 + u))%Q ->
  (B * (1 - u) <= vq /\ vq <= B * (1 + u))%Q ->
  (rho * (1 - u) <= tau * (1 + u) /\ tau * (1 - u) <= rho * (1 + u))%Q.
Proof.
  intros HA HB Hv Hc Hrho Htau [A1 A2] [B1 B2].
  assert (Hu : (0 < u /\ u < 1)%Q) by (unfold u; split; reflexivity).
  assert (Hrho0 : (0 < rho)%Q).
  { destruct (Qlt_le_dec 0 rho) as [H|H]; [exact H|exfalso].
    assert ((rho * B <= 0 * B)%Q) by (apply Qmult_le_compat_r; lra). lra. }
  assert (Htau0 : (0 < tau)%Q).
  { destruct (Qlt_le_dec 0 tau) as [H|H]; [exact H|exfalso].
    assert ((tau * vq <= 0 * vq)%Q) by (apply Qmult_le_compat_r; lra). lra. }
  split.
  - apply (Qmult_le_r _ _ B HB).
    assert (E1 : (rho * (1 - u) * B == A * (1 - u))%Q) by (rewrite <- Hrho; ring).
    assert (S1 : (tau * vq <= tau * (B * (1 + u)))%Q).
    { apply Qmult_le_l; [exact Htau0|exact B2]. }
    assert (E2 : (tau * (B * (1 + u)) == tau * (1 + u) * B)%Q) by ring.
    lra.
  - apply (Qmult_le_r _ _ B HB).
    assert (E1 : (rho * (1 + u) * B == A * (1 + u))%Q) by (rewrite <- Hrho; ring).
    assert (S1 : (tau * (B * (1 - u)) <= tau * vq)%Q).
    { apply Qmult_le_l; [exact Htau0|exact B1]. }
    assert (E2 : (tau * (B * (1 - u)) == tau * (1 - u) * B)%Q) by ring.
    lra.
Qed.

Lemma to_Q_nf_pos m e : 0 < m -> (0 < F64.to_Q (nf m e))%Q.
Proof.
  intros Hm. rewrite to_Q_nf by exact Hm.
  apply Qmult_lt_0_compat; [unfold Qlt; cbn; lia|apply two_to_pos].
Qed.

(** The percentage of two counts against the exact quotient. *)
Lemma percent_close c v :
  0 < c <= v -> v < 2 ^ 63 ->
  let p := processing.percent c v in
  let T := (inject_Z (100 * c) / inject_Z v)%Q in
  F64.is_finite p = true /\ (Qabs (F64.to_Q p - T) <= T * eps)%Q.
Proof.
  intros Hc Hv p T.
  assert (H52 : 2 ^ 52 = 4503599627370496) by reflexivity.
  subst p. rewrite percent_some_valid by lia. unfold F64.mul, F64.div.
  change F64.prec with 53. change F64.emax with 1024.
  destruct (of_int_char v ltac:(lia)) as [Mv Ev].
  destruct (of_int_char c ltac:(lia)) as [Mc Ec].
  pose proof (of_int_value c ltac:(lia)) as Vc.
  pose proof (of_int_value v ltac:(lia)) as Vv.
  rewrite renorm_carry in Ev, Ec.
  destruct (carry_range _ (Zdigits2 v - 53) Mv) as (T1 & T2 & T3).
  destruct (carry_range _ (Zdigits2 c - 53) Mc) as (A1 & A2 & A3).
  assert (Hdv : 1 <= Zdigits2 v <= 63).
  { destruct (Zdigits2_spec v ltac:(lia)) as [Hd1 [Dlo _]]. split; [exact Hd1|].
    destruct (Z.le_gt_cases (Zdigits2 v) 63) as [H|H]; [exact H|].
    assert (2 ^ 63 <= 2 ^ (Zdigits2 v - 1)) by (apply Z.pow_le_mono_r; lia). lia. }
  assert (Hdc : 1 <= Zdigits2 c <= 63).
  { destruct (Zdigits2_spec c ltac:(lia)) as [Hd1 _]. split; [exact Hd1|].
    pose proof (Zdigits2_mono c v ltac:(lia) ltac:(lia)). lia. }
  pose proof (of_int_mono c v ltac:(lia) ltac:(lia) ltac:(lia)) as Hle.
  destruct (carry (int_mantissa c) (Zdigits2 c - 53)) as [ma ea].
  destruct (carry (int_mantissa v) (Zdigits2 v - 53)) as [mb eb].
  cbn [fst snd] in *.
  rewrite Ec, Ev in *.
  destruct (div_le_one ma ea mb eb A1 T1 ltac:(lia) ltac:(lia) Hle)
    as (m & e & Hdiv & Hm & He & Hone).
  destruct (div_value ma ea mb eb A1 T1 ltac:(lia) ltac:(lia))
    as (rho & Hrho & R1 & R2).
  rewrite Hdiv in *.
  destruct (mul_hundred_le m e Hm He Hone) as (m' & e' & Hmul & Hm' & _).
  pose proof (mul_hundred_value m e Hm ltac:(lia)) as [P1 P2].
  rewrite Hmul in *.
  split; [reflexivity|].
  pose proof (to_Q_nf_pos ma ea ltac:(lia)) as HA.
  pose proof (to_Q_nf_pos mb eb ltac:(lia)) as HB.
  pose proof (to_Q_nf_pos m e ltac:(lia)) as HX.
  pose proof (to_Q_nf_pos m' e' ltac:(lia)) as HR.
  assert (Hcq : (0 < inject_Z c)%Q) by (unfold Qlt; cbn; lia).
  assert (Hvq : (0 < inject_Z v)%Q) by (unfold Qlt; cbn; lia).
  set (tau := (inject_Z c / inject_Z v)%Q).
  assert (Htau : (tau * inject_Z v == inject_Z c)%Q) by (subst tau; field; lra).
  destruct (ratio_bounds rho _ _ (inject_Z c) (inject_Z v) tau
              HA HB Hvq Hcq Hrho Htau Vc Vv) as [Q1 Q2].
  assert (HT : (T == 100 * tau)%Q).
  { subst T tau. rewrite inject_Z_mult. change (inject_Z 100) with 100%Q.
    field. lra. }
  assert (Htau0 : (0 < tau)%Q).
  { destruct (Qlt_le_dec 0 tau) as [H|H]; [exact H|exfalso].
    assert ((tau * inject_Z v <= 0 * inject_Z v)%Q)
      by (apply Qmult_le_compat_r; lra). lra. }
  apply Qabs_Qle_condition. rewrite HT. unfold u, eps in *. split; lra.
Qed.

End Binary64Values.

Section NightPathValue.

Import Rounding processing.

Lemma percent_none_cloudy v :
  0 < v < 2 ^ 63 -> percent 0 v = S754_zero false.
Proof.
  intros Hv. rewrite percent_some_valid by lia.
  destruct (of_int_char v Hv) as [_ Hof]. rewrite Hof.
  unfold renorm. destruct (int_mantissa v =? 2 ^ 53); reflexivity.
Qed.

(** The percentage of [c] marked pixels among [v] valid ones is a finite
    float within a relative error of [2^-50] of [100 c / v]. *)
Lemma percent_value c v :
  0 <= c <= v -> 0 < v < 2 ^ 63 ->
  F64.is_finite (percent c v) = true
  /\ (Qabs (F64.to_Q (percent c v) - inject_Z (100 * c) / inject_Z v)
      <= inject_Z (100 * c) / inject_Z v * eps)%Q.
Proof.
  intros Hc Hv. destruct (Z.eq_dec c 0) as [->|Hne].
  - rewrite percent_none_cloudy by exact Hv. split; [reflexivity|].
    cbn [F64.to_Q]. change (inject_Z (100 * 0)) with 0%Q.
    assert (E : (0 / inject_Z v == 0)%Q) by (unfold Qdiv; ring).
    rewrite E. cbn. discriminate.
  - apply (percent_close c v); lia.
Qed.

(** The float of the sample band is not the one nearest to 200/3, which is
    what dividing 200.0 by 3.0 gives: the division comes first. *)
Remark percent_2_of_3 :
  percent 2 3 = nf 4691249611844266 (-46)
  /\ F64.div (F64.of_int 200) (F64.of_int 3) = nf 4691249611844267 (-46).
Proof. split; reflexivity. Qed.

End NightPathValue.

(** C1. On a scan that holds the IR band, the night path with the threshold
    280.0 returns the percentage of the pixels strictly below the threshold
    among the pixels that are numbers: NaN when no pixel is a number, and
    otherwise the binary64 quotient of the two counts times 100, a finite
    float within a relative error of [2^-50] of [100 * cloudy / valid]. For
    the band [270, 290, NaN, 275] the counts are 2 and 3 and the result is
    the float 66.66666666666666, less than [2^-46] away from 200/3; for a
    band of NaNs the result is NaN. *)
Theorem classify_ir_percentage :
  (forall ds data,
     xr.data_vars ds !! processing.default_ir_band = Some data ->
     spec.fits_index data ->
     let c := spec.cloudy_count data processing.default_ir_threshold in
     let v := spec.valid_count data in
     processing.calc_cloud_fraction_ir ds processing.default_ir_band
       processing.default_ir_threshold = Ok (processing.percent c v)
     /\ (v = 0 -> processing.percent c v = F64.nan)
     /\ (0 < v ->
         processing.percent c v
         = F64.mul (F64.div (F64.of_int c) (F64.of_int v)) (F64.of_int 100)
         /\ F64.is_finite (processing.percent c v) = true
         /\ (Qabs (F64.to_Q (processing.percent c v)
                   - inject_Z (100 * c) / inject_Z v)
             <= inject_Z (100 * c) / inject_Z v * Rounding.eps)%Q))
  /\ spec.cloudy_count (sample.row [sample.f 270; sample.f 290; F64.nan; sample.f 275])
       processing.default_ir_threshold = 2
  /\ spec.valid_count (sample.row [sample.f 270; sample.f 290; F64.nan; sample.f 275])
     = 3
  /\ processing.calc_cloud_fraction_ir sample.ir_gap processing.default_ir_band
       processing.default_ir_threshold
     = Ok (Rounding.nf 4691249611844266 (-46))
  /\ (Qabs (F64.to_Q (Rounding.nf 4691249611844266 (-46)) - (200 # 3))
      <= 1 # 70368744177664)%Q
  /\ processing.calc_cloud_fraction_ir sample.ir_blank processing.default_ir_band
       processing.default_ir_threshold
     = Ok F64.nan.
Proof.
  split; [|repeat split; vm_compute; congruence].
  intros ds data Hband Hfits c v. split; [|split].
  - rewrite (calc_ir_counts ds _ _ data Hband Hfits).
    unfold processing.default_ir_threshold. rewrite as_dtype_280. reflexivity.
  - intros ->. apply percent_no_valid.
  - intros Hv. split; [apply percent_some_valid; exact Hv|].
    apply percent_value.
    + split; [apply cloudy_count_nonneg|apply cloudy_le_valid].
    + split; [exact Hv|].
      pose proof (valid_count_bound data). unfold spec.fits_index in Hfits.
      subst v. lia.
Qed.

Lemma classify_ir_percentage_witness :
  processing.calc_cloud_fraction_ir sample.ir_gap processing.default_ir_band
    processing.default_ir_threshold
  = Ok (processing.percent
          (spec.cloudy_count
             (sample.row [sample.f 270; sample.f 290; F64.nan; sample.f 275])
             processing.default_ir_threshold)
          (spec.valid_count
             (sample.row [sample.f 270; sample.f 290; F64.nan; sample.f 275]))).
Proof.
  refine (proj1 (proj1 classify_ir_percentage sample.ir_gap
    (sample.row [sample.f 270; sample.f 290; F64.nan; sample.f 275]) _ _)).
  - reflexivity.
  - vm_compute. reflexivity.
Defined.

(** * Further properties of the code *)

(** ** Object names and addresses *)

Section ObjectNames.

Lemma append_cons a (s1 s2 : string) : String a s1 +:+ s2 = String a (s1 +:+ s2).
Proof. reflexivity. Qed.

Lemma append_nil (s : string) : EmptyString +:+ s = s.
Proof. reflexivity. Qed.

Lemma append_assoc (s1 s2 s3 : string) : (s1 +:+ s2) +:+ s3 = s1 +:+ (s2 +:+ s3).
Proof.
  induction s1 as [|a s1 IH]; [reflexivity|].
  rewrite !append_cons, IH. reflexivity.
Qed.

Lemma after_first_app c s1 s2 :
  Str.after_first c s1 = None ->
  Str.after_first c (s1 +:+ String c s2) = Some s2.
Proof.
  induction s1 as [|a s1 IH]; rewrite ?append_cons, ?append_nil; cbn.
  - intros _. rewrite Ascii.eqb_refl. reflexivity.
  - destruct (Ascii.eqb a c); [discriminate|exact IH].
Qed.

Lemma before_first_app c s1 s2 :
  Str.after_first c s1 = None ->
  Str.before_first c (s1 +:+ String c s2) = s1.
Proof.
  induction s1 as [|a s1 IH]; rewrite ?append_cons, ?append_nil; cbn.
  - intros _. rewrite Ascii.eqb_refl. reflexivity.
  - destruct (Ascii.eqb a c); [discriminate|].
    intros H. rewrite (IH H). reflexivity.
Qed.

(** A name with a separator is its first segment, the separator and the
    rest. *)
Lemma split_join c s r :
  Str.after_first c s = Some r ->
  s = Str.before_first c s +:+ String c r
  /\ Str.after_first c (Str.before_first c s) = None.
Proof.
  induction s as [|a s IH]; cbn; [discriminate|].
  destruct (Ascii.eqb_spec a c) as [->|Hne].
  - intros [= ->]. split; reflexivity.
  - intros H. destruct (IH H) as [E N]. cbn.
    destruct (Ascii.eqb_spec a c); [contradiction|].
    split; [rewrite append_cons; f_equal; exact E|exact N].
Qed.

Lemma after_last_none c s : Str.after_first c s = None -> Str.after_last c s = s.
Proof.
  destruct s as [|a s]; cbn; [reflexivity|].
  destruct (Ascii.eqb a c); [discriminate|].
  intros ->. reflexivity.
Qed.

(** Whatever precedes a separator has no part in what follows the last one. *)
Lemma after_last_app c s1 s2 :
  Str.after_last c (s1 +:+ String c s2) = Str.after_last c s2.
Proof.
  induction s1 as [|a s1 IH].
  - rewrite append_nil. cbn. rewrite Ascii.eqb_refl.
    destruct (Str.after_first c s2) eqn:E; [reflexivity|].
    symmetry. apply after_last_none. exact E.
  - rewrite append_cons. cbn [Str.after_last].
    assert (H : exists r, Str.after_first c (s1 +:+ String c s2) = Some r).
    { clear IH. induction s1 as [|b s1 IH]; rewrite ?append_cons, ?append_nil; cbn.
      - rewrite Ascii.eqb_refl. eexists. reflexivity.
      - destruct (Ascii.eqb b c); [eexists; reflexivity|exact IH]. }
    destruct H as [r ->]. destruct (Ascii.eqb a c); exact IH.
Qed.

(** The file that the handler writes is named after the listed object. *)
Lemma basename_object_url satellite path :
  Str.basename (backend.object_url satellite path) = Str.basename path.
Proof.
  unfold Str.basename, backend.object_url.
  change (".s3.amazonaws.com/" +:+ path)
    with (".s3.amazonaws.com" +:+ String "/" path).
  rewrite <- !append_assoc. apply after_last_app.
Qed.

Lemma basename_listed latest path :
  Str.split1_snd "/" latest = Ok path ->
  Str.basename path = Str.basename latest.
Proof.
  unfold Str.split1_snd.
  destruct (Str.after_first "/" latest) as [r|] eqn:E; [|discriminate].
  intros [= ->]. destruct (split_join _ _ _ E) as [Hs _].
  unfold Str.basename.
  rewrite <- (after_last_app "/" (Str.before_first "/" latest) path), <- Hs.
  reflexivity.
Qed.

Lemma split_named satellite rest :
  Str.after_first "/" satellite = None ->
  Str.before_first "/" (satellite +:+ "/" +:+ rest) = satellite
  /\ Str.split1_snd "/" (satellite +:+ "/" +:+ rest) = Ok rest.
Proof.
  intros H. change ("/" +:+ rest) with (String "/" rest).
  unfold Str.split1_snd.
  rewrite before_first_app, after_first_app by exact H. split; reflexivity.
Qed.

End ObjectNames.

(** ** The request handler, path by path *)

Section HandlerPaths.

Import os backend.

Variable ls : string -> Result (list string).
Variable now : datetime.t.
Variable run_process : list string -> gset string -> Z * gset string.
Variable open_dataset : string -> gset string -> Result xr.Dataset.
Variable fromisoformat : string -> Result datetime.t.
Variable round2 : F64.float -> F64.float.

(** The body of the [try] block reads the world and leaves it as it is. *)
Lemma process_file_reads local_file path w :
  process_file open_dataset fromisoformat round2 local_file path w
  = (ds ← open_dataset local_file (files w);
     cloud_percent ← processing.calc_cloud_fraction fromisoformat ds;
     Ok (CloudCover (round2 cloud_percent) path), w).
Proof.
  unfold process_file, bind, lift, ret.
  destruct (open_dataset local_file (files w)) as [ds|e]; [|reflexivity].
  rewrite result_bind_ok.
  destruct (processing.calc_cloud_fraction fromisoformat ds); reflexivity.
Qed.

Lemma split_truthy latest path :
  Str.split1_snd "/" latest = Ok path -> truthy latest = true.
Proof. destruct latest; [discriminate|reflexivity]. Qed.

(** The handler from the exit of the transfer on. *)
Lemma handler_after_transfer latest path w rc fs :
  ingestion.get_latest_goes_file ls now
    ingestion.default_product ingestion.default_satellite = Some latest ->
  Str.split1_snd "/" latest = Ok path ->
  let command := ["wget"; "-q"; object_url (Str.before_first "/" latest) path;
                  "-O"; Str.basename latest] in
  run_process command (files w) = (rc, fs) ->
  let w1 := mk_World fs (command :: spawned w) in
  get_cloud_cover ls now run_process open_dataset fromisoformat round2 w
  = if (rc =? 0) && truthy (Str.basename latest)
    then try_finally
           (process_file open_dataset fromisoformat round2 (Str.basename latest) path)
           (remove (Str.basename latest)) w1
    else (Ok (Error "Failed to download GOES file"), w1).
Proof.
  intros Hlatest Hpath command Hrun w1.
  unfold get_cloud_cover. rewrite Hlatest, (split_truthy _ _ Hpath). cbn [negb].
  unfold bind, lift. rewrite Hpath.
  unfold ingestion.run_wget, ingestion.subprocess_run.
  rewrite basename_object_url, (basename_listed _ _ Hpath).
  fold command. rewrite Hrun. fold w1.
  destruct (rc =? 0); [|reflexivity].
  destruct (truthy (Str.basename latest)); reflexivity.
Qed.

Lemma handler_fetched latest path w fs :
  ingestion.get_latest_goes_file ls now
    ingestion.default_product ingestion.default_satellite = Some latest ->
  Str.split1_snd "/" latest = Ok path ->
  let local_file := Str.basename latest in
  let command := ["wget"; "-q"; object_url (Str.before_first "/" latest) path;
                  "-O"; local_file] in
  run_process command (files w) = (0, fs) ->
  truthy local_file = true ->
  local_file ∈ fs ->
  get_cloud_cover ls now run_process open_dataset fromisoformat round2 w
  = (ds ← open_dataset local_file fs;
     cloud_percent ← processing.calc_cloud_fraction fromisoformat ds;
     Ok (CloudCover (round2 cloud_percent) path),
     mk_World (fs ∖ {[local_file]}) (command :: spawned w)).
Proof.
  intros Hlatest Hpath local_file command Hrun Ht Hin.
  rewrite (handler_after_transfer latest path w 0 fs Hlatest Hpath Hrun).
  fold local_file command. rewrite Ht. cbn [Z.eqb andb].
  unfold try_finally. rewrite process_file_reads. cbn [files].
  unfold remove. cbn [files spawned].
  rewrite bool_decide_eq_true_2 by exact Hin. reflexivity.
Qed.

End HandlerPaths.

(** X1. A listed object [satellite/rest] whose transfer exits with status 0 and
    leaves its file, and whose scan loads and classifies, is answered with the
    rounded percentage and with [rest] as the source file; afterwards the
    files are the ones the transfer left without the downloaded one. *)
Theorem handler_end_to_end
  ls now run_process open_dataset fromisoformat round2
  (w : os.World) (satellite rest : string) (fs : gset string)
  (ds : xr.Dataset) (p : F64.float) :
  ingestion.get_latest_goes_file ls now
    ingestion.default_product ingestion.default_satellite
  = Some (satellite +:+ "/" +:+ rest) ->
  Str.after_first "/" satellite = None ->
  let local_file := Str.basename rest in
  let command := ["wget"; "-q";
                  "https://" +:+ satellite +:+ ".s3.amazonaws.com/" +:+ rest;
                  "-O"; local_file] in
  run_process command (os.files w) = (0, fs) ->
  truthy local_file = true ->
  local_file ∈ fs ->
  open_dataset local_file fs = Ok ds ->
  processing.calc_cloud_fraction fromisoformat ds = Ok p ->
  backend.get_cloud_cover ls now run_process open_dataset fromisoformat round2 w
  = (Ok (backend.CloudCover (round2 p) rest),
     os.mk_World (fs ∖ {[local_file]}) (command :: os.spawned w)).
Proof.
  intros Hlatest Hsat local_file command Hrun Ht Hin Hds Hp.
  destruct (split_named satellite rest Hsat) as [Hb Hs].
  pose proof (basename_listed _ _ Hs) as Hbase.
  pose proof (handler_fetched ls now run_process open_dataset fromisoformat round2
                _ _ w fs Hlatest Hs) as H.
  cbv zeta in H. rewrite Hb, <- Hbase in H.
  rewrite (H Hrun Ht Hin). fold local_file. rewrite Hds, result_bind_ok, Hp.
  reflexivity.
Qed.

Lemma handler_end_to_end_witness :
  backend.get_cloud_cover sample.ls_two sample.noon sample.wget_ok
    sample.open_bright datetime.fromisoformat_extended (fun x => x)
    sample.empty_world
  = (Ok (backend.CloudCover (F64.of_int 200)
           "ABI-L2-MCMIPC/2025/080/12/OR_s1205.nc"),
     os.mk_World (({[ "OR_s1205.nc" ]} : gset string) ∖ {[ "OR_s1205.nc" ]})
       [["wget"; "-q";
         "https://noaa-goes19.s3.amazonaws.com/ABI-L2-MCMIPC/2025/080/12/OR_s1205.nc";
         "-O"; "OR_s1205.nc"]]).
Proof.
  refine (handler_end_to_end sample.ls_two sample.noon sample.wget_ok
    sample.open_bright datetime.fromisoformat_extended (fun x => x)
    sample.empty_world "noaa-goes19" "ABI-L2-MCMIPC/2025/080/12/OR_s1205.nc"
    {[ "OR_s1205.nc" ]} sample.bright_gap (F64.of_int 200) _ _ _ _ _ _ _).
  - reflexivity.
  - reflexivity.
  - vm_compute. reflexivity.
  - reflexivity.
  - apply elem_of_singleton. reflexivity.
  - vm_compute. reflexivity.
  - vm_compute. reflexivity.
Defined.

(** X2. When the loader or the classifier raises, the handler raises the same
    exception: the failure is not turned into an error payload. The downloaded
    file is removed all the same. *)
Theorem handler_propagates_failure
  ls now run_process open_dataset fromisoformat round2
  (w : os.World) (satellite rest : string) (fs : gset string) (e : exn) :
  ingestion.get_latest_goes_file ls now
    ingestion.default_product ingestion.default_satellite
  = Some (satellite +:+ "/" +:+ rest) ->
  Str.after_first "/" satellite = None ->
  let local_file := Str.basename rest in
  let command := ["wget"; "-q";
                  "https://" +:+ satellite +:+ ".s3.amazonaws.com/" +:+ rest;
                  "-O"; local_file] in
  run_process command (os.files w) = (0, fs) ->
  truthy local_file = true ->
  local_file ∈ fs ->
  (open_dataset local_file fs = Raise e
   \/ exists ds, open_dataset local_file fs = Ok ds
                 /\ processing.calc_cloud_fraction fromisoformat ds = Raise e) ->
  backend.get_cloud_cover ls now run_process open_dataset fromisoformat round2 w
  = (Raise e, os.mk_World (fs ∖ {[local_file]}) (command :: os.spawned w)).
Proof.
  intros Hlatest Hsat local_file command Hrun Ht Hin Hfail.
  destruct (split_named satellite rest Hsat) as [Hb Hs].
  pose proof (basename_listed _ _ Hs) as Hbase.
  pose proof (handler_fetched ls now run_process open_dataset fromisoformat round2
                _ _ w fs Hlatest Hs) as H.
  cbv zeta in H. rewrite Hb, <- Hbase in H.
  rewrite (H Hrun Ht Hin). fold local_file.
  destruct Hfail as [Hds|(ds & Hds & Hp)].
  - rewrite Hds. reflexivity.
  - rewrite Hds, result_bind_ok, Hp. reflexivity.
Qed.

Lemma handler_propagates_failure_witness :
  backend.get_cloud_cover sample.ls_two sample.noon sample.wget_ok
    (fun _ _ => Ok sample.no_ir) datetime.fromisoformat_extended (fun x => x)
    sample.empty_world
  = (Raise (KeyError "CMI_C13"),
     os.mk_World (({[ "OR_s1205.nc" ]} : gset string) ∖ {[ "OR_s1205.nc" ]})
       [["wget"; "-q";
         "https://noaa-goes19.s3.amazonaws.com/ABI-L2-MCMIPC/2025/080/12/OR_s1205.nc";
         "-O"; "OR_s1205.nc"]]).
Proof.
  refine (handler_propagates_failure sample.ls_two sample.noon sample.wget_ok
    (fun _ _ => Ok sample.no_ir) datetime.fromisoformat_extended (fun x => x)
    sample.empty_world "noaa-goes19" "ABI-L2-MCMIPC/2025/080/12/OR_s1205.nc"
    {[ "OR_s1205.nc" ]} (KeyError "CMI_C13") _ _ _ _ _ _).
  - reflexivity.
  - reflexivity.
  - vm_compute. reflexivity.
  - reflexivity.
  - apply elem_of_singleton. reflexivity.
  - right. exists sample.no_ir. split; reflexivity.
Defined.

(** X3. When the transfer exits with status 0 without leaving its file, the
    handler raises the [FileNotFoundError] of [os.remove], whatever the loader
    and the classifier did: the exception of the cleanup replaces the outcome
    of the body. *)
Theorem handler_missing_file
  ls now run_process open_dataset fromisoformat round2
  (w : os.World) (satellite rest : string) (fs : gset string) :
  ingestion.get_latest_goes_file ls now
    ingestion.default_product ingestion.default_satellite
  = Some (satellite +:+ "/" +:+ rest) ->
  Str.after_first "/" satellite = None ->
  let local_file := Str.basename rest in
  let command := ["wget"; "-q";
                  "https://" +:+ satellite +:+ ".s3.amazonaws.com/" +:+ rest;
                  "-O"; local_file] in
  run_process command (os.files w) = (0, fs) ->
  truthy local_file = true ->
  local_file ∉ fs ->
  backend.get_cloud_cover ls now run_process open_dataset fromisoformat round2 w
  = (Raise (FileNotFoundError local_file),
     os.mk_World fs (command :: os.spawned w)).
Proof.
  intros Hlatest Hsat local_file command Hrun Ht Hout.
  destruct (split_named satellite rest Hsat) as [Hb Hs].
  pose proof (basename_listed _ _ Hs) as Hbase.
  pose proof (handler_after_transfer ls now run_process open_dataset fromisoformat
                round2 _ _ w 0 fs Hlatest Hs) as H.
  cbv zeta in H. rewrite Hb, <- Hbase in H.
  rewrite (H Hrun). fold local_file command. rewrite Ht. cbn [Z.eqb andb].
  unfold os.try_finally. rewrite process_file_reads.
  unfold os.remove. cbn [os.files].
  rewrite bool_decide_eq_false_2 by exact Hout. reflexivity.
Qed.

Lemma handler_missing_file_witness :
  backend.get_cloud_cover sample.ls_two sample.noon
    (fun _ fs => (0, fs)) (fun _ _ => Ok sample.bright_gap)
    datetime.fromisoformat_extended (fun x => x) sample.empty_world
  = (Raise (FileNotFoundError "OR_s1205.nc"),
     os.mk_World ∅
       [["wget"; "-q";
         "https://noaa-goes19.s3.amazonaws.com/ABI-L2-MCMIPC/2025/080/12/OR_s1205.nc";
         "-O"; "OR_s1205.nc"]]).
Proof.
  refine (handler_missing_file sample.ls_two sample.noon
    (fun _ fs => (0, fs)) (fun _ _ => Ok sample.bright_gap)
    datetime.fromisoformat_extended (fun x => x)
    sample.empty_world "noaa-goes19" "ABI-L2-MCMIPC/2025/080/12/OR_s1205.nc"
    ∅ _ _ _ _ _).
  - reflexivity.
  - reflexivity.
  - reflexivity.
  - reflexivity.
  - apply not_elem_of_empty.
Defined.

(** X4. When the transfer exits with another status than 0, the handler
    answers the download error and removes nothing: the files afterwards are
    exactly the ones the transfer left, a partial output included. *)
Theorem handler_failed_transfer
  ls now run_process open_dataset fromisoformat round2
  (w : os.World) (satellite rest : string) (rc : Z) (fs : gset string) :
  ingestion.get_latest_goes_file ls now
    ingestion.default_product ingestion.default_satellite
  = Some (satellite +:+ "/" +:+ rest) ->
  Str.after_first "/" satellite = None ->
  let command := ["wget"; "-q";
                  "https://" +:+ satellite +:+ ".s3.amazonaws.com/" +:+ rest;
                  "-O"; Str.basename rest] in
  run_process command (os.files w) = (rc, fs) ->
  rc <> 0 ->
  backend.get_cloud_cover ls now run_process open_dataset fromisoformat round2 w
  = (Ok (backend.Error "Failed to download GOES file"),
     os.mk_World fs (command :: os.spawned w)).
Proof.
  intros Hlatest Hsat command Hrun Hrc.
  destruct (split_named satellite rest Hsat) as [Hb Hs].
  pose proof (basename_listed _ _ Hs) as Hbase.
  pose proof (handler_after_transfer ls now run_process open_dataset fromisoformat
                round2 _ _ w rc fs Hlatest Hs) as H.
  cbv zeta in H. rewrite Hb, <- Hbase in H.
  rewrite (H Hrun). fold command.
  destruct (Z.eqb_spec rc 0); [contradiction|reflexivity].
Qed.

Lemma handler_failed_transfer_witness :
  backend.get_cloud_cover sample.ls_two sample.noon sample.wget_fail
    sample.open_bright datetime.fromisoformat_extended (fun x => x)
    sample.empty_world
  = (Ok (backend.Error "Failed to download GOES file"),
     os.mk_World (∅ ∪ {[ "OR_s1205.nc" ]})
       [["wget"; "-q";
         "https://noaa-goes19.s3.amazonaws.com/ABI-L2-MCMIPC/2025/080/12/OR_s1205.nc";
         "-O"; "OR_s1205.nc"]]).
Proof.
  refine (handler_failed_transfer sample.ls_two sample.noon sample.wget_fail
    sample.open_bright datetime.fromisoformat_extended (fun x => x)
    sample.empty_world "noaa-goes19" "ABI-L2-MCMIPC/2025/080/12/OR_s1205.nc"
    4 (∅ ∪ {[ "OR_s1205.nc" ]}) _ _ _ _).
  - reflexivity.
  - reflexivity.
  - reflexivity.
  - discriminate.
Defined.

(** X5. A listed name without a slash makes the handler raise [IndexError]
    before anything is fetched: no command is run and no file changes. *)
Theorem handler_name_without_slash
  ls now run_process open_dataset fromisoformat round2
  (w : os.World) (latest : string) :
  ingestion.get_latest_goes_file ls now
    ingestion.default_product ingestion.default_satellite = Some latest ->
  truthy latest = true ->
  Str.after_first "/" latest = None ->
  backend.get_cloud_cover ls now run_process open_dataset fromisoformat round2 w
  = (Raise IndexError, w).
Proof.
  intros Hlatest Ht Hno. unfold backend.get_cloud_cover.
  rewrite Hlatest, Ht. cbn [negb]. unfold os.bind, os.lift, Str.split1_snd.
  rewrite Hno. reflexivity.
Qed.

Lemma handler_name_without_slash_witness :
  backend.get_cloud_cover (fun _ => Ok ["OR_s1205.nc"]) sample.noon sample.wget_ok
    sample.open_bright datetime.fromisoformat_extended (fun x => x)
    sample.empty_world
  = (Raise IndexError, sample.empty_world).
Proof.
  refine (handler_name_without_slash (fun _ => Ok ["OR_s1205.nc"]) sample.noon
    sample.wget_ok sample.open_bright datetime.fromisoformat_extended
    (fun x => x) sample.empty_world "OR_s1205.nc" _ _ _); reflexivity.
Defined.

(** X6. Whatever the listing of the hour raises, and also when it is empty,
    the handler answers that no recent file was found; nothing is run and no
    file changes. *)
Theorem handler_without_listing
  ls now run_process open_dataset fromisoformat round2 (w : os.World) :
  (ls (ingestion.hour_prefix ingestion.default_product
         ingestion.default_satellite now) = Ok []
   \/ exists e, ls (ingestion.hour_prefix ingestion.default_product
                      ingestion.default_satellite now) = Raise e) ->
  backend.get_cloud_cover ls now run_process open_dataset fromisoformat round2 w
  = (Ok (backend.Error "No recent GOES files found"), w).
Proof.
  intros H. unfold backend.get_cloud_cover, ingestion.get_latest_goes_file,
    ingestion.latest_in_listing.
  destruct H as [-> | [e ->]]; reflexivity.
Qed.

Lemma handler_without_listing_witness :
  backend.get_cloud_cover (fun _ => Raise (ValueError "no route to host"))
    sample.noon sample.wget_ok sample.open_bright
    datetime.fromisoformat_extended (fun x => x) sample.empty_world
  = (Ok (backend.Error "No recent GOES files found"), sample.empty_world).
Proof.
  refine (handler_without_listing (fun _ => Raise (ValueError "no route to host"))
    sample.noon sample.wget_ok sample.open_bright
    datetime.fromisoformat_extended (fun x => x) sample.empty_world _).
  right. exists (ValueError "no route to host"). reflexivity.
Defined.

(** X7. A request runs at most one command: none when no object is listed or
    the listed name has no slash, and otherwise, whatever the transfer, the
    loader and the classifier do, the one [wget] of the object's address into
    a file named after the object. *)
Theorem handler_runs_one_transfer
  ls now run_process open_dataset fromisoformat round2 (w : os.World) :
  os.spawned
    (snd (backend.get_cloud_cover ls now run_process open_dataset
            fromisoformat round2 w))
  = match ingestion.get_latest_goes_file ls now
            ingestion.default_product ingestion.default_satellite with
    | Some latest =>
        match Str.split1_snd "/" latest with
        | Ok path =>
            ["wget"; "-q";
             backend.object_url (Str.before_first "/" latest) path;
             "-O"; Str.basename latest] :: os.spawned w
        | Raise _ => os.spawned w
        end
    | None => os.spawned w
    end.
Proof.
  destruct (ingestion.get_latest_goes_file ls now ingestion.default_product
              ingestion.default_satellite) as [latest|] eqn:Hlatest.
  - destruct (Str.split1_snd "/" latest) as [path|e] eqn:Hpath.
    + destruct (run_process
                  ["wget"; "-q";
                   backend.object_url (Str.before_first "/" latest) path;
                   "-O"; Str.basename latest] (os.files w)) as [rc fs] eqn:Hrun.
      rewrite (handler_after_transfer ls now run_process open_dataset
                 fromisoformat round2 latest path w rc fs Hlatest Hpath Hrun).
      destruct ((rc =? 0) && truthy (Str.basename latest)); [|reflexivity].
      unfold os.try_finally. rewrite process_file_reads.
      unfold os.remove. cbn [os.files os.spawned].
      destruct (bool_decide _); reflexivity.
    + unfold backend.get_cloud_cover. rewrite Hlatest.
      destruct (truthy latest); cbn [negb]; [|reflexivity].
      unfold os.bind, os.lift. rewrite Hpath. reflexivity.
  - unfold backend.get_cloud_cover. rewrite Hlatest. reflexivity.
Qed.

(** X8. An object listed under the prefix of the hour is split at its first
    slash into the bucket and the key: it is fetched from
    [https://{satellite}.s3.amazonaws.com/{product}/{year}/{day}/{hour}/{name}]
    and stored under [name]. *)
Theorem listed_object_address (product satellite : string) (now : datetime.t)
  (name : string) :
  Str.after_first "/" satellite = None ->
  Str.after_first "/" name = None ->
  let latest := ingestion.hour_prefix product satellite now +:+ name in
  let key := product +:+ "/" +:+ datetime.strftime_Y now +:+ "/"
             +:+ datetime.strftime_j now +:+ "/" +:+ datetime.strftime_H now
             +:+ "/" +:+ name in
  Str.split1_snd "/" latest = Ok key
  /\ backend.object_url (Str.before_first "/" latest) key
     = "https://" +:+ satellite +:+ ".s3.amazonaws.com/" +:+ key
  /\ Str.basename (backend.object_url (Str.before_first "/" latest) key) = name.
Proof.
  intros Hsat Hname latest key.
  assert (E : latest = satellite +:+ "/" +:+ key).
  { subst latest key. unfold ingestion.hour_prefix.
    rewrite !append_assoc. reflexivity. }
  destruct (split_named satellite key Hsat) as [Hb Hs].
  rewrite E, Hb, Hs. split; [reflexivity|]. split; [reflexivity|].
  rewrite basename_object_url. subst key. unfold Str.basename.
  change ("/" +:+ name) with (String "/" name).
  rewrite <- !append_assoc, after_last_app.
  apply after_last_none. exact Hname.
Qed.

Lemma listed_object_address_witness :
  Str.split1_snd "/"
    (ingestion.hour_prefix "ABI-L2-MCMIPC" "noaa-goes19" sample.noon
     +:+ "OR_s1205.nc")
  = Ok "ABI-L2-MCMIPC/2025/080/12/OR_s1205.nc".
Proof.
  refine (proj1 (listed_object_address "ABI-L2-MCMIPC" "noaa-goes19" sample.noon
    "OR_s1205.nc" _ _)); reflexivity.
Defined.

(** ** The mask that is drawn *)

Section PlottedMask.

Import np spec processing visualization.

Lemma zip_or_assoc (l1 : list bool) : forall l2 l3 : list bool,
  zip_or (zip_or l1 l2) l3 = zip_or l1 (zip_or l2 l3).
Proof.
  unfold zip_or.
  induction l1 as [|b1 l1 IH]; intros [|b2 l2] [|b3 l3]; try reflexivity.
  cbn. rewrite IH, orb_assoc. reflexivity.
Qed.

(** On one grid the in-place [|=] is the element-wise disjunction. *)
Lemma ior_same_grid (a b : ndarray bool) :
  shape b = shape a ->
  ior a b = Ok (mk_ndarray (dtype_of a) (shape a) (zip_or (flat a) (flat b))).
Proof.
  intros H. unfold ior, shape_eqb.
  rewrite bool_decide_eq_true_2 by (symmetry; exact H). reflexivity.
Qed.

Lemma logical_or_same_grid (a b : ndarray bool) :
  shape b = shape a ->
  logical_or a b = Ok (mk_ndarray bool_ (shape a) (zip_or (flat a) (flat b))).
Proof.
  intros H. unfold logical_or, shape_eqb.
  rewrite bool_decide_eq_true_2 by (symmetry; exact H). reflexivity.
Qed.

(** The loop of [plot_cloud_mask] builds the array [combined] of the day
    path. *)
Lemma or_visible_combined ds ir :
  common_grid ds default_vis_bands ir ->
  or_visible ds ["CMI_C02"; "CMI_C03"] (less ir (F64.of_int 280))
  = combined_mask ds ir default_vis_bands default_ir_threshold
      default_vis_threshold.
Proof.
  intros Hgrid. unfold combined_mask.
  rewrite collect_present, result_bind_ok.
  unfold default_vis_bands, default_ir_threshold, default_vis_threshold in *.
  cbn [app present_masks or_visible].
  destruct (xr.data_vars ds !! "CMI_C02") as [a|] eqn:Ea;
    destruct (xr.data_vars ds !! "CMI_C03") as [b|] eqn:Eb.
  - destruct (Hgrid "CMI_C02" a) as [Ha _]; [split; [set_solver|exact Ea]|].
    destruct (Hgrid "CMI_C03" b) as [Hb _]; [split; [set_solver|exact Eb]|].
    rewrite (contains_present _ _ _ Ea), (getitem_present _ _ _ Ea), result_bind_ok.
    rewrite ior_same_grid by exact Ha. rewrite result_bind_ok.
    rewrite (contains_present _ _ _ Eb), (getitem_present _ _ _ Eb), result_bind_ok.
    rewrite ior_same_grid by exact Hb. rewrite result_bind_ok.
    cbn [logical_or_reduce logical_or_reduce_from or_visible shape flat greater
         less map_array].
    unfold shape_eqb. rewrite bool_decide_eq_true_2 by congruence.
    cbn [logical_or_reduce_from]. rewrite result_bind_ok.
    rewrite logical_or_same_grid by exact Ha.
    cbn [shape flat]. rewrite zip_or_assoc. reflexivity.
  - destruct (Hgrid "CMI_C02" a) as [Ha _]; [split; [set_solver|exact Ea]|].
    rewrite (contains_present _ _ _ Ea), (getitem_present _ _ _ Ea), result_bind_ok.
    rewrite ior_same_grid by exact Ha. rewrite result_bind_ok.
    rewrite (contains_absent _ _ Eb).
    cbn [logical_or_reduce logical_or_reduce_from]. rewrite result_bind_ok.
    rewrite logical_or_same_grid by exact Ha. reflexivity.
  - destruct (Hgrid "CMI_C03" b) as [Hb _]; [split; [set_solver|exact Eb]|].
    rewrite (contains_absent _ _ Ea).
    rewrite (contains_present _ _ _ Eb), (getitem_present _ _ _ Eb), result_bind_ok.
    rewrite ior_same_grid by exact Hb. rewrite result_bind_ok.
    cbn [logical_or_reduce logical_or_reduce_from]. rewrite result_bind_ok.
    rewrite logical_or_same_grid by exact Hb. reflexivity.
  - rewrite (contains_absent _ _ Ea), (contains_absent _ _ Eb).
    rewrite result_bind_ok, logical_or_zeros by reflexivity. reflexivity.
Qed.

Lemma true_count_less ir t :
  true_count (flat (less ir t)) = cloudy_count ir (as_dtype (dtype_of ir) t).
Proof. unfold less, map_array. cbn [flat]. apply true_count_map. Qed.

Lemma bright_gap_grid :
  common_grid sample.bright_gap default_vis_bands
    (sample.row [F64.nan; sample.f 290]).
Proof.
  intros vb a [Hin Hl].
  apply list_elem_of_In in Hin. simpl in Hin.
  destruct Hin as [<-|[<-|[]]]; vm_compute in Hl.
  - injection Hl as <-. split; reflexivity.
  - discriminate Hl.
Qed.

Lemma dim_gap_grid :
  common_grid sample.dim_gap default_vis_bands
    (sample.row32 [F64.nan; sample.f 270]).
Proof.
  intros vb a [Hin Hl].
  apply list_elem_of_In in Hin. simpl in Hin.
  destruct Hin as [<-|[<-|[]]]; vm_compute in Hl.
  - injection Hl as <-. split; reflexivity.
  - discriminate Hl.
Qed.

Lemma day_pair_grid :
  common_grid sample.day_pair default_vis_bands
    (sample.row [sample.f 290; sample.f 270]).
Proof.
  intros vb a [Hin Hl].
  apply list_elem_of_In in Hin. simpl in Hin.
  destruct Hin as [<-|[<-|[]]]; vm_compute in Hl.
  - injection Hl as <-. split; reflexivity.
  - discriminate Hl.
Qed.

End PlottedMask.

(** X9. On a scan whose visible bands lie on the grid of the IR band,
    [plot_cloud_mask] draws the mask that [calc_cloud_fraction] counts: the
    array [combined] of the day path for a daytime scan, the IR mask at night;
    the percentage is the number of set pixels of the drawn mask over the
    valid IR pixels. *)
Theorem plotted_mask_is_counted_mask
  (fromisoformat : string -> Result datetime.t) (ds : xr.Dataset)
  (ir : np.ndarray F64.float) (day : bool) :
  xr.data_vars ds !! "CMI_C13" = Some ir ->
  spec.common_grid ds processing.default_vis_bands ir ->
  spec.fits_index ir ->
  processing.is_daytime fromisoformat ds = Ok day ->
  visualization.mask_value fromisoformat ds
  = (if day
     then processing.combined_mask ds ir processing.default_vis_bands
            processing.default_ir_threshold processing.default_vis_threshold
     else Ok (np.less ir processing.default_ir_threshold))
  /\ exists mask,
       visualization.mask_value fromisoformat ds = Ok mask
       /\ np.shape mask = np.shape ir
       /\ processing.calc_cloud_fraction fromisoformat ds
          = Ok (processing.percent (spec.true_count (np.flat mask))
                  (spec.valid_count ir)).
Proof.
  intros Hir Hgrid Hfits Hday.
  assert (Hmv : visualization.mask_value fromisoformat ds
    = (if day
       then processing.combined_mask ds ir processing.default_vis_bands
              processing.default_ir_threshold processing.default_vis_threshold
       else Ok (np.less ir processing.default_ir_threshold))).
  { unfold visualization.mask_value. rewrite Hday, result_bind_ok.
    rewrite (getitem_present _ _ _ Hir), !result_bind_ok.
    destruct day; [apply or_visible_combined; exact Hgrid|reflexivity]. }
  split; [exact Hmv|]. rewrite Hmv.
  unfold processing.calc_cloud_fraction. rewrite Hday, result_bind_ok.
  destruct day.
  - destruct (combined_mask_rule ds ir processing.default_vis_bands
                processing.default_ir_threshold processing.default_vis_threshold
                Hgrid) as (mask & Hmask & Hsh & Hlen & _).
    exists mask. split; [exact Hmask|]. split; [exact Hsh|].
    apply calc_multiband_counts; assumption.
  - eexists. split; [reflexivity|]. split; [reflexivity|].
    rewrite true_count_less. apply calc_ir_counts; assumption.
Qed.

Lemma plotted_mask_is_counted_mask_witness :
  visualization.mask_value datetime.fromisoformat_extended sample.bright_gap
  = processing.combined_mask sample.bright_gap
      (sample.row [F64.nan; sample.f 290]) processing.default_vis_bands
      processing.default_ir_threshold processing.default_vis_threshold.
Proof.
  refine (proj1 (plotted_mask_is_counted_mask datetime.fromisoformat_extended
    sample.bright_gap (sample.row [F64.nan; sample.f 290]) true _ _ _ _)).
  - reflexivity.
  - exact bright_gap_grid.
  - vm_compute. reflexivity.
  - vm_compute. reflexivity.
Defined.

(** ** The two scripts *)

(** X10. Run as scripts, [ingestion.py] and [processing.py] remove the file
    they downloaded on every way out of their [try] block: once the transfer
    has exited with status 0 the file does not exist when the script ends,
    whatever the loader, the classifier and the plots do. *)
Theorem scripts_remove_download
  ls now run_process open_dataset fromisoformat show_band show_mask
  (w : os.World) (latest path : string) (fs : gset string) :
  ingestion.get_latest_goes_file ls now
    ingestion.default_product ingestion.default_satellite = Some latest ->
  Str.split1_snd "/" latest = Ok path ->
  run_process
    ["wget"; "-q"; backend.object_url (Str.before_first "/" latest) path;
     "-O"; Str.basename latest] (os.files w) = (0, fs) ->
  truthy (Str.basename latest) = true ->
  (Str.basename latest
     ∉ os.files (snd (script.ingestion_main ls now run_process open_dataset w)))
  /\ (Str.basename latest
      ∉ os.files (snd (script.processing_main ls now run_process open_dataset
                         fromisoformat show_band show_mask w))).
Proof.
  intros Hlatest Hpath Hrun Ht.
  unfold script.ingestion_main, script.processing_main.
  rewrite Hlatest, (split_truthy _ _ Hpath). cbn [negb].
  unfold os.bind at 1. unfold os.bind at 2. unfold os.lift. rewrite Hpath.
  unfold ingestion.run_wget, ingestion.subprocess_run.
  rewrite basename_object_url, (basename_listed _ _ Hpath), Hrun.
  cbn [Z.eqb]. rewrite Ht. cbn [negb].
  split; apply try_finally_removes.
Qed.

Lemma scripts_remove_download_witness :
  ("OR_s1205.nc"
    ∉ os.files (snd (script.ingestion_main sample.ls_two sample.noon
                       sample.wget_ok sample.open_bright sample.empty_world)))
  /\ ("OR_s1205.nc"
    ∉ os.files (snd (script.processing_main sample.ls_two sample.noon
                       sample.wget_ok sample.open_bright
                       datetime.fromisoformat_extended
                       (fun _ save_path w =>
                          (Ok tt, os.mk_World (os.files w ∪ {[save_path]})
                                    (os.spawned w)))
                       (fun _ save_path w =>
                          (Ok tt, os.mk_World (os.files w ∪ {[save_path]})
                                    (os.spawned w)))
                       sample.empty_world))).
Proof.
  refine (scripts_remove_download sample.ls_two sample.noon sample.wget_ok
    sample.open_bright datetime.fromisoformat_extended _ _ sample.empty_world
    "noaa-goes19/ABI-L2-MCMIPC/2025/080/12/OR_s1205.nc"
    "ABI-L2-MCMIPC/2025/080/12/OR_s1205.nc" (∅ ∪ {[ "OR_s1205.nc" ]}) _ _ _ _);
    reflexivity.
Defined.

(** ** What the classifier does not depend on *)

Section Invariance.

Import np spec processing.

(** Two masks on one grid that set the same pixels are the same array. *)
Lemma combined_mask_dtype ds ir vis_bands t1 t2 m :
  combined_mask ds ir vis_bands t1 t2 = Ok m -> dtype_of m = bool_.
Proof.
  unfold combined_mask.
  destruct (collect_vis_masks ds t2 vis_bands []) as [ms|e]; [|discriminate].
  rewrite result_bind_ok.
  destruct (match ms with
            | _ :: _ => logical_or_reduce ms
            | [] => Ok (zeros_like (less ir t1))
            end) as [v|e]; [|discriminate].
  rewrite result_bind_ok. unfold logical_or.
  destruct (shape_eqb _ _); [intros [= <-]; reflexivity|].
  destruct (broadcast_shapes _ _); [intros [= <-]; reflexivity|discriminate].
Qed.

Lemma mask_ext (m1 m2 : ndarray bool) (P : nat -> Prop) :
  dtype_of m1 = dtype_of m2 ->
  shape m1 = shape m2 -> length (flat m1) = length (flat m2) ->
  (forall (i : nat) b, flat m1 !! i = Some b -> (b = true <-> P i)) ->
  (forall (i : nat) b, flat m2 !! i = Some b -> (b = true <-> P i)) ->
  m1 = m2.
Proof.
  destruct m1 as [d1 s1 l1], m2 as [d2 s2 l2]. cbn [dtype_of shape flat].
  intros -> -> Hlen H1 H2. f_equal. apply list_eq. intros i.
  destruct (l1 !! i) as [b1|] eqn:E1.
  - assert (Hi : (i < length l2)%nat).
    { rewrite <- Hlen. apply lookup_lt_Some with b1. exact E1. }
    destruct (lookup_lt_is_Some_2 l2 i Hi) as [b2 E2]. rewrite E2. f_equal.
    pose proof (H1 i b1 E1) as A. pose proof (H2 i b2 E2) as B.
    destruct b1, b2; try reflexivity.
    + symmetry. apply B, A. reflexivity.
    + apply A, B. reflexivity.
  - apply lookup_ge_None in E1. symmetry. apply lookup_ge_None. lia.
Qed.

Lemma filter_length_perm {A} (p : A -> bool) (l l' : list A) :
  l ≡ₚ l' -> length (List.filter p l) = length (List.filter p l').
Proof.
  induction 1 as [|x l l' _ IH|x y l|l l' l'' _ IH1 _ IH2]; cbn.
  - reflexivity.
  - destruct (p x); cbn; rewrite IH; reflexivity.
  - destruct (p x), (p y); reflexivity.
  - rewrite IH1. exact IH2.
Qed.

End Invariance.

(** X11. The day path depends on the configured visible bands as a set: on a
    scan whose visible bands lie on the grid of the IR band, listing the same
    bands in another order, or more than once, changes nothing in the
    result. *)
Theorem multiband_ignores_band_order
  (ds : xr.Dataset) (ir_band : string) (vis_bands vis_bands' : list string)
  (ir_threshold vis_threshold : F64.float) :
  (forall ir, xr.data_vars ds !! ir_band = Some ir ->
     spec.common_grid ds vis_bands ir) ->
  (forall vb, vb ∈ vis_bands <-> vb ∈ vis_bands') ->
  processing.calc_cloud_fraction_multiband ds ir_band vis_bands
    ir_threshold vis_threshold
  = processing.calc_cloud_fraction_multiband ds ir_band vis_bands'
      ir_threshold vis_threshold.
Proof.
  intros Hgrid Hset. unfold processing.calc_cloud_fraction_multiband.
  destruct (xr.data_vars ds !! ir_band) as [ir|] eqn:Hir.
  - rewrite (getitem_present _ _ _ Hir), !result_bind_ok.
    specialize (Hgrid ir eq_refl).
    assert (Hgrid' : spec.common_grid ds vis_bands' ir).
    { intros vb a [Hin Hl]. apply (Hgrid vb a).
      split; [apply Hset; exact Hin|exact Hl]. }
    destruct (combined_mask_rule ds ir vis_bands ir_threshold vis_threshold Hgrid)
      as (m & Hm & Hs & Hl & Hpix).
    destruct (combined_mask_rule ds ir vis_bands' ir_threshold vis_threshold Hgrid')
      as (m' & Hm' & Hs' & Hl' & Hpix').
    rewrite Hm, Hm'.
    replace m' with m; [reflexivity|].
    apply (mask_ext m m'
             (spec.cloudy_at ds vis_bands ir ir_threshold vis_threshold));
      [|congruence|congruence|exact Hpix|].
    { rewrite (combined_mask_dtype _ _ _ _ _ _ Hm),
        (combined_mask_dtype _ _ _ _ _ _ Hm'). reflexivity. }
    intros i b Hb. rewrite (Hpix' i b Hb). unfold spec.cloudy_at, spec.present_vis.
    split; (intros [H|(vb & a & y & [Hin Hlk] & Hy & Hg)]; [left; exact H|]);
      right; exists vb, a, y; (split; [split; [apply Hset; exact Hin|exact Hlk]|]);
      split; assumption.
  - rewrite (getitem_absent _ _ Hir). reflexivity.
Qed.

Lemma multiband_ignores_band_order_witness :
  processing.calc_cloud_fraction_multiband sample.day_pair "CMI_C13"
    ["CMI_C02"; "CMI_C03"] processing.default_ir_threshold
    processing.default_vis_threshold
  = processing.calc_cloud_fraction_multiband sample.day_pair "CMI_C13"
      ["CMI_C03"; "CMI_C02"; "CMI_C03"] processing.default_ir_threshold
      processing.default_vis_threshold.
Proof.
  refine (multiband_ignores_band_order sample.day_pair "CMI_C13"
    ["CMI_C02"; "CMI_C03"] ["CMI_C03"; "CMI_C02"; "CMI_C03"]
    processing.default_ir_threshold processing.default_vis_threshold _ _).
  - intros ir Hir. vm_compute in Hir. injection Hir as <-. exact day_pair_grid.
  - intros vb. rewrite !elem_of_cons, !elem_of_nil. tauto.
Defined.

(** X12. The night path reads the band as a bag of values of one dtype: the
    shape of the band and the order of its pixels have no part in the
    result. *)
Theorem ir_fraction_ignores_pixel_order
  (ds ds' : xr.Dataset) (band : string) (threshold : F64.float)
  (data data' : np.ndarray F64.float) :
  xr.data_vars ds !! band = Some data ->
  xr.data_vars ds' !! band = Some data' ->
  np.dtype_of data = np.dtype_of data' ->
  np.flat data ≡ₚ np.flat data' ->
  spec.fits_index data ->
  processing.calc_cloud_fraction_ir ds band threshold
  = processing.calc_cloud_fraction_ir ds' band threshold.
Proof.
  intros Hd Hd' Hdt Hperm Hfits.
  assert (Hfits' : spec.fits_index data').
  { unfold spec.fits_index in *. rewrite <- (Permutation_length Hperm). exact Hfits. }
  rewrite (calc_ir_counts ds band threshold data Hd Hfits).
  rewrite (calc_ir_counts ds' band threshold data' Hd' Hfits'), <- Hdt.
  unfold spec.cloudy_count, spec.valid_count.
  rewrite (filter_length_perm _ _ _ Hperm), (filter_length_perm _ _ _ Hperm).
  reflexivity.
Qed.

Lemma ir_fraction_ignores_pixel_order_witness :
  processing.calc_cloud_fraction_ir sample.ir_gap "CMI_C13"
    processing.default_ir_threshold
  = processing.calc_cloud_fraction_ir
      (xr.mk_Dataset
         {[ "CMI_C13" := np.mk_ndarray np.float64 [2%nat; 2%nat]
                           [F64.nan; sample.f 270; sample.f 290; sample.f 275] ]} ∅)
      "CMI_C13" processing.default_ir_threshold.
Proof.
  refine (ir_fraction_ignores_pixel_order sample.ir_gap _ "CMI_C13"
    processing.default_ir_threshold
    (sample.row [sample.f 270; sample.f 290; F64.nan; sample.f 275])
    (np.mk_ndarray np.float64 [2%nat; 2%nat]
       [F64.nan; sample.f 270; sample.f 290; sample.f 275]) _ _ _ _ _).
  - reflexivity.
  - reflexivity.
  - reflexivity.
  - cbn [np.flat sample.row].
    symmetry.
    apply (Permutation_cons_app [sample.f 270; sample.f 290] [sample.f 275]).
    reflexivity.
  - vm_compute. reflexivity.
Defined.

(** ** The order of percentages *)

Section Binary64Order.

Import Rounding.

Ltac inject_numerals :=
  repeat (rewrite ?inject_Z_plus, ?inject_Z_mult, ?inject_Z_opp in * );
  change (inject_Z 0) with 0%Q in *;
  change (inject_Z 1) with 1%Q in *;
  change (inject_Z 2) with 2%Q in *;
  change (inject_Z 3) with 3%Q in *;
  change (inject_Z 4) with 4%Q in *.

Lemma two_to_ge_1 k : 0 <= k -> (1 <= F64.two_to k)%Q.
Proof.
  intros Hk. rewrite <- two_to_inject by exact Hk.
  assert (H : 0 < 2 ^ k) by (apply Z.pow_pos_nonneg; lia).
  unfold Qle. cbn. lia.
Qed.

Lemma two_to_mono a b : a <= b -> (F64.two_to a <= F64.two_to b)%Q.
Proof.
  intros Hab. replace b with (a + (b - a)) by lia. rewrite two_to_add.
  pose proof (two_to_pos a) as Ha. pose proof (two_to_ge_1 (b - a) ltac:(lia)) as Hb.
  assert (E : (F64.two_to a == F64.two_to a * 1)%Q) by ring.
  rewrite E at 1. apply Qmult_le_l; assumption.
Qed.

Lemma two_to_lt_inv a b : (F64.two_to a < F64.two_to b)%Q -> a < b.
Proof.
  intros H. destruct (Z.lt_ge_cases a b) as [Hlt|Hge]; [exact Hlt|exfalso].
  pose proof (two_to_mono b a Hge). lra.
Qed.

Lemma inject_Z_le a b : a <= b -> (inject_Z a <= inject_Z b)%Q.
Proof. intros H. rewrite <- Zle_Qle. exact H. Qed.

Lemma inject_Z_lt a b : a < b -> (inject_Z a < inject_Z b)%Q.
Proof. intros H. rewrite <- Zlt_Qlt. exact H. Qed.

(** Codes follow the order of the positions they stand for. *)
Lemma at_code_mono k1 y1 k2 y2 :
  at_code k1 y1 -> at_code k2 y2 -> (y1 <= y2)%Q -> k1 <= k2.
Proof.
  unfold at_code. intros H1 H2 Hy.
  destruct (Z.le_gt_cases k1 k2) as [Hle|Hgt]; [exact Hle|exfalso].
  assert (Hq : (inject_Z k2 + 1 <= inject_Z k1)%Q).
  { change 1%Q with (inject_Z 1). rewrite <- inject_Z_plus.
    apply inject_Z_le. lia. }
  destruct (Z.even k1) eqn:E1; destruct (Z.even k2) eqn:E2.
  - lra.
  - lra.
  - lra.
  - assert (Hne : k1 <> k2 + 1).
    { intros ->. rewrite Z.even_add in E1. rewrite E2 in E1. discriminate. }
    assert (Hq2 : (inject_Z k2 + 2 <= inject_Z k1)%Q).
    { change 2%Q with (inject_Z 2). rewrite <- inject_Z_plus.
      apply inject_Z_le. lia. }
    lra.
Qed.

(** The position that a code stands for lies in the unit of its mantissa. *)
Lemma at_code_range m l y :
  0 <= l <= 3 -> at_code (4 * m + l) y ->
  (inject_Z m <= y /\ y < inject_Z m + 1)%Q.
Proof.
  intros Hl. unfold at_code. rewrite even4.
  assert (Hc : l = 0 \/ l = 1 \/ l = 2 \/ l = 3) by lia.
  destruct Hc as [-> | [-> | [-> | ->]]]; cbn [Z.even]; intros H;
    inject_numerals; split; lra.
Qed.

Lemma loc_code_range lx : 0 <= loc_code lx <= 3.
Proof. destruct lx as [|[]]; cbn; lia. Qed.

(** The value of positive floats with 53-bit mantissas follows their order. *)
Lemma nf_le_value ma ea mb eb :
  2 ^ 52 <= ma < 2 ^ 53 -> 2 ^ 52 <= mb < 2 ^ 53 ->
  nf_le (ma, ea) (mb, eb) ->
  (inject_Z ma * F64.two_to ea <= inject_Z mb * F64.two_to eb)%Q.
Proof.
  intros Ha Hb Hle. unfold nf_le in Hle. cbn [fst snd] in Hle.
  pose proof (two_to_pos ea) as Pa. pose proof (two_to_pos eb) as Pb.
  destruct Hle as [Hlt|[-> Hm]].
  - pose proof (two_to_mono (ea + 1) eb ltac:(lia)) as Hmono.
    rewrite two_to_add in Hmono. change (F64.two_to 1) with 2%Q in Hmono.
    assert (A1 : (inject_Z ma * F64.two_to ea <= inject_Z (2 ^ 53) * F64.two_to ea)%Q).
    { apply Qmult_le_compat_r; [apply inject_Z_le; lia|lra]. }
    assert (A2 : (inject_Z (2 ^ 52) * F64.two_to eb <= inject_Z mb * F64.two_to eb)%Q).
    { apply Qmult_le_compat_r; [apply inject_Z_le; lia|lra]. }
    change (inject_Z (2 ^ 53)) with (inject_Z (2 ^ 52) * 2)%Q in A1.
    assert (A3 : (inject_Z (2 ^ 52) * (F64.two_to ea * 2)
                  <= inject_Z (2 ^ 52) * F64.two_to eb)%Q).
    { apply Qmult_le_l; [reflexivity|exact Hmono]. }
    lra.
  - apply Qmult_le_compat_r; [apply inject_Z_le; exact Hm|lra].
Qed.

(** Rounding follows the order of the exact values. *)
Lemma round_mono mx ex lx (y : Q) mx' ex' lx' (y' : Q) :
  0 < mx -> 53 <= Zdigits2 mx -> 0 < mx' -> 53 <= Zdigits2 mx' ->
  at_code (4 * mx + loc_code lx) y ->
  at_code (4 * mx' + loc_code lx') y' ->
  (y * F64.two_to ex <= y' * F64.two_to ex')%Q ->
  let m1 := rne (shn (Z.to_nat (Zdigits2 mx - 53)) (4 * mx + loc_code lx)) in
  let m1' := rne (shn (Z.to_nat (Zdigits2 mx' - 53)) (4 * mx' + loc_code lx')) in
  2 ^ 52 <= m1 <= 2 ^ 53 -> 2 ^ 52 <= m1' <= 2 ^ 53 ->
  nf_le (carry m1 (Zdigits2 mx + ex - 53)) (carry m1' (Zdigits2 mx' + ex' - 53)).
Proof.
  intros Hmx Hd Hmx' Hd' Hy Hy' Hle m1 m1' Hm1 Hm1'.
  set (d := Zdigits2 mx) in *. set (d' := Zdigits2 mx') in *.
  destruct (Zdigits2_spec mx Hmx) as [_ [Dlo Dhi]]. fold d in Dlo, Dhi.
  destruct (Zdigits2_spec mx' Hmx') as [_ [Dlo' Dhi']]. fold d' in Dlo', Dhi'.
  destruct (at_code_range _ _ _ (loc_code_range lx) Hy) as [Y1 Y2].
  destruct (at_code_range _ _ _ (loc_code_range lx') Hy') as [Y1' Y2'].
  pose proof (two_to_pos ex) as Pex. pose proof (two_to_pos ex') as Pex'.
  (* the exponents are ordered *)
  assert (He : d + ex - 53 <= d' + ex' - 53).
  { enough (d - 1 + ex < d' + ex') by lia. apply two_to_lt_inv.
    rewrite !two_to_add.
    rewrite <- (two_to_inject (d - 1)), <- (two_to_inject d') by lia.
    assert (B1 : (inject_Z (2 ^ (d - 1)) * F64.two_to ex <= y * F64.two_to ex)%Q).
    { apply Qmult_le_compat_r; [|lra].
      apply Qle_trans with (inject_Z mx); [apply inject_Z_le; exact Dlo|exact Y1]. }
    assert (B2 : (y' * F64.two_to ex' < inject_Z (2 ^ d') * F64.two_to ex')%Q).
    { apply Qmult_lt_r; [exact Pex'|].
      apply Qlt_le_trans with (inject_Z mx' + 1)%Q; [exact Y2'|].
      change 1%Q with (inject_Z 1). rewrite <- inject_Z_plus.
      apply inject_Z_le. lia. }
    lra. }
  destruct (carry_range m1 (d + ex - 53) Hm1) as (A1 & A2 & A3).
  destruct (carry_range m1' (d' + ex' - 53) Hm1') as (B1 & B2 & B3).
  destruct (Z.eq_dec (d + ex - 53) (d' + ex' - 53)) as [Eq|Ne].
  - apply carry_mono; [exact Hm1|exact Hm1'|]. right. cbn [fst snd].
    split; [exact Eq|]. subst m1 m1'. apply rne_mono.
    pose proof (at_code_shn (Z.to_nat (d - 53)) _ _ Hy) as P.
    pose proof (at_code_shn (Z.to_nat (d' - 53)) _ _ Hy') as P'.
    rewrite Z2Nat.id in P, P' by lia.
    apply (at_code_mono _ _ _ _ P P').
    pose proof (two_to_pos (- (d + ex - 53))) as Pe.
    assert (E1 : (y * F64.two_to (- (d - 53))
                  == y * F64.two_to ex * F64.two_to (- (d + ex - 53)))%Q).
    { rewrite <- Qmult_assoc, <- two_to_add.
      replace (ex + - (d + ex - 53)) with (- (d - 53)) by lia. reflexivity. }
    assert (E2 : (y' * F64.two_to (- (d' - 53))
                  == y' * F64.two_to ex' * F64.two_to (- (d + ex - 53)))%Q).
    { rewrite <- Qmult_assoc, <- two_to_add.
      replace (ex' + - (d + ex - 53)) with (- (d' - 53)) by lia. reflexivity. }
    rewrite E1, E2. apply Qmult_le_compat_r; [exact Hle|lra].
  - unfold nf_le. lia.
Qed.


(** The quotient of two positive floats with 53-bit mantissas, whatever their
    order. *)
Lemma div_round ma ea mb eb :
  2 ^ 52 <= ma < 2 ^ 53 -> 2 ^ 52 <= mb < 2 ^ 53 ->
  -60 <= ea <= 60 -> -60 <= eb <= 60 ->
  let q := ma * 2 ^ 53 / mb in
  let r := (ma * 2 ^ 53) mod mb in
  let m1 := rne (shn (Z.to_nat (Zdigits2 q - 53))
                   (4 * q + loc_code (new_location mb r))) in
  let e1 := Zdigits2 q + (ea - eb - 53) - 53 in
  0 < q /\ 53 <= Zdigits2 q <= 54 /\ 2 ^ 52 <= m1 <= 2 ^ 53
  /\ SFdiv 53 1024 (nf ma ea) (nf mb eb)
     = nf (fst (carry m1 e1)) (snd (carry m1 e1)).
Proof.
  intros Hma Hmb Hea Heb q r m1 e1.
  assert (H52 : 2 ^ 52 = 4503599627370496) by reflexivity.
  assert (H53 : 2 ^ 53 = 9007199254740992) by reflexivity.
  assert (H54 : 2 ^ 54 = 18014398509481984) by reflexivity.
  destruct (div_char ma ea mb eb Hma Hmb Hea Heb) as [Hdiv Hq].
  fold q r in Hdiv, Hq.
  assert (Hdq : Zdigits2 q = 53 \/ Zdigits2 q = 54).
  { destruct (Z.lt_ge_cases q (2 ^ 53)) as [H|H].
    - left. apply Zdigits2_unique; lia.
    - right. apply Zdigits2_unique; lia. }
  destruct (bra_normal false q (ea - eb - 53) (new_location mb r) ltac:(lia))
    as (Hb & Hm' & Hres); try lia.
  fold m1 e1 in Hb, Hres.
  assert (Hm1 : 2 ^ 52 <= m1 <= 2 ^ 53) by lia.
  change (if m1 =? 2 ^ 53
          then S754_finite false (Z.to_pos (2 ^ 52)) (e1 + 1)
          else S754_finite false (Z.to_pos m1) e1)
    with (renorm m1 e1) in Hres.
  rewrite renorm_carry in Hres.
  repeat split; try lia. rewrite Hdiv. exact Hres.
Qed.

(** The product of a positive float with a 53-bit mantissa and 100. *)
Lemma mul_hundred_round mx ex :
  2 ^ 52 <= mx < 2 ^ 53 -> -200 <= ex <= 200 ->
  let M := mx * (25 * 2 ^ 48) in
  let m1 := rne (shn (Z.to_nat (Zdigits2 M - 53)) (4 * M + loc_code loc_Exact)) in
  let e1 := Zdigits2 M + (ex + -46) - 53 in
  0 < M /\ 105 <= Zdigits2 M <= 106 /\ 2 ^ 52 <= m1 <= 2 ^ 53
  /\ SFmul 53 1024 (nf mx ex) (F64.of_int 100)
     = nf (fst (carry m1 e1)) (snd (carry m1 e1)).
Proof.
  intros Hmx Hex M m1 e1.
  destruct (mul_hundred_char mx ex Hmx) as (Hmul & HM0 & Hd).
  fold M in Hmul, HM0, Hd.
  destruct (bra_normal false M (ex + -46) loc_Exact HM0) as (Hb & Hm' & Hres);
    try lia.
  fold m1 e1 in Hb, Hres.
  assert (Hm1 : 2 ^ 52 <= m1 <= 2 ^ 53) by lia.
  change (if m1 =? 2 ^ 53
          then S754_finite false (Z.to_pos (2 ^ 52)) (e1 + 1)
          else S754_finite false (Z.to_pos m1) e1)
    with (renorm m1 e1) in Hres.
  rewrite renorm_carry in Hres.
  repeat split; try lia. rewrite Hmul. exact Hres.
Qed.

(** Division by a fixed float follows the order of the dividend. *)
Lemma div_mono ma ea ma' ea' mb eb :
  2 ^ 52 <= ma < 2 ^ 53 -> 2 ^ 52 <= ma' < 2 ^ 53 -> 2 ^ 52 <= mb < 2 ^ 53 ->
  -60 <= ea <= 60 -> -60 <= ea' <= 60 -> -60 <= eb <= 60 ->
  nf_le (ma, ea) (ma', ea') ->
  exists m e m' e',
    SFdiv 53 1024 (nf ma ea) (nf mb eb) = nf m e
    /\ SFdiv 53 1024 (nf ma' ea') (nf mb eb) = nf m' e'
    /\ 2 ^ 52 <= m < 2 ^ 53 /\ 2 ^ 52 <= m' < 2 ^ 53
    /\ -200 <= e <= 200 /\ -200 <= e' <= 200
    /\ nf_le (m, e) (m', e').
Proof.
  intros Hma Hma' Hmb Hea Hea' Heb Hle.
  assert (H52 : 2 ^ 52 = 4503599627370496) by reflexivity.
  destruct (div_round ma ea mb eb Hma Hmb Hea Heb) as (Q0 & Qd & Qm & Qres).
  destruct (div_round ma' ea' mb eb Hma' Hmb Hea' Heb) as (Q0' & Qd' & Qm' & Qres').
  pose proof (at_code_div (ma * 2 ^ 53) mb ltac:(lia) ltac:(lia)) as Hy.
  pose proof (at_code_div (ma' * 2 ^ 53) mb ltac:(lia) ltac:(lia)) as Hy'.
  set (q := ma * 2 ^ 53 / mb) in *. set (r := (ma * 2 ^ 53) mod mb) in *.
  set (q' := ma' * 2 ^ 53 / mb) in *. set (r' := (ma' * 2 ^ 53) mod mb) in *.
  set (y := (inject_Z (ma * 2 ^ 53) / inject_Z mb)%Q) in *.
  set (y' := (inject_Z (ma' * 2 ^ 53) / inject_Z mb)%Q) in *.
  assert (HmbQ : (0 < inject_Z mb)%Q) by (apply (inject_Z_lt 0); lia).
  set (C := (F64.two_to 53 * F64.two_to (- eb - 53) * / inject_Z mb)%Q).
  assert (HC : (0 < C)%Q).
  { subst C. apply Qmult_lt_0_compat; [apply Qmult_lt_0_compat; apply two_to_pos|].
    apply Qinv_lt_0_compat. exact HmbQ. }
  assert (Ey : forall m e, (inject_Z (m * 2 ^ 53) / inject_Z mb
                            * F64.two_to (e - eb - 53)
                            == inject_Z m * F64.two_to e * C)%Q).
  { intros m e. subst C. rewrite inject_Z_mult.
    change (inject_Z (2 ^ 53)) with (F64.two_to 53).
    replace (e - eb - 53) with (e + (- eb - 53)) by lia.
    rewrite two_to_add. field. lra. }
  assert (Hval : (y * F64.two_to (ea - eb - 53) <= y' * F64.two_to (ea' - eb - 53))%Q).
  { subst y y'. rewrite !Ey. apply Qmult_le_compat_r; [|lra].
    apply nf_le_value; assumption. }
  pose proof (round_mono q (ea - eb - 53) (new_location mb r) y
                q' (ea' - eb - 53) (new_location mb r') y'
                Q0 ltac:(lia) Q0' ltac:(lia) Hy Hy' Hval Qm Qm') as Hmono.
  cbv zeta in Hmono.
  destruct (carry_range _ (Zdigits2 q + (ea - eb - 53) - 53) Qm) as (A1 & A2 & A3).
  destruct (carry_range _ (Zdigits2 q' + (ea' - eb - 53) - 53) Qm') as (B1 & B2 & B3).
  eexists _, _, _, _. split; [exact Qres|]. split; [exact Qres'|].
  split; [exact A1|]. split; [exact B1|].
  split; [lia|]. split; [lia|].
  unfold nf_le in *. cbn [fst snd]. exact Hmono.
Qed.

(** Multiplication by 100 follows the order of the other factor. *)
Lemma mul_hundred_mono mx ex mx' ex' :
  2 ^ 52 <= mx < 2 ^ 53 -> 2 ^ 52 <= mx' < 2 ^ 53 ->
  -200 <= ex <= 200 -> -200 <= ex' <= 200 ->
  nf_le (mx, ex) (mx', ex') ->
  exists m e m' e',
    SFmul 53 1024 (nf mx ex) (F64.of_int 100) = nf m e
    /\ SFmul 53 1024 (nf mx' ex') (F64.of_int 100) = nf m' e'
    /\ 2 ^ 52 <= m < 2 ^ 53 /\ 2 ^ 52 <= m' < 2 ^ 53
    /\ nf_le (m, e) (m', e').
Proof.
  intros Hmx Hmx' Hex Hex' Hle.
  assert (H52 : 2 ^ 52 = 4503599627370496) by reflexivity.
  destruct (mul_hundred_round mx ex Hmx Hex) as (M0 & Md & Mm & Mres).
  destruct (mul_hundred_round mx' ex' Hmx' Hex') as (M0' & Md' & Mm' & Mres').
  set (M := mx * (25 * 2 ^ 48)) in *. set (M' := mx' * (25 * 2 ^ 48)) in *.
  assert (Hc : forall N, at_code (4 * N + loc_code loc_Exact) (inject_Z N)).
  { intros N. cbn [loc_code]. rewrite Z.add_0_r. unfold at_code.
    rewrite Z.even_mul. cbn [Z.even orb]. rewrite inject_Z_mult. reflexivity. }
  assert (Ev : forall m e, (inject_Z (m * (25 * 2 ^ 48)) * F64.two_to (e + -46)
                            == inject_Z m * F64.two_to e * 100)%Q).
  { intros m e. rewrite inject_Z_mult, two_to_add.
    assert (E100 : (inject_Z (25 * 2 ^ 48) * F64.two_to (-46) == 100)%Q) by reflexivity.
    rewrite <- E100. ring. }
  assert (Hval : (inject_Z M * F64.two_to (ex + -46)
                  <= inject_Z M' * F64.two_to (ex' + -46))%Q).
  { subst M M'. rewrite !Ev. apply Qmult_le_compat_r; [|discriminate].
    apply nf_le_value; assumption. }
  pose proof (round_mono M (ex + -46) loc_Exact (inject_Z M)
                M' (ex' + -46) loc_Exact (inject_Z M')
                M0 ltac:(lia) M0' ltac:(lia) (Hc M) (Hc M') Hval Mm Mm') as Hmono.
  cbv zeta in Hmono.
  destruct (carry_range _ (Zdigits2 M + (ex + -46) - 53) Mm) as (A1 & A2 & A3).
  destruct (carry_range _ (Zdigits2 M' + (ex' + -46) - 53) Mm') as (B1 & B2 & B3).
  eexists _, _, _, _. split; [exact Mres|]. split; [exact Mres'|].
  split; [exact A1|]. split; [exact B1|].
  unfold nf_le in *. cbn [fst snd]. exact Hmono.
Qed.

Lemma nf_le_refl x : nf_le x x.
Proof. right. split; [reflexivity|lia]. Qed.

Lemma div_nf ma ea mb eb :
  2 ^ 52 <= ma < 2 ^ 53 -> 2 ^ 52 <= mb < 2 ^ 53 ->
  -60 <= ea <= 60 -> -60 <= eb <= 60 ->
  exists m e,
    SFdiv 53 1024 (nf ma ea) (nf mb eb) = nf m e
    /\ 2 ^ 52 <= m < 2 ^ 53 /\ -200 <= e <= 200.
Proof.
  intros Hma Hmb Hea Heb.
  destruct (div_mono ma ea ma ea mb eb Hma Hma Hmb Hea Hea Heb (nf_le_refl _))
    as (m & e & _ & _ & D & _ & Hm & _ & He & _).
  exists m, e. tauto.
Qed.

Lemma mul_hundred_nf mx ex :
  2 ^ 52 <= mx < 2 ^ 53 -> -200 <= ex <= 200 ->
  exists m e,
    SFmul 53 1024 (nf mx ex) (F64.of_int 100) = nf m e /\ 2 ^ 52 <= m < 2 ^ 53.
Proof.
  intros Hmx Hex.
  destruct (mul_hundred_mono mx ex mx ex Hmx Hmx Hex Hex (nf_le_refl _))
    as (m & e & _ & _ & P & _ & Hm & _).
  exists m, e. tauto.
Qed.

Lemma of_int_nf n :
  0 < n < 2 ^ 63 ->
  exists m e, F64.of_int n = nf m e /\ 2 ^ 52 <= m < 2 ^ 53 /\ -60 <= e <= 60
              /\ (m, e) = carry (int_mantissa n) (Zdigits2 n - 53).
Proof.
  intros Hn.
  destruct (of_int_char n Hn) as [Mn En]. rewrite renorm_carry in En.
  destruct (carry_range _ (Zdigits2 n - 53) Mn) as (T1 & T2 & T3).
  assert (Hd : 1 <= Zdigits2 n <= 63).
  { destruct (Zdigits2_spec n ltac:(lia)) as [Hd1 [Dlo _]]. split; [exact Hd1|].
    destruct (Z.le_gt_cases (Zdigits2 n) 63) as [H|H]; [exact H|].
    assert (2 ^ 63 <= 2 ^ (Zdigits2 n - 1)) by (apply Z.pow_le_mono_r; lia). lia. }
  destruct (carry (int_mantissa n) (Zdigits2 n - 53)) as [m e]. cbn [fst snd] in *.
  exists m, e. repeat split; try assumption; lia.
Qed.

(** The percentage grows with the number of marked pixels. *)
Lemma percent_mono c1 c2 v :
  0 <= c1 <= c2 -> c2 < 2 ^ 63 -> 0 < v < 2 ^ 63 ->
  F64.leb (processing.percent c1 v) (processing.percent c2 v) = true.
Proof.
  intros Hc Hc2 Hv.
  assert (H52 : 2 ^ 52 = 4503599627370496) by reflexivity.
  destruct (of_int_nf v Hv) as (mb & eb & Ev & Hmb & Heb & _).
  destruct (Z.eq_dec c2 0) as [E2|N2].
  { assert (c1 = 0) by lia. subst c1 c2.
    rewrite percent_none_cloudy by exact Hv. reflexivity. }
  destruct (of_int_nf c2 ltac:(lia)) as (ma' & ea' & Ec' & Hma' & Hea' & Hcar').
  destruct (Z.eq_dec c1 0) as [E1|N1].
  - subst c1. rewrite percent_none_cloudy by exact Hv.
    rewrite percent_some_valid by lia.
    unfold F64.mul, F64.div. change F64.prec with 53. change F64.emax with 1024.
    rewrite Ec', Ev.
    destruct (div_nf ma' ea' mb eb Hma' Hmb Hea' Heb) as (m & e & Hdiv & A1 & A2).
    destruct (mul_hundred_nf m e A1 A2) as (m' & e' & Hmul & B1).
    rewrite Hdiv, Hmul. reflexivity.
  - destruct (of_int_nf c1 ltac:(lia)) as (ma & ea & Ec & Hma & Hea & Hcar).
    pose proof (of_int_mono c1 c2 ltac:(lia) ltac:(lia) Hc2) as Hle.
    rewrite <- Hcar, <- Hcar' in Hle.
    destruct (div_mono ma ea ma' ea' mb eb Hma Hma' Hmb Hea Hea' Heb Hle)
      as (m & e & m' & e' & D & D' & Hm & Hm' & He & He' & Hle2).
    destruct (mul_hundred_mono m e m' e' Hm Hm' He He' Hle2)
      as (n & f & n' & f' & P & P' & Hn & Hn' & Hle3).
    rewrite !percent_some_valid by lia.
    unfold F64.mul, F64.div, F64.leb.
    change F64.prec with 53. change F64.emax with 1024.
    rewrite Ec, Ec', Ev, D, D', P, P'.
    apply SFleb_nf; [lia|lia|exact Hle3].
Qed.

(** The percentage of any two positive counts against the exact quotient. *)
Lemma mul_hundred_value_wide mx ex :
  2 ^ 52 <= mx < 2 ^ 53 -> -200 <= ex <= 200 ->
  (F64.to_Q (SFmul 53 1024 (nf mx ex) (F64.of_int 100)) * (1 - u)
     <= F64.to_Q (nf mx ex) * 100
   /\ F64.to_Q (nf mx ex) * 100
     <= F64.to_Q (SFmul 53 1024 (nf mx ex) (F64.of_int 100)) * (1 + u))%Q.
Proof.
  intros Hmx Hex.
  assert (H52 : 2 ^ 52 = 4503599627370496) by reflexivity.
  destruct (mul_hundred_char mx ex Hmx) as (Hmul & HM0 & Hd).
  rewrite Hmul.
  set (M := mx * (25 * 2 ^ 48)) in *.
  assert (Hc : at_code (4 * M + loc_code loc_Exact) (inject_Z M)).
  { cbn [loc_code]. rewrite Z.add_0_r. unfold at_code.
    rewrite Z.even_mul. cbn [Z.even orb]. rewrite inject_Z_mult. reflexivity. }
  pose proof (bra_normal_value M (ex + -46) loc_Exact (inject_Z M)
                HM0 ltac:(lia) ltac:(lia) ltac:(lia) Hc) as Hv.
  cbv zeta in Hv.
  assert (E : (inject_Z M * F64.two_to (ex + -46) == F64.to_Q (nf mx ex) * 100)%Q).
  { rewrite to_Q_nf by lia. subst M. rewrite inject_Z_mult, two_to_add.
    assert (E100 : (inject_Z (25 * 2 ^ 48) * F64.two_to (-46) == 100)%Q) by reflexivity.
    rewrite <- E100. ring. }
  rewrite E in Hv. exact Hv.
Qed.

Lemma percent_close_wide c v :
  0 < c < 2 ^ 63 -> 0 < v < 2 ^ 63 ->
  let p := processing.percent c v in
  let T := (inject_Z (100 * c) / inject_Z v)%Q in
  (exists m e, p = nf m e /\ 2 ^ 52 <= m < 2 ^ 53)
  /\ (Qabs (F64.to_Q p - T) <= T * eps)%Q.
Proof.
  intros Hc Hv p T.
  assert (H52 : 2 ^ 52 = 4503599627370496) by reflexivity.
  subst p. rewrite percent_some_valid by lia. unfold F64.mul, F64.div.
  change F64.prec with 53. change F64.emax with 1024.
  pose proof (of_int_value c Hc) as Vc.
  pose proof (of_int_value v Hv) as Vv.
  destruct (of_int_nf v Hv) as (mb & eb & Ev & Hmb & Heb & _).
  destruct (of_int_nf c Hc) as (ma & ea & Ec & Hma & Hea & _).
  rewrite Ec, Ev in *.
  destruct (div_nf ma ea mb eb Hma Hmb Hea Heb) as (m & e & Hdiv & A1 & A2).
  destruct (div_value ma ea mb eb Hma Hmb Hea Heb) as (rho & Hrho & R1 & R2).
  rewrite Hdiv in *.
  destruct (mul_hundred_nf m e A1 A2) as (m' & e' & Hmul & B1).
  pose proof (mul_hundred_value_wide m e A1 A2) as [P1 P2].
  rewrite Hmul in *.
  split; [exists m', e'; split; [reflexivity|exact B1]|].
  pose proof (to_Q_nf_pos ma ea ltac:(lia)) as HA.
  pose proof (to_Q_nf_pos mb eb ltac:(lia)) as HB.
  pose proof (to_Q_nf_pos m e ltac:(lia)) as HX.
  pose proof (to_Q_nf_pos m' e' ltac:(lia)) as HR.
  assert (Hcq : (0 < inject_Z c)%Q) by (apply (inject_Z_lt 0); lia).
  assert (Hvq : (0 < inject_Z v)%Q) by (apply (inject_Z_lt 0); lia).
  set (tau := (inject_Z c / inject_Z v)%Q).
  assert (Htau : (tau * inject_Z v == inject_Z c)%Q) by (subst tau; field; lra).
  destruct (ratio_bounds rho _ _ (inject_Z c) (inject_Z v) tau
              HA HB Hvq Hcq Hrho Htau Vc Vv) as [Q1 Q2].
  assert (HT : (T == 100 * tau)%Q).
  { subst T tau. rewrite inject_Z_mult. change (inject_Z 100) with 100%Q.
    field. lra. }
  assert (Htau0 : (0 < tau)%Q).
  { destruct (Qlt_le_dec 0 tau) as [H|H]; [exact H|exfalso].
    assert ((tau * inject_Z v <= 0 * inject_Z v)%Q)
      by (apply Qmult_le_compat_r; lra). lra. }
  apply Qabs_Qle_condition. rewrite HT. unfold u, eps in *. split; lra.
Qed.

(** Equal counts give 100. *)
Lemma percent_all c :
  0 < c < 2 ^ 63 -> processing.percent c c = F64.of_int 100.
Proof.
  intros Hc.
  assert (H52 : 2 ^ 52 = 4503599627370496) by reflexivity.
  rewrite percent_some_valid by lia. unfold F64.mul, F64.div.
  change F64.prec with 53. change F64.emax with 1024.
  destruct (of_int_nf c Hc) as (ma & ea & Ec & Hma & Hea & _).
  rewrite Ec.
  destruct (div_char ma ea ma ea Hma Hma Hea Hea) as [Hdiv _].
  cbv zeta in Hdiv. rewrite Hdiv.
  rewrite (Z.mul_comm ma (2 ^ 53)), Z.div_mul, Z.mod_mul by lia.
  rewrite new_location_exact.
  replace (ea - ea - 53) with (-53) by lia.
  reflexivity.
Qed.

End Binary64Order.

(** ** The two paths compared *)

Section PathsCompared.

Import np spec processing.

(** The array [combined] sets every pixel that the IR mask sets. *)
Lemma night_count_le_day ds ir vis_bands t1 t2 mask :
  combined_mask ds ir vis_bands t1 t2 = Ok mask ->
  length (flat mask) = length (flat ir) ->
  (forall (i : nat) b, flat mask !! i = Some b ->
     (b = true <-> cloudy_at ds vis_bands ir t1 t2 i)) ->
  cloudy_count ir (as_dtype (dtype_of ir) t1) <= true_count (flat mask).
Proof.
  intros Hmask Hlen Hrule. rewrite <- true_count_less.
  apply true_count_pointwise.
  - unfold less, map_array. cbn [flat]. rewrite length_map. congruence.
  - intros i Hi.
    assert (Hlt : (i < length (flat mask))%nat).
    { rewrite Hlen. apply lookup_lt_Some in Hi.
      unfold less, map_array in Hi. cbn [flat] in Hi.
      rewrite length_map in Hi. exact Hi. }
    destruct (lookup_lt_is_Some_2 _ i Hlt) as [b Hb]. rewrite Hb. f_equal.
    apply (Hrule i b Hb). left.
    apply less_lookup in Hi as (x & Hx & Hxt). exists x. split; [exact Hx|].
    symmetry. exact Hxt.
Qed.

Lemma filter_none {A} (l : list A) : List.filter (fun _ => false) l = [].
Proof. induction l as [|x l IH]; [reflexivity|exact IH]. Qed.

End PathsCompared.

(** X13. On a scan whose visible bands lie on the grid of the IR band and
    whose IR band holds a number, the day path returns a finite float that is
    not negative and lies within a relative error of [2^-50] of
    [100 * marked / valid], where [marked] counts the set pixels of [combined]
    and [valid] the IR pixels that are numbers; nothing bounds it by 100. *)
Theorem day_path_percentage
  (ds : xr.Dataset) (ir_band : string) (vis_bands : list string)
  (ir_threshold vis_threshold : F64.float) (ir : np.ndarray F64.float) :
  xr.data_vars ds !! ir_band = Some ir ->
  spec.common_grid ds vis_bands ir ->
  spec.fits_index ir ->
  0 < spec.valid_count ir ->
  exists mask p,
    processing.combined_mask ds ir vis_bands ir_threshold vis_threshold = Ok mask
    /\ processing.calc_cloud_fraction_multiband ds ir_band vis_bands
         ir_threshold vis_threshold = Ok p
    /\ F64.is_finite p = true
    /\ F64.leb (F64.of_int 0) p = true
    /\ (Qabs (F64.to_Q p
              - inject_Z (100 * spec.true_count (np.flat mask))
                / inject_Z (spec.valid_count ir))
        <= inject_Z (100 * spec.true_count (np.flat mask))
           / inject_Z (spec.valid_count ir) * Rounding.eps)%Q.
Proof.
  intros Hir Hgrid Hfits Hv.
  destruct (combined_mask_rule ds ir vis_bands ir_threshold vis_threshold Hgrid)
    as (mask & Hmask & _ & Hlen & _).
  exists mask, (processing.percent (spec.true_count (np.flat mask))
                  (spec.valid_count ir)).
  split; [exact Hmask|].
  split; [apply calc_multiband_counts; assumption|].
  pose proof (true_count_bounds (np.flat mask)) as [Hc0 Hc1].
  pose proof (valid_count_bound ir) as [_ Hv1].
  unfold spec.fits_index in Hfits. rewrite Hlen in Hc1.
  set (c := spec.true_count (np.flat mask)) in *.
  set (v := spec.valid_count ir) in *.
  destruct (Z.eq_dec c 0) as [E|N].
  - rewrite E. rewrite percent_none_cloudy by lia.
    split; [reflexivity|]. split; [reflexivity|].
    cbn [F64.to_Q]. change (inject_Z (100 * 0)) with 0%Q.
    assert (E0 : (0 / inject_Z v == 0)%Q) by (unfold Qdiv; ring).
    rewrite E0. cbn. discriminate.
  - destruct (percent_close_wide c v ltac:(lia) ltac:(lia))
      as [(m & e & Hp & Hm) Hclose].
    cbv zeta in Hp, Hclose. split; [|split; [|exact Hclose]].
    + rewrite Hp. reflexivity.
    + rewrite Hp. reflexivity.
Qed.

Lemma day_path_percentage_witness :
  exists mask p,
    processing.combined_mask sample.bright_gap
      (sample.row [F64.nan; sample.f 290]) processing.default_vis_bands
      processing.default_ir_threshold processing.default_vis_threshold = Ok mask
    /\ processing.calc_cloud_fraction_multiband sample.bright_gap "CMI_C13"
         processing.default_vis_bands processing.default_ir_threshold
         processing.default_vis_threshold = Ok p
    /\ F64.is_finite p = true
    /\ F64.leb (F64.of_int 0) p = true
    /\ (Qabs (F64.to_Q p
              - inject_Z (100 * spec.true_count (np.flat mask))
                / inject_Z (spec.valid_count (sample.row [F64.nan; sample.f 290])))
        <= inject_Z (100 * spec.true_count (np.flat mask))
           / inject_Z (spec.valid_count (sample.row [F64.nan; sample.f 290]))
           * Rounding.eps)%Q.
Proof.
  refine (day_path_percentage sample.bright_gap "CMI_C13"
    processing.default_vis_bands processing.default_ir_threshold
    processing.default_vis_threshold (sample.row [F64.nan; sample.f 290])
    _ _ _ _).
  - reflexivity.
  - exact bright_gap_grid.
  - vm_compute. reflexivity.
  - vm_compute. reflexivity.
Defined.

(** X14. Under the same conditions the day path never returns less than the
    night path on the same scan: every pixel of the IR mask is set in
    [combined], and the percentage grows with the number of set pixels. *)
Theorem day_percent_at_least_night
  (ds : xr.Dataset) (ir_band : string) (vis_bands : list string)
  (ir_threshold vis_threshold : F64.float) (ir : np.ndarray F64.float) :
  xr.data_vars ds !! ir_band = Some ir ->
  spec.common_grid ds vis_bands ir ->
  spec.fits_index ir ->
  0 < spec.valid_count ir ->
  exists mask night day,
    processing.combined_mask ds ir vis_bands ir_threshold vis_threshold = Ok mask
    /\ spec.cloudy_count ir (np.as_dtype (np.dtype_of ir) ir_threshold)
       <= spec.true_count (np.flat mask)
    /\ processing.calc_cloud_fraction_ir ds ir_band ir_threshold = Ok night
    /\ processing.calc_cloud_fraction_multiband ds ir_band vis_bands
         ir_threshold vis_threshold = Ok day
    /\ F64.leb night day = true.
Proof.
  intros Hir Hgrid Hfits Hv.
  destruct (combined_mask_rule ds ir vis_bands ir_threshold vis_threshold Hgrid)
    as (mask & Hmask & _ & Hlen & Hrule).
  pose proof (night_count_le_day _ _ _ _ _ _ Hmask Hlen Hrule) as Hle.
  eexists mask, _, _. split; [exact Hmask|]. split; [exact Hle|].
  split; [exact (calc_ir_counts ds ir_band ir_threshold ir Hir Hfits)|].
  split; [exact (calc_multiband_counts ds ir_band vis_bands ir_threshold
                   vis_threshold ir mask Hir Hmask Hlen Hfits)|].
  pose proof (true_count_bounds (np.flat mask)) as [_ Hc1].
  pose proof (valid_count_bound ir) as [_ Hv1].
  unfold spec.fits_index in Hfits. rewrite Hlen in Hc1.
  apply percent_mono.
  - split; [apply cloudy_count_nonneg|exact Hle].
  - lia.
  - lia.
Qed.

Lemma day_percent_at_least_night_witness :
  exists mask night day,
    processing.combined_mask sample.day_pair
      (sample.row [sample.f 290; sample.f 270]) processing.default_vis_bands
      processing.default_ir_threshold processing.default_vis_threshold = Ok mask
    /\ spec.cloudy_count (sample.row [sample.f 290; sample.f 270])
         processing.default_ir_threshold <= spec.true_count (np.flat mask)
    /\ processing.calc_cloud_fraction_ir sample.day_pair "CMI_C13"
         processing.default_ir_threshold = Ok night
    /\ processing.calc_cloud_fraction_multiband sample.day_pair "CMI_C13"
         processing.default_vis_bands processing.default_ir_threshold
         processing.default_vis_threshold = Ok day
    /\ F64.leb night day = true.
Proof.
  refine (day_percent_at_least_night sample.day_pair "CMI_C13"
    processing.default_vis_bands processing.default_ir_threshold
    processing.default_vis_threshold (sample.row [sample.f 290; sample.f 270])
    _ _ _ _).
  - reflexivity.
  - exact day_pair_grid.
  - vm_compute. reflexivity.
  - vm_compute. reflexivity.
Defined.

(** X15. The night path returns exactly 100.0 when every pixel that is a
    number lies below the threshold, and exactly 0.0 when no pixel does,
    provided the band holds a number; the threshold is the one the dtype of
    the band holds. *)
Theorem ir_percent_all_or_nothing
  (ds : xr.Dataset) (band : string) (threshold : F64.float)
  (data : np.ndarray F64.float) :
  xr.data_vars ds !! band = Some data ->
  spec.fits_index data ->
  0 < spec.valid_count data ->
  ((forall x, x ∈ np.flat data -> F64.isnan x = false ->
      F64.ltb x (np.as_dtype (np.dtype_of data) threshold) = true) ->
   processing.calc_cloud_fraction_ir ds band threshold = Ok (F64.of_int 100))
  /\ ((forall x, x ∈ np.flat data ->
        F64.ltb x (np.as_dtype (np.dtype_of data) threshold) = false) ->
      processing.calc_cloud_fraction_ir ds band threshold = Ok (F64.of_int 0)).
Proof.
  intros Hband Hfits Hv.
  pose proof (valid_count_bound data) as [_ Hv1].
  unfold spec.fits_index in Hfits.
  rewrite (calc_ir_counts ds band threshold data Hband Hfits). split.
  - intros Hall.
    assert (E : spec.cloudy_count data (np.as_dtype (np.dtype_of data) threshold)
                = spec.valid_count data).
    { unfold spec.cloudy_count, spec.valid_count. do 2 f_equal.
      apply List.filter_ext_in. intros x Hx. apply list_elem_of_In in Hx.
      destruct (F64.isnan x) eqn:Hn.
      - destruct x; try discriminate Hn. apply nan_not_below.
      - apply (Hall x Hx Hn). }
    rewrite E, percent_all by lia. reflexivity.
  - intros Hnone.
    assert (E : spec.cloudy_count data (np.as_dtype (np.dtype_of data) threshold)
                = 0).
    { unfold spec.cloudy_count.
      rewrite (List.filter_ext_in _ (fun _ => false)).
      - rewrite filter_none. reflexivity.
      - intros x Hx. apply list_elem_of_In in Hx. apply (Hnone x Hx). }
    rewrite E, percent_none_cloudy by lia. reflexivity.
Qed.

Lemma ir_percent_all_or_nothing_witness :
  processing.calc_cloud_fraction_ir sample.dim_gap "CMI_C13"
    processing.default_ir_threshold = Ok (F64.of_int 100).
Proof.
  refine (proj1 (ir_percent_all_or_nothing sample.dim_gap "CMI_C13"
    processing.default_ir_threshold (sample.row32 [F64.nan; sample.f 270])
    _ _ _) _).
  - reflexivity.
  - vm_compute. reflexivity.
  - vm_compute. reflexivity.
  - intros x Hx Hn. apply list_elem_of_In in Hx. simpl in Hx.
    destruct Hx as [<-|[<-|[]]]; [discriminate Hn|]. vm_compute. reflexivity.
Defined.

(** X16. On a scan whose visible bands lie on the grid of the IR band, whose
    IR band holds a number, and in which no pixel without an IR value is
    bright in a visible band (above the visible threshold as the dtype of that
    band holds it), the day path returns a float between 0 and 100, both
    included. *)
Theorem day_percent_in_range_without_bright_gaps
  (ds : xr.Dataset) (ir_band : string) (vis_bands : list string)
  (ir_threshold vis_threshold : F64.float) (ir : np.ndarray F64.float) :
  xr.data_vars ds !! ir_band = Some ir ->
  spec.common_grid ds vis_bands ir ->
  spec.fits_index ir ->
  (forall (i : nat) vb a y,
     np.flat ir !! i = Some F64.nan -> spec.present_vis ds vis_bands vb a ->
     np.flat a !! i = Some y ->
     F64.gtb y (np.as_dtype (np.dtype_of a) vis_threshold) = false) ->
  0 < spec.valid_count ir ->
  exists p,
    processing.calc_cloud_fraction_multiband ds ir_band vis_bands
      ir_threshold vis_threshold = Ok p
    /\ spec.in_0_100 p.
Proof. apply day_percent_bounded. Qed.

Lemma day_percent_in_range_without_bright_gaps_witness :
  exists p,
    processing.calc_cloud_fraction_multiband sample.dim_gap "CMI_C13"
      processing.default_vis_bands processing.default_ir_threshold
      processing.default_vis_threshold = Ok p
    /\ spec.in_0_100 p.
Proof.
  refine (day_percent_in_range_without_bright_gaps sample.dim_gap "CMI_C13"
    processing.default_vis_bands processing.default_ir_threshold
    processing.default_vis_threshold (sample.row32 [F64.nan; sample.f 270])
    _ _ _ _ _).
  - reflexivity.
  - exact dim_gap_grid.
  - vm_compute. reflexivity.
  - intros i vb a y Hi [Hin Hl] Hy.
    destruct i as [|[|i]]; [|vm_compute in Hi; discriminate Hi
                            |vm_compute in Hi; discriminate Hi].
    apply list_elem_of_In in Hin. simpl in Hin.
    destruct Hin as [<-|[<-|[]]]; vm_compute in Hl; [|discriminate Hl].
    injection Hl as <-. vm_compute in Hy. injection Hy as <-.
    vm_compute. reflexivity.
  - vm_compute. reflexivity.
Defined.

(** ** Scans that classify *)

Section Classifies.

Import np spec processing.

(** A percentage is NaN exactly when no pixel is valid. *)
Lemma percent_nan_iff c v :
  0 <= c < 2 ^ 63 -> 0 <= v < 2 ^ 63 ->
  (F64.isnan (percent c v) = true <-> v = 0).
Proof.
  intros Hc Hv. destruct (Z.eq_dec v 0) as [->|Nv].
  - rewrite percent_no_valid. split; reflexivity.
  - split; [|contradiction]. intros Hnan. exfalso.
    destruct (Z.eq_dec c 0) as [->|Nc].
    + rewrite percent_none_cloudy in Hnan by lia. discriminate Hnan.
    + destruct (percent_close_wide c v ltac:(lia) ltac:(lia))
        as [(m & e & Hp & _) _].
      cbv zeta in Hp. rewrite Hp in Hnan. discriminate Hnan.
Qed.

End Classifies.

(** X17. A scan that holds the IR band, whose visible bands lie on the grid
    of the IR band and whose timestamp is absent or parses, is classified:
    [calc_cloud_fraction] returns a float, and the float is NaN exactly when
    no IR pixel is a number. *)
Theorem classification_returns
  (fromisoformat : string -> Result datetime.t) (ds : xr.Dataset)
  (ir : np.ndarray F64.float) (day : bool) :
  xr.data_vars ds !! processing.default_ir_band = Some ir ->
  spec.common_grid ds processing.default_vis_bands ir ->
  spec.fits_index ir ->
  processing.is_daytime fromisoformat ds = Ok day ->
  exists p,
    processing.calc_cloud_fraction fromisoformat ds = Ok p
    /\ (F64.isnan p = true <-> spec.valid_count ir = 0).
Proof.
  intros Hir Hgrid Hfits Hday.
  pose proof (valid_count_bound ir) as [Hv0 Hv1].
  unfold processing.calc_cloud_fraction. rewrite Hday, result_bind_ok.
  assert (Hf := Hfits). unfold spec.fits_index in Hf.
  destruct day.
  - destruct (combined_mask_rule ds ir processing.default_vis_bands
                processing.default_ir_threshold processing.default_vis_threshold
                Hgrid) as (mask & Hmask & _ & Hlen & _).
    rewrite (calc_multiband_counts _ _ _ _ _ _ _ Hir Hmask Hlen Hfits).
    eexists. split; [reflexivity|].
    pose proof (true_count_bounds (np.flat mask)) as [Hc0 Hc1].
    rewrite Hlen in Hc1. apply percent_nan_iff; lia.
  - rewrite (calc_ir_counts _ _ _ _ Hir Hfits).
    eexists. split; [reflexivity|].
    pose proof (cloudy_count_nonneg ir
                  (np.as_dtype (np.dtype_of ir) processing.default_ir_threshold)).
    pose proof (cloudy_le_valid ir
                  (np.as_dtype (np.dtype_of ir) processing.default_ir_threshold)).
    apply percent_nan_iff; lia.
Qed.

Lemma classification_returns_witness :
  exists p,
    processing.calc_cloud_fraction datetime.fromisoformat_extended
      sample.bright_gap = Ok p
    /\ (F64.isnan p = true
        <-> spec.valid_count (sample.row [F64.nan; sample.f 290]) = 0).
Proof.
  refine (classification_returns datetime.fromisoformat_extended
    sample.bright_gap (sample.row [F64.nan; sample.f 290]) true _ _ _ _).
  - reflexivity.
  - exact bright_gap_grid.
  - vm_compute. reflexivity.
  - vm_compute. reflexivity.
Defined.

(** ** Timestamps of the archive *)

Section ArchiveStamps.

Lemma digit_cases d :
  let k := Z.to_nat (d mod 10) in
  (k = 0 \/ k = 1 \/ k = 2 \/ k = 3 \/ k = 4 \/ k = 5 \/ k = 6 \/ k = 7
   \/ k = 8 \/ k = 9)%nat.
Proof. pose proof (Z.mod_pos_bound d 10 ltac:(lia)). lia. Qed.

Lemma digit_val_char d : Str.digit_val (Str.digit_char d) = Some (d mod 10).
Proof.
  unfold Str.digit_char. pose proof (Z.mod_pos_bound d 10 ltac:(lia)) as Hb.
  replace (d mod 10) with (Z.of_nat (Z.to_nat (d mod 10))) at 2 by lia.
  destruct (digit_cases d) as [H|[H|[H|[H|[H|[H|[H|[H|[H|H]]]]]]]]];
    rewrite H; reflexivity.
Qed.

Lemma digit_char_not_Z d : Ascii.eqb (Str.digit_char d) "Z" = false.
Proof.
  unfold Str.digit_char.
  destruct (digit_cases d) as [H|[H|[H|[H|[H|[H|[H|[H|[H|H]]]]]]]]];
    rewrite H; reflexivity.
Qed.

Lemma take_digits_add (k1 : nat) : forall (k2 : nat) acc s,
  Str.take_digits (k1 + k2) acc s
  = match Str.take_digits k1 acc s with
    | Some (a, r) => Str.take_digits k2 a r
    | None => None
    end.
Proof.
  induction k1 as [|k1 IH]; intros k2 acc s; [reflexivity|].
  cbn [Nat.add Str.take_digits].
  destruct s as [|a s]; [reflexivity|].
  destruct (Str.digit_val a); [apply IH|reflexivity].
Qed.

(** Reading back the digits that [zpad] writes. *)
Lemma take_digits_zpad (w : nat) : forall n acc r,
  Str.take_digits w acc (Str.zpad w n +:+ r)
  = Some (acc * 10 ^ Z.of_nat w + n mod 10 ^ Z.of_nat w, r).
Proof.
  induction w as [|w IH]; intros n acc r.
  - cbn [Str.zpad Str.take_digits]. rewrite append_nil.
    change (10 ^ Z.of_nat 0) with 1. rewrite Z.mod_1_r. do 2 f_equal. lia.
  - cbn [Str.zpad]. rewrite append_assoc, append_cons, append_nil.
    replace (S w) with (w + 1)%nat by lia.
    rewrite take_digits_add, IH. cbn [Str.take_digits].
    rewrite digit_val_char. do 2 f_equal.
    replace (Z.of_nat (w + 1)) with (Z.succ (Z.of_nat w)) by lia.
    rewrite Z.pow_succ_r by lia.
    rewrite (Z.rem_mul_r n 10 (10 ^ Z.of_nat w)) by lia.
    lia.
Qed.

Lemma replace_char_app c by_ s1 s2 :
  Str.replace_char c by_ (s1 +:+ s2)
  = Str.replace_char c by_ s1 +:+ Str.replace_char c by_ s2.
Proof.
  induction s1 as [|a s1 IH]; [reflexivity|].
  rewrite append_cons. cbn [Str.replace_char]. rewrite IH.
  destruct (Ascii.eqb a c); [rewrite append_assoc|rewrite append_cons];
    reflexivity.
Qed.

Lemma replace_zpad by_ (w : nat) : forall n,
  Str.replace_char "Z" by_ (Str.zpad w n) = Str.zpad w n.
Proof.
  induction w as [|w IH]; intros n; [reflexivity|].
  cbn [Str.zpad]. rewrite replace_char_app, IH. f_equal.
  cbn [Str.replace_char]. rewrite digit_char_not_Z. reflexivity.
Qed.

Lemma skip_digits_zpad (w : nat) : forall n r,
  Str.skip_digits (Str.zpad w n +:+ r)
  = (w + fst (Str.skip_digits r), snd (Str.skip_digits r))%nat.
Proof.
  assert (Hone : forall d r, Str.skip_digits (String (Str.digit_char d) r)
            = (S (fst (Str.skip_digits r)), snd (Str.skip_digits r))).
  { intros d r. cbn [Str.skip_digits]. rewrite digit_val_char.
    destruct (Str.skip_digits r); reflexivity. }
  induction w as [|w IH]; intros n r.
  - cbn [Str.zpad]. rewrite append_nil. destruct (Str.skip_digits r); reflexivity.
  - cbn [Str.zpad]. rewrite append_assoc, append_cons, append_nil.
    rewrite IH, Hone. cbn [fst snd]. f_equal. lia.
Qed.

End ArchiveStamps.

Section ArchiveStampsParse.

Lemma option_bind_some {A B} (a : A) (k : A -> option B) : mbind k (Some a) = k a.
Proof. reflexivity. Qed.

Lemma small_mod n w : 0 <= n < 10 ^ w -> 0 * 10 ^ w + n mod 10 ^ w = n.
Proof. intros H. rewrite Z.mod_small by exact H. lia. Qed.

(** The fraction of a second, when there is one, is read up to the offset. *)
Lemma parse_fraction_before_offset frac :
  (frac = "" \/ exists (k : nat) f, frac = "." +:+ Str.zpad (S k) f) ->
  datetime.parse_fraction (frac +:+ "+00:00") = Some "+00:00".
Proof.
  intros [-> | (k & f & ->)]; [reflexivity|].
  rewrite append_assoc, append_cons, append_nil.
  cbn [datetime.parse_fraction]. rewrite skip_digits_zpad. reflexivity.
Qed.

Lemma replace_fraction frac :
  (frac = "" \/ exists (k : nat) f, frac = "." +:+ Str.zpad (S k) f) ->
  Str.replace_char "Z" "+00:00" frac = frac.
Proof.
  intros [-> | (k & f & ->)]; [reflexivity|].
  rewrite replace_char_app, replace_zpad. reflexivity.
Qed.

Lemma parse_archive_stamp (Y M D h mi s : Z) (frac : string) :
  1 <= Y <= 9999 -> 1 <= M <= 12 -> 1 <= D <= datetime.days_in_month Y M ->
  0 <= h <= 23 -> 0 <= mi <= 59 -> 0 <= s <= 59 ->
  (frac = "" \/ exists (k : nat) f, frac = "." +:+ Str.zpad (S k) f) ->
  datetime.fromisoformat_extended
    (Str.replace_char "Z" "+00:00"
       (Str.zpad 4 Y +:+ "-" +:+ Str.zpad 2 M +:+ "-" +:+ Str.zpad 2 D +:+ "T"
        +:+ Str.zpad 2 h +:+ ":" +:+ Str.zpad 2 mi +:+ ":" +:+ Str.zpad 2 s
        +:+ frac +:+ "Z"))
  = Ok (datetime.mk Y M D h mi s (Some 0)).
Proof.
  intros HY HM HD Hh Hmi Hs Hfrac.
  rewrite !replace_char_app, !replace_zpad, (replace_fraction frac Hfrac).
  change (Str.replace_char "Z" "+00:00" "-") with "-".
  change (Str.replace_char "Z" "+00:00" "T") with "T".
  change (Str.replace_char "Z" "+00:00" ":") with ":".
  change (Str.replace_char "Z" "+00:00" "Z") with "+00:00".
  unfold datetime.fromisoformat_extended, datetime.parse_iso.
  rewrite take_digits_zpad, option_bind_some. cbv beta iota.
  rewrite (append_cons "-" "" _), append_nil.
  cbn [Str.take_char]. change (Ascii.eqb "-" "-") with true. cbv iota.
  rewrite option_bind_some.
  rewrite take_digits_zpad, option_bind_some. cbv beta iota.
  rewrite (append_cons "-" "" _), append_nil.
  cbn [Str.take_char]. change (Ascii.eqb "-" "-") with true. cbv iota.
  rewrite option_bind_some.
  rewrite take_digits_zpad, option_bind_some. cbv beta iota.
  rewrite (append_cons "T" "" _), append_nil. cbv iota.
  rewrite take_digits_zpad, option_bind_some. cbv beta iota.
  rewrite (append_cons ":" "" _), append_nil.
  cbn [Str.take_char]. change (Ascii.eqb ":" ":") with true. cbv iota.
  rewrite option_bind_some.
  rewrite take_digits_zpad, option_bind_some. cbv beta iota.
  rewrite (append_cons ":" "" _), append_nil.
  cbn [Str.take_char]. change (Ascii.eqb ":" ":") with true. cbv iota.
  rewrite option_bind_some.
  rewrite take_digits_zpad, option_bind_some. cbv beta iota.
  rewrite (parse_fraction_before_offset frac Hfrac), option_bind_some.
  change (datetime.parse_offset "+00:00") with (Some (Some 0)).
  rewrite option_bind_some.
  change (Z.of_nat 4) with 4. change (Z.of_nat 2) with 2.
  assert (H31 : datetime.days_in_month Y M <= 31).
  { unfold datetime.days_in_month.
    destruct (M =? 2); [destruct (datetime.is_leap Y); lia|].
    destruct ((M =? 4) || (M =? 6) || (M =? 9) || (M =? 11)); lia. }
  rewrite (small_mod Y 4) by lia.
  rewrite (small_mod M 2), (small_mod D 2), (small_mod h 2), (small_mod mi 2),
    (small_mod s 2) by (change (10 ^ 2) with 100; lia).
  assert (C : (1 <=? Y) && (1 <=? M) && (M <=? 12) && (1 <=? D)
              && (D <=? datetime.days_in_month Y M)
              && (h <=? 23) && (mi <=? 59) && (s <=? 59) = true).
  { repeat (apply andb_true_intro; split); apply Z.leb_le; lia. }
  rewrite C. reflexivity.
Qed.

End ArchiveStampsParse.

(** X18. For a timestamp in the form of the archive,
    [YYYY-MM-DDTHH:MM:SS] with or without a fraction of a second and closed by
    [Z], the hour that [is_daytime] reads is the UTC hour of the scan: the
    scan is a daytime scan exactly when its UTC hour lies between 6 and 18,
    both included. *)
Theorem archive_stamp_reads_utc_hour
  (ds : xr.Dataset) (Y M D h mi s : Z) (frac : string) :
  1 <= Y <= 9999 -> 1 <= M <= 12 -> 1 <= D <= datetime.days_in_month Y M ->
  0 <= h <= 23 -> 0 <= mi <= 59 -> 0 <= s <= 59 ->
  (frac = "" \/ exists (k : nat) f, frac = "." +:+ Str.zpad (S k) f) ->
  xr.attrs ds !! "time_coverage_start"
  = Some (Str.zpad 4 Y +:+ "-" +:+ Str.zpad 2 M +:+ "-" +:+ Str.zpad 2 D +:+ "T"
          +:+ Str.zpad 2 h +:+ ":" +:+ Str.zpad 2 mi +:+ ":" +:+ Str.zpad 2 s
          +:+ frac +:+ "Z") ->
  exists scan_start,
    datetime.fromisoformat_extended
      (Str.replace_char "Z" "+00:00"
         (Str.zpad 4 Y +:+ "-" +:+ Str.zpad 2 M +:+ "-" +:+ Str.zpad 2 D +:+ "T"
          +:+ Str.zpad 2 h +:+ ":" +:+ Str.zpad 2 mi +:+ ":" +:+ Str.zpad 2 s
          +:+ frac +:+ "Z")) = Ok scan_start
    /\ datetime.utc_hour scan_start = h
    /\ processing.is_daytime datetime.fromisoformat_extended ds
       = Ok ((6 <=? h) && (h <=? 18)).
Proof.
  intros HY HM HD Hh Hmi Hs Hfrac Hattr.
  pose proof (parse_archive_stamp Y M D h mi s frac HY HM HD Hh Hmi Hs Hfrac) as Hp.
  exists (datetime.mk Y M D h mi s (Some 0)).
  split; [exact Hp|]. split.
  - apply utc_hour_of_utc_reading; cbn; [right; reflexivity|lia|lia].
  - rewrite (is_daytime_present _ ds _ _ Hattr Hp). reflexivity.
Qed.

Lemma archive_stamp_reads_utc_hour_witness :
  processing.is_daytime datetime.fromisoformat_extended sample.bright_gap
  = Ok ((6 <=? 12) && (12 <=? 18)).
Proof.
  refine (match archive_stamp_reads_utc_hour sample.bright_gap 2025 3 21 12 0 0 ""
                  _ _ _ _ _ _ _ _ with
          | ex_intro _ _ (conj _ (conj _ H)) => H
          end).
  - lia.
  - lia.
  - vm_compute. split; discriminate.
  - lia.
  - lia.
  - lia.
  - left. reflexivity.
  - reflexivity.
Defined.

